(** * Progress Notes: the note query pipeline, the lifecycle helpers and the
    record store, embedded from [lib/noteUtils.ts], [lib/noteStorage.ts],
    [types/note.ts], [components/NoteForm.tsx] and [components/NotesApp.tsx].

    Strings are sequences of 8-bit code units and the text functions of the
    platform ([toLowerCase], [trim], [includes], [join]) are given on ASCII
    text.  Instants are integers: milliseconds since the epoch, as
    [Date.prototype.getTime] returns them; the two dates of a note are valid
    dates.  What depends on the engine or its settings is a parameter: the
    collation of [localeCompare], the time zone, and what the [Date]
    constructor makes of anything but the text [toISOString] writes. *)

From Stdlib Require Import ZArith Lia Bool Ascii String List Sorted Permutation.
From stdpp Require Import gmap strings list pretty.
Import ListNotations.

#[local] Set Warnings "-register-all".

(* ===================================================================== *)
(** * Part I: the model *)
(* ===================================================================== *)

(** ** Text primitives of the platform *)

Module JS.

(** [String.prototype.toLowerCase] on ASCII letters. *)
Definition toLowerChar (c : ascii) : ascii :=
  let n := nat_of_ascii c in
  if (65 <=? n)%nat && (n <=? 90)%nat then ascii_of_nat (n + 32) else c.

Fixpoint toLowerCase (s : string) : string :=
  match s with
  | EmptyString => EmptyString
  | String c s' => String (toLowerChar c) (toLowerCase s')
  end.

(** [String.prototype.trim]: white space is TAB, LF, VT, FF, CR and SP. *)
Fixpoint trimStart (s : string) : string :=
  match s with
  | EmptyString => EmptyString
  | String c s' => if Ascii.is_space c then trimStart s' else s
  end.

Definition trimEnd (s : string) : string :=
  String.rev (trimStart (String.rev s)).

Definition trim (s : string) : string := trimEnd (trimStart s).

(** [s.startsWith(q)] *)
Fixpoint startsWith (s q : string) : bool :=
  match q, s with
  | EmptyString, _ => true
  | String _ _, EmptyString => false
  | String a q', String b s' => Ascii.eqb a b && startsWith s' q'
  end.

(** [s.includes(q)]: [q] occurs in [s] at some position. *)
Fixpoint includes (s q : string) : bool :=
  startsWith s q ||
  match s with
  | EmptyString => false
  | String _ s' => includes s' q
  end.

(** [parts.join(sep)] *)
Fixpoint join (sep : string) (parts : list string) : string :=
  match parts with
  | [] => EmptyString
  | [p] => p
  | p :: rest => p +:+ sep +:+ join sep rest
  end.

(** Truthiness of a string value: every string but the empty one. *)
Definition truthy (s : string) : bool :=
  match s with EmptyString => false | String _ _ => true end.

(** Truthiness of a possibly undefined string. *)
Definition truthy_opt (s : option string) : bool :=
  match s with None => false | Some s => truthy s end.

(** [xs.some(p)] and [xs.findIndex(p)] *)
Definition some {A} (p : A -> bool) (xs : list A) : bool := existsb p xs.

Fixpoint findIndex {A} (p : A -> bool) (xs : list A) : option nat :=
  match xs with
  | [] => None
  | x :: xs' => if p x then Some 0%nat else option_map S (findIndex p xs')
  end.

(** [Array.prototype.sort] with a comparator: the sort is stable, and a
    stable sort has one result for a consistent comparator; insertion from
    the right is one way to compute it.  [cmp a b <= 0] keeps [a] before
    [b]. *)
Fixpoint sort_insert {A} (cmp : A -> A -> Z) (x : A) (sorted : list A) : list A :=
  match sorted with
  | [] => [x]
  | y :: rest => if (cmp x y <=? 0)%Z then x :: y :: rest
                 else y :: sort_insert cmp x rest
  end.

Fixpoint sort {A} (cmp : A -> A -> Z) (xs : list A) : list A :=
  match xs with
  | [] => []
  | x :: xs' => sort_insert cmp x (sort cmp xs')
  end.

End JS.

(** ** [types/note.ts] *)

Inductive Priority := high | medium | low.
Inductive Category := bug | task | learning | meeting | feedback.
(** ['newest' | 'oldest' | 'title' | 'priority'] *)
Inductive SortOption := newest | oldest | by_title | by_priority.

Global Instance Priority_eq_dec : EqDecision Priority.
Proof. solve_decision. Defined.
Global Instance Category_eq_dec : EqDecision Category.
Proof. solve_decision. Defined.

(** The string each enumeration value is at run time. *)
Definition priorityId (p : Priority) : string :=
  match p with high => "high" | medium => "medium" | low => "low" end.

Definition categoryId (c : Category) : string :=
  match c with
  | bug => "bug" | task => "task" | learning => "learning"
  | meeting => "meeting" | feedback => "feedback"
  end.

Module Note.
Record t := mk {
  id : string;
  title : string;
  content : string;
  tags : list string;
  priority : Priority;
  category : Category;
  isFavorite : bool;
  createdAt : Z;
  updatedAt : Z
}.
End Note.

(** [SearchFilters]; an optional field that is left out is [None].  The
    interface declares [query] as required, the truthiness test on it also
    covers [undefined]. *)
Module SearchFilters.
Record t := mk {
  query : option string;
  priority : option Priority;
  category : option Category;
  isFavorite : option bool;
  tags : option (list string)
}.

(** The filter set the application starts from and resets to. *)
Definition none : t := mk (Some EmptyString) None None None None.
End SearchFilters.

(** ** [filterNotes] *)

(** [[title, content, ...tags, category, priority].join(' ').toLowerCase()] *)
Definition searchableText (note : Note.t) : string :=
  JS.toLowerCase
    (JS.join " "
       ([Note.title note; Note.content note] ++ Note.tags note ++
        [categoryId (Note.category note); priorityId (Note.priority note)])).

(** The tag test: some requested tag is contained in some tag of the note. *)
Definition hasMatchingTag (requested : list string) (note : Note.t) : bool :=
  JS.some (fun tag =>
    JS.some (fun noteTag =>
      JS.includes (JS.toLowerCase noteTag) (JS.toLowerCase tag))
      (Note.tags note))
    requested.

(** The conditions of the five [if]s of the callback of [notes.filter]. *)
Definition failsQuery (filters : SearchFilters.t) (note : Note.t) : bool :=
  match SearchFilters.query filters with
  | Some q => JS.truthy q && negb (JS.includes (searchableText note) (JS.toLowerCase q))
  | None => false
  end.

Definition failsPriority (filters : SearchFilters.t) (note : Note.t) : bool :=
  match SearchFilters.priority filters with
  | Some p => negb (bool_decide (Note.priority note = p))
  | None => false
  end.

Definition failsCategory (filters : SearchFilters.t) (note : Note.t) : bool :=
  match SearchFilters.category filters with
  | Some c => negb (bool_decide (Note.category note = c))
  | None => false
  end.

Definition failsFavorite (filters : SearchFilters.t) (note : Note.t) : bool :=
  match SearchFilters.isFavorite filters with
  | Some b => negb (Bool.eqb (Note.isFavorite note) b)
  | None => false
  end.

Definition failsTags (filters : SearchFilters.t) (note : Note.t) : bool :=
  match SearchFilters.tags filters with
  | Some ts => (0 <? length ts)%nat && negb (hasMatchingTag ts note)
  | None => false
  end.

(** The callback: each test returns [false] as soon as it fails. *)
Definition filterNotes_keep (filters : SearchFilters.t) (note : Note.t) : bool :=
  if failsQuery filters note then false
  else if failsPriority filters note then false
  else if failsCategory filters note then false
  else if failsFavorite filters note then false
  else if failsTags filters note then false
  else true.

Definition filterNotes (notes : list Note.t) (filters : SearchFilters.t) : list Note.t :=
  List.filter (filterNotes_keep filters) notes.

(** ** [sortNotes] *)

Definition priorityOrder (p : Priority) : Z :=
  match p with high => 3 | medium => 2 | low => 1 end.

Section SortNotes.

(** [String.prototype.localeCompare] depends on the locale of the engine;
    it is a parameter of the model. *)
Variable localeCompare : string -> string -> Z.

(** [[...notes]] is a fresh array, so the argument is left as it is.  The
    [default] branch of the [switch] is for no [SortOption]. *)
Definition sortNotes (notes : list Note.t) (sortBy : SortOption) : list Note.t :=
  let sortedNotes := notes in
  match sortBy with
  | newest =>
      JS.sort (fun a b => Note.createdAt b - Note.createdAt a)%Z sortedNotes
  | oldest =>
      JS.sort (fun a b => Note.createdAt a - Note.createdAt b)%Z sortedNotes
  | by_title =>
      JS.sort (fun a b => localeCompare (Note.title a) (Note.title b)) sortedNotes
  | by_priority =>
      JS.sort (fun a b => priorityOrder (Note.priority b) - priorityOrder (Note.priority a))%Z
              sortedNotes
  end.

End SortNotes.

(** ** [getUniqueTags] and [parseTags] *)

(** [[...new Set(xs)]]: the first occurrence of each string, in order. *)
Fixpoint newSet (xs : list string) : list string :=
  match xs with
  | [] => []
  | x :: rest => x :: List.filter (fun y => negb (String.eqb x y)) (newSet rest)
  end.

(** The comparator of [sort()] without an argument: code-unit order. *)
Definition defaultCompare (a b : string) : Z :=
  match String.compare a b with Lt => -1 | Eq => 0 | Gt => 1 end.

Definition getUniqueTags (notes : list Note.t) : list string :=
  let allTags := flat_map Note.tags notes in
  JS.sort defaultCompare (newSet allTags).

(** [s.split(/[,\s]+/)]: the pieces between the runs of commas and white
    space; a run at either end leaves an empty piece there. *)
Definition isTagSeparator (c : ascii) : bool :=
  Ascii.eqb c "," || Ascii.is_space c.

Fixpoint split_go (cur : string) (inSeparator : bool) (s : string) : list string :=
  match s with
  | EmptyString => [String.rev cur]
  | String c s' =>
      if isTagSeparator c then
        if inSeparator then split_go cur true s'
        else String.rev cur :: split_go EmptyString true s'
      else split_go (String c cur) false s'
  end.

Definition splitTags (s : string) : list string := split_go EmptyString false s.

Definition parseTags (tagsString : string) : list string :=
  if negb (JS.truthy (JS.trim tagsString)) then []
  else
    map JS.toLowerCase
      (List.filter (fun tag => (0 <? String.length tag)%nat)
         (map JS.trim (splitTags tagsString))).

(** ** [getNoteStats] *)

Module NoteStats.
Record t := mk {
  total : nat;
  favorites : nat;
  priorities : gmap string nat;
  categories : gmap string nat;
  recentNotes : nat;
  tags : nat
}.
End NoteStats.

Definition msPerDay : Z := 86400000.

(** The time zone of the engine: the offset of local time from UTC, in
    milliseconds, at an instant and at a local time. *)
Record TimeZone := {
  offsetAt : Z -> Z;
  offsetAtLocal : Z -> Z
}.

Definition LocalTime (zone : TimeZone) (t : Z) : Z := (t + offsetAt zone t)%Z.
Definition UTC (zone : TimeZone) (local : Z) : Z := (local - offsetAtLocal zone local)%Z.

(** Local time with no offset. *)
Definition utcZone : TimeZone := {| offsetAt := fun _ => 0%Z; offsetAtLocal := fun _ => 0%Z |}.

(** [weekAgo.setDate(weekAgo.getDate() - 7)] on [weekAgo = new Date()]: the
    same local time of day seven calendar days back. *)
Definition weekAgo (zone : TimeZone) (now : Z) : Z :=
  UTC zone (LocalTime zone now - 7 * msPerDay)%Z.

(** [acc[key] = (acc[key] || 0) + 1] *)
Definition countKey (acc : gmap string nat) (key : string) : gmap string nat :=
  <[key := (default 0 (acc !! key) + 1)%nat]> acc.

(** [now] is the instant [new Date()] reads; the callback reads it for each
    note, all readings are taken to be the same. *)
Definition getNoteStats (zone : TimeZone) (now : Z) (notes : list Note.t) : NoteStats.t :=
  let totalNotes := length notes in
  let favoriteNotes := length (List.filter Note.isFavorite notes) in
  let priorityCounts :=
    fold_left (fun acc note => countKey acc (priorityId (Note.priority note))) notes ∅ in
  let categoryCounts :=
    fold_left (fun acc note => countKey acc (categoryId (Note.category note))) notes ∅ in
  let recentNotes :=
    length (List.filter (fun note => (weekAgo zone now <? Note.createdAt note)%Z) notes) in
  NoteStats.mk totalNotes favoriteNotes priorityCounts categoryCounts recentNotes
    (length (getUniqueTags notes)).

(** ** [validateNote] and [createNewNote] *)

(** [Partial<Note>]: every field may be missing. *)
Module PartialNote.
Record t := mk {
  id : option string;
  title : option string;
  content : option string;
  tags : option (list string);
  priority : option Priority;
  category : option Category;
  isFavorite : option bool;
  createdAt : option Z;
  updatedAt : option Z
}.

Definition empty : t := mk None None None None None None None None None.
End PartialNote.

(** [errors.push(message)] *)
Definition push {A} (xs : list A) (x : A) : list A := xs ++ [x].

Definition validateNote (note : PartialNote.t) : list string :=
  let errors := [] in
  let errors :=
    if negb (JS.truthy_opt (option_map JS.trim (PartialNote.title note)))
    then push errors "Title is required" else errors in
  let errors :=
    if negb (JS.truthy_opt (option_map JS.trim (PartialNote.content note)))
    then push errors "Content is required" else errors in
  let errors :=
    if negb (JS.truthy_opt (option_map priorityId (PartialNote.priority note)))
    then push errors "Priority is required" else errors in
  let errors :=
    if negb (JS.truthy_opt (option_map categoryId (PartialNote.category note)))
    then push errors "Category is required" else errors in
  errors.

(** [generateNoteId]: [stamp] is what [Date.now()] reads and [suffix] the
    nine characters taken from [Math.random()]. *)
Definition generateNoteId (stamp : Z) (suffix : string) : string :=
  "note_" +:+ pretty stamp +:+ "_" +:+ suffix.

(** [createNewNote(data)]: [now] is the instant [new Date()] reads and
    [newId] the result of [generateNoteId()]; the fields of [data] come last
    in the object literal and replace the defaults. *)
Definition createNewNote (now : Z) (newId : string) (data : PartialNote.t) : Note.t :=
  Note.mk
    (default newId (PartialNote.id data))
    (default EmptyString (PartialNote.title data))
    (default EmptyString (PartialNote.content data))
    (default [] (PartialNote.tags data))
    (default medium (PartialNote.priority data))
    (default task (PartialNote.category data))
    (default false (PartialNote.isFavorite data))
    (default now (PartialNote.createdAt data))
    (default now (PartialNote.updatedAt data)).

(** ** [NoteForm.handleSave] and [NotesApp.handleToggleFavorite] *)

Module NoteFormData.
Record t := mk {
  title : string;
  content : string;
  tags : string;
  priority : Priority;
  category : Category;
  isFavorite : bool
}.
End NoteFormData.

(** [{...formData, tags: parsedTags}] as the candidate handed to
    [validateNote]. *)
Definition noteToValidate (formData : NoteFormData.t) : PartialNote.t :=
  PartialNote.mk None
    (Some (NoteFormData.title formData))
    (Some (NoteFormData.content formData))
    (Some (parseTags (NoteFormData.tags formData)))
    (Some (NoteFormData.priority formData))
    (Some (NoteFormData.category formData))
    (Some (NoteFormData.isFavorite formData))
    None None.

(** [handleSave]: [note] is the note being edited, if any.  The result is the
    list of validation errors shown in the form, or the note handed to
    [onSave]. *)
Definition handleSave (note : option Note.t) (formData : NoteFormData.t)
    (now : Z) (newId : string) : list string + Note.t :=
  let parsedTags := parseTags (NoteFormData.tags formData) in
  let validationErrors := validateNote (noteToValidate formData) in
  if (0 <? length validationErrors)%nat then inl validationErrors
  else
    inr (Note.mk
      (match note with
       | Some n => if JS.truthy (Note.id n) then Note.id n else newId
       | None => newId
       end)
      (JS.trim (NoteFormData.title formData))
      (JS.trim (NoteFormData.content formData))
      parsedTags
      (NoteFormData.priority formData)
      (NoteFormData.category formData)
      (NoteFormData.isFavorite formData)
      (match note with Some n => Note.createdAt n | None => now end)
      now).

(** [{ ...note, isFavorite: !note.isFavorite, updatedAt: new Date() }] *)
Definition toggledNote (note : Note.t) (now : Z) : Note.t :=
  Note.mk (Note.id note) (Note.title note) (Note.content note) (Note.tags note)
    (Note.priority note) (Note.category note)
    (negb (Note.isFavorite note)) (Note.createdAt note) now.

(** [handleToggleFavorite(id)]: the note handed to [handleSaveNote], or
    nothing when no note of the collection has that id. *)
Definition handleToggleFavorite (notes : list Note.t) (id : string) (now : Z)
  : option Note.t :=
  match List.find (fun n => String.eqb (Note.id n) id) notes with
  | None => None
  | Some note => Some (toggledNote note now)
  end.

(** The notes the lifecycle operations produce, with the instant at which
    each was produced: the clock never runs backwards between the
    operations on one note, and every fresh id comes from the generator. *)
Inductive Produced : Z -> Note.t -> Prop :=
| produced_default now stamp suffix :
    Produced now (createNewNote now (generateNoteId stamp suffix) PartialNote.empty)
| produced_sample now stamp suffix title content tags priority category isFavorite :
    (* [{...createNewNote(), title: ..., ...}] of [loadSampleData] *)
    Produced now
      (let note := createNewNote now (generateNoteId stamp suffix) PartialNote.empty in
       Note.mk (Note.id note) title content tags priority category isFavorite
         (Note.createdAt note) (Note.updatedAt note))
| produced_form_new now stamp suffix formData saved :
    handleSave None formData now (generateNoteId stamp suffix) = inr saved ->
    Produced now saved
| produced_form_edit t note now stamp suffix formData saved :
    Produced t note -> (t <= now)%Z ->
    handleSave (Some note) formData now (generateNoteId stamp suffix) = inr saved ->
    Produced now saved
| produced_toggle t note now :
    Produced t note -> (t <= now)%Z ->
    Produced now (toggledNote note now).

(** ** Dates as text: [Date.prototype.toISOString] and [Date.parse] *)

(** The time value of a [Date] object is an instant of at most 8.64e15 ms
    on either side of the epoch, or NaN (an invalid date, [None] below). *)
Definition maxTime : Z := 8640000000000000.

Definition validTime (t : Z) : Prop := (- maxTime <= t <= maxTime)%Z.

Definition timeClip (t : Z) : option Z :=
  if (Z.abs t <=? maxTime)%Z then Some t else None.

(** Day number (days since the epoch) to year, month and day of the
    proleptic Gregorian calendar, and back.  Years are counted from March in
    eras of 400 years, which are 146097 days long. *)
Definition civilFromDays (day : Z) : Z * Z * Z :=
  let z := (day + 719468)%Z in
  let era := (z / 146097)%Z in
  let doe := (z - era * 146097)%Z in
  let yoe := ((doe - doe / 1460 + doe / 36524 - doe / 146096) / 365)%Z in
  let doy := (doe - (365 * yoe + yoe / 4 - yoe / 100))%Z in
  let mp := ((5 * doy + 2) / 153)%Z in
  let d := (doy - (153 * mp + 2) / 5 + 1)%Z in
  let m := (if mp <? 10 then mp + 3 else mp - 9)%Z in
  ((yoe + era * 400 + (if m <=? 2 then 1 else 0))%Z, m, d).

Definition daysFromCivil (y m d : Z) : Z :=
  let y' := (y - (if m <=? 2 then 1 else 0))%Z in
  let era := (y' / 400)%Z in
  let yoe := (y' - era * 400)%Z in
  let mp := (if 2 <? m then m - 3 else m + 9)%Z in
  let doy := ((153 * mp + 2) / 5 + d - 1)%Z in
  let doe := (yoe * 365 + yoe / 4 - yoe / 100 + doy)%Z in
  (era * 146097 + doe - 719468)%Z.

Definition digitChar (d : Z) : ascii := ascii_of_nat (48 + Z.to_nat d).

Definition digitValue (c : ascii) : option Z :=
  let n := nat_of_ascii c in
  if (48 <=? n)%nat && (n <=? 57)%nat then Some (Z.of_nat (n - 48)) else None.

(** [width] decimal digits of [n], padded with zeros, in front of [tail]. *)
Fixpoint padDigits (width : nat) (n : Z) (tail : string) : string :=
  match width with
  | O => tail
  | S w => padDigits w (n / 10) (String (digitChar (n mod 10)) tail)
  end.

(** Reads exactly [width] decimal digits. *)
Fixpoint readDigits (width : nat) (acc : Z) (s : string) : option (Z * string) :=
  match width with
  | O => Some (acc, s)
  | S w =>
      match s with
      | EmptyString => None
      | String c s' =>
          match digitValue c with
          | Some d => readDigits w (10 * acc + d) s'
          | None => None
          end
      end
  end.

Definition expect (c : ascii) (s : string) : option string :=
  match s with
  | EmptyString => None
  | String c' s' => if Ascii.eqb c c' then Some s' else None
  end.

(** Four digits for the years 0 to 9999, a sign and six digits otherwise. *)
Definition yearText (y : Z) (tail : string) : string :=
  if (0 <=? y)%Z && (y <=? 9999)%Z then padDigits 4 y tail
  else if (y <? 0)%Z then String "-" (padDigits 6 (- y) tail)
  else String "+" (padDigits 6 y tail).

(** [toISOString] of a valid date: [YYYY-MM-DDTHH:mm:ss.sssZ]. *)
Definition toISOString (t : Z) : string :=
  let day := (t / msPerDay)%Z in
  let ms := (t mod msPerDay)%Z in
  let '(y, m, d) := civilFromDays day in
  yearText y
    (String "-" (padDigits 2 m
    (String "-" (padDigits 2 d
    (String "T" (padDigits 2 (ms / 3600000)
    (String ":" (padDigits 2 (ms / 60000 mod 60)
    (String ":" (padDigits 2 (ms / 1000 mod 60)
    (String "." (padDigits 3 (ms mod 1000) "Z"))))))))))))%Z.

Definition readYear (s : string) : option (Z * string) :=
  match s with
  | String "+" s' => readDigits 6 0 s'
  | String "-" s' =>
      match readDigits 6 0 s' with
      | Some (y, rest) => if (y =? 0)%Z then None else Some ((- y)%Z, rest)
      | None => None
      end
  | _ => readDigits 4 0 s
  end.

(** The date-time form [toISOString] writes, read back: the fields must make
    up a day of the calendar and a time of that day. *)
Definition parseISO (s : string) : option Z :=
  '(y, s) ← readYear s;
  s ← expect "-" s;
  '(m, s) ← readDigits 2 0 s;
  s ← expect "-" s;
  '(d, s) ← readDigits 2 0 s;
  s ← expect "T" s;
  '(h, s) ← readDigits 2 0 s;
  s ← expect ":" s;
  '(mi, s) ← readDigits 2 0 s;
  s ← expect ":" s;
  '(sec, s) ← readDigits 2 0 s;
  s ← expect "." s;
  '(ms, s) ← readDigits 3 0 s;
  s ← expect "Z" s;
  if negb (JS.truthy s)
     && bool_decide (civilFromDays (daysFromCivil y m d) = (y, m, d))
     && (h <? 24)%Z && (mi <? 60)%Z && (sec <? 60)%Z
  then timeClip (daysFromCivil y m d * msPerDay
                 + h * 3600000 + mi * 60000 + sec * 1000 + ms)%Z
  else None.

(** ** JSON documents, run-time values and exceptions *)

(** What [JSON.parse] builds.  Numbers are the integers; no field of a note
    is a number. *)
Inductive json :=
| JNull
| JBool (b : bool)
| JNum (n : Z)
| JStr (s : string)
| JArr (items : list json)
| JObj (members : list (string * json)).

(** The values the store handles at run time: JSON values, [undefined], and
    [Date] objects with their time value. *)
Inductive jsval :=
| VUndefined
| VNull
| VBool (b : bool)
| VNum (n : Z)
| VStr (s : string)
| VDate (time : option Z)
| VArr (items : list jsval)
| VObj (props : list (string * jsval)).

(** A call returns or throws. *)
Inductive outcome (A : Type) :=
| Ok (a : A)
| Throw (error : string).
Arguments Ok {A} a.
Arguments Throw {A} error.

Global Instance outcome_ret : MRet outcome := fun _ a => Ok a.
Global Instance outcome_bind : MBind outcome := fun _ _ f m =>
  match m with Ok a => f a | Throw e => Throw e end.

(** [try { body } catch (error) { handler }] *)
Definition tryCatch {A} (body : outcome A) (handler : string -> outcome A) : outcome A :=
  match body with Ok a => Ok a | Throw e => handler e end.

(** [xs.map(f)] for a callback that may throw. *)
Fixpoint mapThrowing {A B} (f : A -> outcome B) (xs : list A) : outcome (list B) :=
  match xs with
  | [] => Ok []
  | x :: rest => y ← f x; ys ← mapThrowing f rest; Ok (y :: ys)
  end.

Fixpoint ofJSON (j : json) : jsval :=
  match j with
  | JNull => VNull
  | JBool b => VBool b
  | JNum n => VNum n
  | JStr s => VStr s
  | JArr items => VArr (map ofJSON items)
  | JObj members => VObj (map (fun kv => (fst kv, ofJSON (snd kv))) members)
  end.

(** The JSON of a value as [JSON.stringify] writes it: a [Date] through its
    [toJSON] (the ISO text, or [null] for an invalid date), [undefined] as
    [null] inside an array and not at all inside an object. *)
Fixpoint toJSON (v : jsval) : option json :=
  match v with
  | VUndefined => None
  | VNull => Some JNull
  | VBool b => Some (JBool b)
  | VNum n => Some (JNum n)
  | VStr s => Some (JStr s)
  | VDate (Some t) => Some (JStr (toISOString t))
  | VDate None => Some JNull
  | VArr items => Some (JArr (map (fun x => default JNull (toJSON x)) items))
  | VObj props =>
      Some (JObj ((fix members (ps : list (string * jsval)) : list (string * json) :=
                     match ps with
                     | [] => []
                     | (k, x) :: rest =>
                         match toJSON x with
                         | Some j => (k, j) :: members rest
                         | None => members rest
                         end
                     end) props))
  end.

(** ** [localStorage] *)

(** A stored string, as far as the store looks at it.  The store does two
    things with the string under the key of the notes: it tests whether it
    is empty, and it hands it to [JSON.parse].  So a string is one of three:
    the empty string, a string that [JSON.parse] rejects, and the text of a
    JSON document, which [JSON.parse] turns into that document.
    [JSON.stringify] writes a text of the third kind: the text of the
    document of its argument. *)
Inductive text :=
| EmptyText
| NotJSON
| JSONText (document : json).

Definition text_truthy (s : text) : bool :=
  match s with EmptyText => false | _ => true end.

Definition JSON_parse (s : text) : outcome json :=
  match s with
  | JSONText document => Ok document
  | _ => Throw "SyntaxError"
  end.

Definition JSON_stringify (notes : list jsval) : text :=
  JSONText (JArr (map (fun x => default JNull (toJSON x)) notes)).

(** The storage area: its items, and whether it takes writes ([setItem]
    throws when the quota is used up or storage is disabled). *)
Module Storage.
Record t := mk {
  items : gmap string text;
  writable : bool
}.

Definition getItem (st : t) (key : string) : option text := items st !! key.

Definition setItem (st : t) (key : string) (value : text) : outcome t :=
  if writable st then Ok (mk (<[key := value]> (items st)) (writable st))
  else Throw "QuotaExceededError".

Definition removeItem (st : t) (key : string) : t :=
  mk (delete key (items st)) (writable st).
End Storage.

Definition NOTES_STORAGE_KEY : string := "notes-app-data".

(** A note as the object it is at run time. *)
Definition noteObject (note : Note.t) : jsval :=
  VObj [ ("id", VStr (Note.id note));
         ("title", VStr (Note.title note));
         ("content", VStr (Note.content note));
         ("tags", VArr (map VStr (Note.tags note)));
         ("priority", VStr (priorityId (Note.priority note)));
         ("category", VStr (categoryId (Note.category note)));
         ("isFavorite", VBool (Note.isFavorite note));
         ("createdAt", VDate (Some (Note.createdAt note)));
         ("updatedAt", VDate (Some (Note.updatedAt note))) ].

(** Own properties: [o[key]], [{...o}] and [o[key] = v] in an object
    literal (a key that is there keeps its place). *)
Fixpoint lookupProp {V} (key : string) (props : list (string * V)) : option V :=
  match props with
  | [] => None
  | (k, v) :: rest => if String.eqb k key then Some v else lookupProp key rest
  end.

Fixpoint setProp {V} (key : string) (v : V) (props : list (string * V)) : list (string * V) :=
  match props with
  | [] => [(key, v)]
  | (k, old) :: rest =>
      if String.eqb k key then (k, v) :: rest else (k, old) :: setProp key v rest
  end.

Definition getMember (j : json) (key : string) : option json :=
  match j with
  | JObj members => lookupProp key members
  | _ => None
  end.

Fixpoint indexed {V} (from : nat) (items : list V) : list (string * V) :=
  match items with
  | [] => []
  | x :: rest => (pretty from, x) :: indexed (S from) rest
  end.

Fixpoint characters (s : string) : list jsval :=
  match s with
  | EmptyString => []
  | String c s' => VStr (String c EmptyString) :: characters s'
  end.

(** The properties [{...value}] copies. *)
Definition spread (v : jsval) : list (string * jsval) :=
  match v with
  | VObj props => props
  | VArr items => indexed 0 items
  | VStr s => indexed 0 (characters s)
  | _ => []
  end.

(** ** [noteStorage] *)

Section NoteStorage.

(** Two things are the engine's own and stay parameters: what [Date.parse]
    makes of text in another form than [toISOString] writes, and what
    [new Date(o)] makes of an array or an object (it converts [o] to a
    primitive first, which may throw). *)
Variable legacyDateParse : string -> option Z.
Variable dateOfObject : json -> outcome (option Z).

Definition Date_parse (s : string) : option Z :=
  match parseISO s with
  | Some t => Some t
  | None => legacyDateParse s
  end.

(** The time value of [new Date(value)], [value] a member of a parsed
    document or [undefined] where there is no such member. *)
Definition newDate (value : option json) : outcome (option Z) :=
  match value with
  | None => Ok None
  | Some JNull => Ok (Some 0%Z)
  | Some (JBool b) => Ok (Some (if b then 1 else 0)%Z)
  | Some (JNum n) => Ok (timeClip n)
  | Some (JStr s) => Ok (Date_parse s)
  | Some o => dateOfObject o
  end.

(** The callback of [notes.map] in [getAllNotes]:
    [{...note, createdAt: new Date(note.createdAt),
               updatedAt: new Date(note.updatedAt)}]. *)
Definition reviveNote (note : json) : outcome jsval :=
  match note with
  | JNull => Throw "TypeError"
  | _ =>
      created ← newDate (getMember note "createdAt");
      updated ← newDate (getMember note "updatedAt");
      Ok (VObj (setProp "updatedAt" (VDate updated)
                 (setProp "createdAt" (VDate created) (spread (ofJSON note)))))
  end.

(** [notes.map(...)] on the parsed document: only an array has [map]. *)
Definition mapNotes (notes : json) : outcome (list jsval) :=
  match notes with
  | JArr items => mapThrowing reviveNote items
  | _ => Throw "TypeError"
  end.

(** [getAllNotes] returns from its [catch] block as well: what is thrown
    inside is logged and the empty array returned. *)
Definition getAllNotes (st : Storage.t) : outcome (list jsval) :=
  tryCatch
    (match Storage.getItem st NOTES_STORAGE_KEY with
     | None => Ok []
     | Some stored =>
         if negb (text_truthy stored) then Ok []
         else notes ← JSON_parse stored; mapNotes notes
     end)
    (fun error => Ok []).

(** [n.id === id] *)
Definition hasId (id : string) (n : jsval) : bool :=
  match n with
  | VObj props =>
      match lookupProp "id" props with
      | Some (VStr s) => String.eqb s id
      | _ => false
      end
  | _ => false
  end.

Definition saveNote (note : Note.t) (st : Storage.t) : outcome Storage.t :=
  tryCatch
    (notes ← getAllNotes st;
     let existingIndex := JS.findIndex (hasId (Note.id note)) notes in
     let notes :=
       match existingIndex with
       | Some i => <[i := noteObject note]> notes
       | None => push notes (noteObject note)
       end in
     Storage.setItem st NOTES_STORAGE_KEY (JSON_stringify notes))
    (fun error => Throw "Failed to save note").

Definition deleteNote (id : string) (st : Storage.t) : outcome Storage.t :=
  tryCatch
    (notes ← getAllNotes st;
     let filteredNotes := List.filter (fun note => negb (hasId id note)) notes in
     Storage.setItem st NOTES_STORAGE_KEY (JSON_stringify filteredNotes))
    (fun error => Throw "Failed to delete note").

Definition getNoteById (id : string) (st : Storage.t) : outcome (option jsval) :=
  notes ← getAllNotes st;
  Ok (List.find (hasId id) notes).

Definition importNotes (notes : list Note.t) (st : Storage.t) : outcome Storage.t :=
  tryCatch
    (Storage.setItem st NOTES_STORAGE_KEY (JSON_stringify (map noteObject notes)))
    (fun error => Throw "Failed to import notes").

Definition clearAllNotes (st : Storage.t) : Storage.t :=
  Storage.removeItem st NOTES_STORAGE_KEY.

End NoteStorage.

(** What the claim about [saveNote] says of the collection: the first note
    with the id of [note] gives its place to [note]; without such a note,
    [note] goes to the end. *)
Fixpoint replaceOrAppend (note : Note.t) (stored : list Note.t) : list Note.t :=
  match stored with
  | [] => [note]
  | n :: rest =>
      if String.eqb (Note.id n) (Note.id note) then note :: rest
      else n :: replaceOrAppend note rest
  end.

(** ** The words of the specification *)

(** [q] is a substring of [s]. *)
Definition IsSubstring (q s : string) : Prop :=
  exists before after, s = before +:+ q +:+ after.

(** The filter set without its text query. *)
Definition withoutQuery (filters : SearchFilters.t) : SearchFilters.t :=
  SearchFilters.mk None
    (SearchFilters.priority filters) (SearchFilters.category filters)
    (SearchFilters.isFavorite filters) (SearchFilters.tags filters).

(** The number of notes with priority [p]. *)
Definition priorityCount (p : Priority) (notes : list Note.t) : nat :=
  length (List.filter (fun note => bool_decide (Note.priority note = p)) notes).

(** The trailing week of [now] with both ends: from [now] minus seven days
    up to [now]. *)
Definition inTrailingWeek (now : Z) (note : Note.t) : bool :=
  (now - 7 * msPerDay <=? Note.createdAt note)%Z && (Note.createdAt note <=? now)%Z.

(** The same without its first instant. *)
Definition afterWeekAgo (now : Z) (note : Note.t) : bool :=
  (now - 7 * msPerDay <? Note.createdAt note)%Z && (Note.createdAt note <=? now)%Z.

(** The rules of validation: a text field is missing when it is not there
    or is empty after trimming, an enumeration field when it is not there. *)
Definition missingText (field : option string) : bool :=
  match field with
  | None => true
  | Some s => String.eqb (JS.trim s) EmptyString
  end.

Definition missingChoice {A} (field : option A) : bool :=
  match field with None => true | Some _ => false end.

Definition messageIf (violated : bool) (message : string) : list string :=
  if violated then [message] else [].

(** Both timestamps of the note are time values of a [Date]. *)
Definition validNote (note : Note.t) : Prop :=
  validTime (Note.createdAt note) /\ validTime (Note.updatedAt note).

(** ** A sample collection

    Three notes in the manner of [loadSampleData], with shortened texts;
    all three were made at the same instant. *)

Definition sampleInstant : Z := 1700000000000.

Definition welcomeNote : Note.t :=
  Note.mk "note_1700000000000_k3j9x0q1a" "Welcome to Progress Notes!"
    "This is your personal notes app to track your internship journey."
    ["welcome"; "getting-started"] high learning true
    sampleInstant sampleInstant.

Definition bugNote : Note.t :=
  Note.mk "note_1700000000000_p0z8w7v2b" "Bug: Login form validation"
    "Found an issue with the login form where empty passwords are accepted."
    ["frontend"; "validation"; "urgent"] high bug false
    sampleInstant sampleInstant.

Definition learningNote : Note.t :=
  Note.mk "note_1700000000000_m4n5b6c7d" "Learning: React Hooks Best Practices"
    "Key takeaways from the code review of today."
    ["react"; "hooks"; "best-practices"] medium learning true
    sampleInstant sampleInstant.

Definition sampleNotes : list Note.t := [welcomeNote; bugNote; learningNote].

(** A store that takes writes and holds nothing, and one with [stored]
    under the key of the notes. *)
Definition emptyStorage : Storage.t := Storage.mk ∅ true.

Definition storageWith (stored : text) : Storage.t :=
  Storage.mk {[ NOTES_STORAGE_KEY := stored ]} true.

(** ** [validateNote] on the values of run time

    The type [Partial<Note>] is not there at run time: [validateNote] takes
    the object it is handed, whatever its fields hold; the form of a note
    that [getAllNotes] read from the store hands on the priority and the
    category the store held. *)

Module RunTime.

(** [o[key]]: a property that is not there reads as [undefined]. *)
Definition get (o : list (string * jsval)) (key : string) : jsval :=
  default VUndefined (lookupProp key o).

(** Truthiness of a value. *)
Definition truthy (v : jsval) : bool :=
  match v with
  | VUndefined | VNull => false
  | VBool b => b
  | VNum n => negb (n =? 0)%Z
  | VStr s => JS.truthy s
  | VDate _ | VArr _ | VObj _ => true
  end.

(** [!value?.trim()]: the optional chain covers [undefined] and [null]; of
    the other values only a string has [trim]. *)
Definition blankText (value : jsval) : outcome bool :=
  match value with
  | VUndefined | VNull => Ok true
  | VStr s => Ok (negb (JS.truthy (JS.trim s)))
  | _ => Throw "TypeError"
  end.

Definition validateNote (note : list (string * jsval)) : outcome (list string) :=
  let errors : list string := [] in
  match blankText (get note "title") with
  | Throw e => Throw e
  | Ok noTitle =>
      let errors := if noTitle then push errors "Title is required" else errors in
      match blankText (get note "content") with
      | Throw e => Throw e
      | Ok noContent =>
          let errors := if noContent then push errors "Content is required" else errors in
          let errors :=
            if negb (truthy (get note "priority"))
            then push errors "Priority is required" else errors in
          let errors :=
            if negb (truthy (get note "category"))
            then push errors "Category is required" else errors in
          Ok errors
      end
  end.

End RunTime.

(** A candidate of the declared type as the object it is: the fields that
    are there, each with its value. *)
Definition optionalProp {A} (key : string) (value : A -> jsval) (field : option A)
  : list (string * jsval) :=
  match field with
  | Some x => [(key, value x)]
  | None => []
  end.

Definition partialObject (note : PartialNote.t) : list (string * jsval) :=
  optionalProp "id" VStr (PartialNote.id note)
  ++ optionalProp "title" VStr (PartialNote.title note)
  ++ optionalProp "content" VStr (PartialNote.content note)
  ++ optionalProp "tags" (fun tags => VArr (map VStr tags)) (PartialNote.tags note)
  ++ optionalProp "priority" (fun p => VStr (priorityId p)) (PartialNote.priority note)
  ++ optionalProp "category" (fun c => VStr (categoryId c)) (PartialNote.category note)
  ++ optionalProp "isFavorite" VBool (PartialNote.isFavorite note)
  ++ optionalProp "createdAt" (fun t => VDate (Some t)) (PartialNote.createdAt note)
  ++ optionalProp "updatedAt" (fun t => VDate (Some t)) (PartialNote.updatedAt note).

(** The rules of validation on the values of run time: a text field is
    missing when it is not there, is [null], or is empty after trimming; a
    text field that holds another kind of value is no text; a choice is
    missing when its value is falsy. *)
Definition textOrAbsent (value : jsval) : bool :=
  match value with
  | VUndefined | VNull | VStr _ => true
  | _ => false
  end.

Definition missingTextValue (value : jsval) : bool :=
  match value with
  | VStr s => String.eqb (JS.trim s) EmptyString
  | _ => true
  end.



(** ** The other helpers of [lib/noteUtils.ts] *)

Module JSString.

(** [String.prototype.toUpperCase] on ASCII letters. *)
Definition toUpperChar (c : ascii) : ascii :=
  let n := nat_of_ascii c in
  if (97 <=? n)%nat && (n <=? 122)%nat then ascii_of_nat (n - 32) else c.

Fixpoint toUpperCase (s : string) : string :=
  match s with
  | EmptyString => EmptyString
  | String c s' => String (toUpperChar c) (toUpperCase s')
  end.

(** [s.charAt(0)] and [s.slice(1)] *)
Definition charAt0 (s : string) : string :=
  match s with
  | EmptyString => EmptyString
  | String c _ => String c EmptyString
  end.

Definition slice1 (s : string) : string :=
  match s with
  | EmptyString => EmptyString
  | String _ s' => s'
  end.

(** [s.substring(0, n)] for a number of characters [n]. *)
Fixpoint take (n : nat) (s : string) : string :=
  match n, s with
  | S n', String c s' => String c (take n' s')
  | _, _ => EmptyString
  end.

(** [s.substring(0, n)] for an integer [n]: a negative [n] counts as 0. *)
Definition substring0 (n : Z) (s : string) : string := take (Z.to_nat n) s.

End JSString.

Definition formatTagsForDisplay (tags : list string) : list string :=
  map (fun tag =>
         JSString.toUpperCase (JSString.charAt0 tag)
         +:+ JS.toLowerCase (JSString.slice1 tag))
      tags.

(** [truncateText(text, maxLength)]; the callers pass 120 or leave the
    default of 150. *)
Definition truncateText (text : string) (maxLength : Z) : string :=
  if (Z.of_nat (String.length text) <=? maxLength)%Z then text
  else JS.trim (JSString.substring0 maxLength text) +:+ "...".

(** ** [SearchAndFilter]: the filter state *)

(** [clearFilters] *)
Definition clearFilters : SearchFilters.t :=
  SearchFilters.mk (Some EmptyString) None None None None.

(** [hasActiveFilters], as the condition it is used for. *)
Definition hasActiveFilters (filters : SearchFilters.t) : bool :=
  JS.truthy_opt (option_map priorityId (SearchFilters.priority filters))
  || JS.truthy_opt (option_map categoryId (SearchFilters.category filters))
  || match SearchFilters.isFavorite filters with Some _ => true | None => false end
  || match SearchFilters.tags filters with
     | Some ts => (0 <? length ts)%nat
     | None => false
     end.

(** [updateFilters({ tags })] *)
Definition withTags (filters : SearchFilters.t) (ts : list string) : SearchFilters.t :=
  SearchFilters.mk (SearchFilters.query filters)
    (SearchFilters.priority filters) (SearchFilters.category filters)
    (SearchFilters.isFavorite filters) (Some ts).

(** [currentTags.includes(tag)] *)
Definition includesTag (tag : string) (ts : list string) : bool :=
  existsb (String.eqb tag) ts.

(** [addTagFilter] and [removeTagFilter]: the filter set after the call. *)
Definition addTagFilter (filters : SearchFilters.t) (tag : string) : SearchFilters.t :=
  let currentTags := default [] (SearchFilters.tags filters) in
  if negb (includesTag tag currentTags) then withTags filters (currentTags ++ [tag])
  else filters.

Definition removeTagFilter (filters : SearchFilters.t) (tag : string) : SearchFilters.t :=
  let currentTags := default [] (SearchFilters.tags filters) in
  withTags filters (List.filter (fun t => negb (String.eqb t tag)) currentTags).

(** ** [NoteForm]: the form of a note that is edited *)

(** The form data the effect of [NoteForm] sets for [note]. *)
Definition formDataOf (note : Note.t) : NoteFormData.t :=
  NoteFormData.mk (Note.title note) (Note.content note)
    (JS.join ", " (Note.tags note))
    (Note.priority note) (Note.category note) (Note.isFavorite note).

(** ** [categoryStorage] and [storageUtils] *)

Definition CATEGORIES_STORAGE_KEY : string := "notes-app-categories".

Definition DEFAULT_CATEGORIES : list Category := [bug; task; learning; meeting; feedback].

(** A list of categories as the array of strings it is. *)
Definition categoriesJSON (categories : list Category) : json :=
  JArr (map (fun c => JStr (categoryId c)) categories).

(** [getAllCategories]: what is stored is returned as [JSON.parse] gives it. *)
Definition getAllCategories (st : Storage.t) : json :=
  match
    tryCatch
      (match Storage.getItem st CATEGORIES_STORAGE_KEY with
       | None => Ok (categoriesJSON DEFAULT_CATEGORIES)
       | Some stored =>
           if text_truthy stored then JSON_parse stored
           else Ok (categoriesJSON DEFAULT_CATEGORIES)
       end)
      (fun error => Ok (categoriesJSON DEFAULT_CATEGORIES))
  with
  | Ok categories => categories
  | Throw _ => categoriesJSON DEFAULT_CATEGORIES
  end.

(** [categories.includes(category)] on what [getAllCategories] returned: an
    array has the element or not, a string contains the text or not, and
    nothing else has [includes]. *)
Definition categoriesInclude (categories : json) (category : string) : outcome bool :=
  match categories with
  | JArr items =>
      Ok (existsb (fun item => match item with
                               | JStr s => String.eqb s category
                               | _ => false
                               end) items)
  | JStr s => Ok (JS.includes s category)
  | _ => Throw "TypeError"
  end.

(** [addCategory]: the store after the call; what is thrown inside is
    logged and nothing more.  A string has no [push]. *)
Definition addCategory (category : Category) (st : Storage.t) : Storage.t :=
  match
    tryCatch
      (let categories := getAllCategories st in
       included ← categoriesInclude categories (categoryId category);
       if negb included then
         match categories with
         | JArr items =>
             Storage.setItem st CATEGORIES_STORAGE_KEY
               (JSON_stringify (map ofJSON items ++ [VStr (categoryId category)]))
         | _ => Throw "TypeError"
         end
       else Ok st)
      (fun error => Ok st)
  with
  | Ok st' => st'
  | Throw _ => st
  end.

(** [isStorageAvailable]: the answer, and the store after the probe. *)
Definition isStorageAvailable (st : Storage.t) : bool * Storage.t :=
  let test := "storage-test" in
  match Storage.setItem st test NotJSON with
  | Ok st' => (true, Storage.removeItem st' test)
  | Throw _ => (false, st)
  end.

(** ** [NotesApp]: the notes in memory and the store *)

Module AppState.
Record t := mk {
  notes : list Note.t;
  storage : Storage.t
}.
End AppState.

(** [notes.some(n => n.id === note.id)
      ? notes.map(n => n.id === note.id ? note : n) : [...notes, note]] *)
Definition updatedNotes (notes : list Note.t) (note : Note.t) : list Note.t :=
  if JS.some (fun n => String.eqb (Note.id n) (Note.id note)) notes
  then map (fun n => if String.eqb (Note.id n) (Note.id note) then note else n) notes
  else notes ++ [note].

Section NotesApp.

Variable legacyDateParse : string -> option Z.
Variable dateOfObject : json -> outcome (option Z).

(** [handleSaveNote]: when [saveNote] throws, a toast tells so and the notes
    in memory stay as they are.  The toasts are left out. *)
Definition handleSaveNote (note : Note.t) (app : AppState.t) : AppState.t :=
  match saveNote legacyDateParse dateOfObject note (AppState.storage app) with
  | Ok st' => AppState.mk (updatedNotes (AppState.notes app) note) st'
  | Throw _ => app
  end.

(** [handleDeleteNote]: [confirmed] is the answer of [window.confirm], which is
    asked for a note of high priority or a favorite. *)
Definition handleDeleteNote (id : string) (confirmed : bool) (app : AppState.t)
  : AppState.t :=
  match List.find (fun n => String.eqb (Note.id n) id) (AppState.notes app) with
  | None => app
  | Some note =>
      if (bool_decide (Note.priority note = high) || Note.isFavorite note)
         && negb confirmed
      then app
      else
        match deleteNote legacyDateParse dateOfObject id (AppState.storage app) with
        | Ok st' =>
            AppState.mk
              (List.filter (fun n => negb (String.eqb (Note.id n) id)) (AppState.notes app))
              st'
        | Throw _ => app
        end
  end.

(** [handleToggleFavorite] with the [handleSaveNote] it ends in. *)
Definition toggleFavorite (id : string) (now : Z) (app : AppState.t) : AppState.t :=
  match handleToggleFavorite (AppState.notes app) id now with
  | None => app
  | Some updatedNote => handleSaveNote updatedNote app
  end.

(** [sampleNotes.forEach(note => noteStorage.saveNote(note))] of
    [loadSampleData]: the first [saveNote] that throws ends the loop. *)
Fixpoint saveEach (notes : list Note.t) (st : Storage.t) : outcome Storage.t :=
  match notes with
  | [] => Ok st
  | note :: rest =>
      st' ← saveNote legacyDateParse dateOfObject note st;
      saveEach rest st'
  end.

End NotesApp.

(** The effect of [NotesApp] that computes the notes on display:
    [filterNotes], then [sortNotes]. *)
Definition filteredNotes (localeCompare : string -> string -> Z)
    (notes : list Note.t) (searchFilters : SearchFilters.t) (sortBy : SortOption)
  : list Note.t :=
  let result := filterNotes notes searchFilters in
  let result := sortNotes localeCompare result sortBy in
  result.

(** ** More words for the statements *)

(** The store after [setItem] of the text of [notes] under the key of the
    notes. *)
Definition withNotes (st : Storage.t) (notes : list Note.t) : Storage.t :=
  Storage.mk
    (<[NOTES_STORAGE_KEY := JSON_stringify (map noteObject notes)]> (Storage.items st))
    (Storage.writable st).

(** The notes with another id than [id]. *)
Definition withoutId (id : string) (notes : list Note.t) : list Note.t :=
  List.filter (fun n => negb (String.eqb (Note.id n) id)) notes.

(** The application with the sample collection in memory and in the
    store. *)
Definition sampleApp : AppState.t :=
  AppState.mk sampleNotes (storageWith (JSON_stringify (map noteObject sampleNotes))).

(** The first note with the id [id]. *)
Definition firstWithId (id : string) (notes : list Note.t) : option Note.t :=
  List.find (fun n => String.eqb (Note.id n) id) notes.


(** The characters of a string. *)
Fixpoint chars (s : string) : list ascii :=
  match s with
  | EmptyString => []
  | String c s' => c :: chars s'
  end.

(** A tag as [parseTags] makes them: not empty, in lower case, without a
    comma or white space. *)
Definition normalizedTag (tag : string) : Prop :=
  tag <> EmptyString
  /\ JS.toLowerCase tag = tag
  /\ Forall (fun c => isTagSeparator c = false) (chars tag).

(** The string without its commas and white space. *)
Fixpoint removeSeparators (s : string) : string :=
  match s with
  | EmptyString => EmptyString
  | String c s' =>
      if isTagSeparator c then removeSeparators s' else String c (removeSeparators s')
  end.

(** Text without a comma or white space. *)
Definition sepFree (s : string) : Prop :=
  Forall (fun c => isTagSeparator c = false) (chars s).

(** Text of ASCII characters only, and text without white space. *)
Definition asciiText (s : string) : Prop :=
  Forall (fun c => (nat_of_ascii c < 128)%nat) (chars s).

Definition blank (s : string) : Prop :=
  Forall (fun c => Ascii.is_space c = true) (chars s).

(** The notes of one priority, in the order of the collection. *)
Definition withPriority (p : Priority) (notes : list Note.t) : list Note.t :=
  List.filter (fun note => bool_decide (Note.priority note = p)) notes.

(** The number of notes of one category. *)
Definition categoryCount (c : Category) (notes : list Note.t) : nat :=
  length (List.filter (fun note => bool_decide (Note.category note = c)) notes).

(** The notes in memory are the ones the store holds. *)
Definition InSync (legacyDateParse : string -> option Z)
    (dateOfObject : json -> outcome (option Z)) (app : AppState.t) : Prop :=
  getAllNotes legacyDateParse dateOfObject (AppState.storage app)
  = Ok (map noteObject (AppState.notes app)).

(* ===================================================================== *)
(** * Part II: the properties *)
(* ===================================================================== *)

(** ** Text *)

Lemma app_String c s t : String c s +:+ t = String c (s +:+ t).
Proof. reflexivity. Qed.

Lemma app_Empty t : EmptyString +:+ t = t.
Proof. reflexivity. Qed.

Lemma startsWith_spec s q :
  JS.startsWith s q = true <-> exists after, s = q +:+ after.
Proof.
  revert s. induction q as [|a q IH]; intros s.
  - split; [intros _; exists s; reflexivity | intros _; destruct s; reflexivity].
  - destruct s as [|b s]; simpl.
    + split; [discriminate | intros [after H]; discriminate].
    + rewrite andb_true_iff, Ascii.eqb_eq, IH. split.
      * intros [-> [after ->]]. exists after. reflexivity.
      * intros [after H]. rewrite app_String in H. injection H as -> ->.
        split; [reflexivity | exists after; reflexivity].
Qed.

Lemma includes_spec s q : JS.includes s q = true <-> IsSubstring q s.
Proof.
  unfold IsSubstring. induction s as [|c s IH].
  - cbn [JS.includes]. rewrite orb_false_r, startsWith_spec. split.
    + intros [after H]. exists EmptyString, after. exact H.
    + intros [before [after H]]. destruct before; [exists after; exact H | discriminate].
  - cbn [JS.includes]. rewrite orb_true_iff, startsWith_spec, IH. split.
    + intros [[after H] | [before [after H]]].
      * exists EmptyString, after. exact H.
      * exists (String c before), after. rewrite app_String. congruence.
    + intros [before [after H]]. destruct before as [|b before].
      * left. exists after. exact H.
      * right. rewrite app_String in H. injection H as _ H.
        exists before, after. exact H.
Qed.

Lemma truthy_true s : JS.truthy s = true <-> s <> EmptyString.
Proof. destruct s; simpl; split; congruence. Qed.

Lemma trim_Empty : JS.trim EmptyString = EmptyString.
Proof. reflexivity. Qed.

(** ** [filterNotes] *)

Lemma filter_sublist {A} (p : A -> bool) (xs : list A) :
  sublist (List.filter p xs) xs.
Proof.
  induction xs as [|x xs IH]; simpl.
  - constructor.
  - destruct (p x); [apply sublist_skip | apply sublist_cons]; exact IH.
Qed.

Lemma hasMatchingTag_spec requested note :
  hasMatchingTag requested note = true <->
  exists tag noteTag, In tag requested /\ In noteTag (Note.tags note) /\
    IsSubstring (JS.toLowerCase tag) (JS.toLowerCase noteTag).
Proof.
  unfold hasMatchingTag, JS.some. rewrite existsb_exists. split.
  - intros [tag [Hin H]]. apply existsb_exists in H as [noteTag [Hin' H]].
    apply includes_spec in H. eauto.
  - intros [tag [noteTag [Hin [Hin' H]]]]. exists tag. split; [exact Hin|].
    apply existsb_exists. exists noteTag. split; [exact Hin'|].
    apply includes_spec. exact H.
Qed.

(** What each of the five tests asks of a note. *)
Lemma failsQuery_spec filters note :
  failsQuery filters note = false <->
  forall q, SearchFilters.query filters = Some q -> q <> EmptyString ->
    IsSubstring (JS.toLowerCase q) (searchableText note).
Proof.
  unfold failsQuery. destruct (SearchFilters.query filters) as [[|a q]|].
  - split; [intros _ q' [= <-] Hq; contradiction Hq; reflexivity | reflexivity].
  - cbn [JS.truthy andb]. rewrite negb_false_iff, includes_spec. split.
    + intros H q' [= <-] _. exact H.
    + intros H. apply H; [reflexivity | discriminate].
  - split; [intros _ q' [=] | reflexivity].
Qed.

Lemma failsPriority_spec filters note :
  failsPriority filters note = false <->
  forall p, SearchFilters.priority filters = Some p -> Note.priority note = p.
Proof.
  unfold failsPriority. destruct (SearchFilters.priority filters) as [p|].
  - rewrite negb_false_iff, bool_decide_eq_true. split.
    + intros H p' [= <-]. exact H.
    + intros H. apply H. reflexivity.
  - split; [intros _ p' [=] | reflexivity].
Qed.

Lemma failsCategory_spec filters note :
  failsCategory filters note = false <->
  forall c, SearchFilters.category filters = Some c -> Note.category note = c.
Proof.
  unfold failsCategory. destruct (SearchFilters.category filters) as [c|].
  - rewrite negb_false_iff, bool_decide_eq_true. split.
    + intros H c' [= <-]. exact H.
    + intros H. apply H. reflexivity.
  - split; [intros _ c' [=] | reflexivity].
Qed.

Lemma failsFavorite_spec filters note :
  failsFavorite filters note = false <->
  forall b, SearchFilters.isFavorite filters = Some b -> Note.isFavorite note = b.
Proof.
  unfold failsFavorite. destruct (SearchFilters.isFavorite filters) as [b|].
  - rewrite negb_false_iff, Bool.eqb_true_iff. split.
    + intros H b' [= <-]. exact H.
    + intros H. apply H. reflexivity.
  - split; [intros _ b' [=] | reflexivity].
Qed.

Lemma failsTags_spec filters note :
  failsTags filters note = false <->
  forall ts, SearchFilters.tags filters = Some ts -> ts <> [] ->
    exists tag noteTag, In tag ts /\ In noteTag (Note.tags note) /\
      IsSubstring (JS.toLowerCase tag) (JS.toLowerCase noteTag).
Proof.
  unfold failsTags. destruct (SearchFilters.tags filters) as [[|t ts]|].
  - split; [intros _ ts' [= <-] Hts; contradiction Hts; reflexivity | reflexivity].
  - change ((0 <? length (t :: ts))%nat) with true. cbn [andb].
    rewrite negb_false_iff, hasMatchingTag_spec. split.
    + intros H ts' [= <-] _. exact H.
    + intros H. apply H; [reflexivity | discriminate].
  - split; [intros _ ts' [=] | reflexivity].
Qed.

Lemma filterNotes_keep_tests filters note :
  filterNotes_keep filters note = true <->
  failsQuery filters note = false /\ failsPriority filters note = false
  /\ failsCategory filters note = false /\ failsFavorite filters note = false
  /\ failsTags filters note = false.
Proof.
  unfold filterNotes_keep.
  destruct (failsQuery filters note), (failsPriority filters note),
    (failsCategory filters note), (failsFavorite filters note),
    (failsTags filters note); intuition discriminate.
Qed.

Lemma filterNotes_keep_spec filters note :
  filterNotes_keep filters note = true <->
    (forall q, SearchFilters.query filters = Some q -> q <> EmptyString ->
       IsSubstring (JS.toLowerCase q) (searchableText note))
    /\ (forall p, SearchFilters.priority filters = Some p -> Note.priority note = p)
    /\ (forall c, SearchFilters.category filters = Some c -> Note.category note = c)
    /\ (forall b, SearchFilters.isFavorite filters = Some b -> Note.isFavorite note = b)
    /\ (forall ts, SearchFilters.tags filters = Some ts -> ts <> [] ->
          exists tag noteTag, In tag ts /\ In noteTag (Note.tags note) /\
            IsSubstring (JS.toLowerCase tag) (JS.toLowerCase noteTag)).
Proof.
  rewrite filterNotes_keep_tests, failsQuery_spec, failsPriority_spec,
    failsCategory_spec, failsFavorite_spec, failsTags_spec. reflexivity.
Qed.

(** C1.  [filterNotes notes filters] keeps the notes in the order they have
    in [notes], and each note it keeps meets all the filter fields that are
    set: the text query is contained in the searchable text of the note, the
    priority, the category and the favorite flag are the ones asked for, and
    one of the requested tags, if any is requested, is contained in one of
    the tags of the note; case is ignored in the two text tests. *)
Theorem filterNotes_sound (notes : list Note.t) (filters : SearchFilters.t) :
  sublist (filterNotes notes filters) notes /\
  forall note, In note (filterNotes notes filters) ->
    (forall q, SearchFilters.query filters = Some q ->
       IsSubstring (JS.toLowerCase q) (searchableText note))
    /\ (forall p, SearchFilters.priority filters = Some p -> Note.priority note = p)
    /\ (forall c, SearchFilters.category filters = Some c -> Note.category note = c)
    /\ (forall b, SearchFilters.isFavorite filters = Some b -> Note.isFavorite note = b)
    /\ (forall ts, SearchFilters.tags filters = Some ts -> ts <> [] ->
          exists tag noteTag, In tag ts /\ In noteTag (Note.tags note) /\
            IsSubstring (JS.toLowerCase tag) (JS.toLowerCase noteTag)).
Proof.
  split.
  - apply filter_sublist.
  - intros note Hin. apply filter_In in Hin as [_ Hkeep].
    apply filterNotes_keep_spec in Hkeep as (Hq & Hrest).
    split; [|exact Hrest].
    intros q Hquery. destruct q as [|a q].
    + exists EmptyString, (searchableText note). reflexivity.
    + apply Hq; [exact Hquery | discriminate].
Qed.

Lemma filterNotes_sound_witness :
  sublist (filterNotes sampleNotes
             (SearchFilters.mk (Some "LOGIN") (Some high) None None (Some ["front"])))
          sampleNotes
  /\ IsSubstring "login" (searchableText bugNote)
  /\ Note.priority bugNote = high.
Proof.
  destruct (filterNotes_sound sampleNotes
              (SearchFilters.mk (Some "LOGIN") (Some high) None None (Some ["front"])))
    as [Hsub Hall].
  split; [exact Hsub|].
  destruct (Hall bugNote) as (Hq & Hp & _).
  - vm_compute. left. reflexivity.
  - split.
    + apply (Hq "LOGIN"). reflexivity.
    + apply Hp. reflexivity.
Defined.

Lemma filterNotes_keep_query filters note :
  filterNotes_keep filters note =
  negb (failsQuery filters note) && filterNotes_keep (withoutQuery filters) note.
Proof.
  unfold filterNotes_keep. destruct (failsQuery filters note); reflexivity.
Qed.

(** C2 fails as stated, twice.  A query of two spaces is empty after
    trimming and is a constraint all the same: two spaces in a row occur in
    no sample note.  And the parts of the searchable text are not put end to
    end but joined by spaces: [bc] is not empty after trimming and occurs in
    the title [ab] followed by the content [cd], and the note is not kept. *)
Lemma filterNotes_query_not_as_stated :
  (let filters := SearchFilters.mk (Some "  ") None None None None in
   JS.trim "  " = EmptyString
   /\ filterNotes sampleNotes filters = []
   /\ filterNotes sampleNotes (withoutQuery filters) = sampleNotes)
  /\ (let note := Note.mk "n" "ab" "cd" [] low task false 0 0 in
      let filters := SearchFilters.mk (Some "bc") None None None None in
      JS.trim "bc" <> EmptyString
      /\ IsSubstring (JS.toLowerCase "bc")
           (JS.toLowerCase
              (JS.join EmptyString
                 ([Note.title note; Note.content note] ++ Note.tags note ++
                  [categoryId (Note.category note); priorityId (Note.priority note)])))
      /\ filterNotes [note] filters = []
      /\ filterNotes [note] (withoutQuery filters) = [note]).
Proof.
  split; [repeat split|]. cbv zeta. split; [discriminate|]. split; [|split; reflexivity].
  exists "a", "dtasklow". reflexivity.
Qed.

(** C2, amended.  For a query that is not empty, whether or not white space
    is all it holds, [filterNotes] keeps a note exactly when the note meets
    the other filter fields and the query as it is given, in lower case, is
    a substring of the searchable text of the note: the title, the content,
    the tags, the category and the priority joined by single spaces, in
    lower case.  Without a query, or with the empty one, the result is that
    of the other filter fields alone. *)
Theorem filterNotes_query (notes : list Note.t) (filters : SearchFilters.t) :
  (forall q, SearchFilters.query filters = Some q -> q <> EmptyString ->
     forall note,
       In note (filterNotes notes filters) <->
       In note (filterNotes notes (withoutQuery filters)) /\
       IsSubstring (JS.toLowerCase q)
         (JS.toLowerCase
            (JS.join " "
               ([Note.title note; Note.content note] ++ Note.tags note ++
                [categoryId (Note.category note); priorityId (Note.priority note)]))))
  /\ (SearchFilters.query filters = None \/
      SearchFilters.query filters = Some EmptyString ->
      filterNotes notes filters = filterNotes notes (withoutQuery filters)).
Proof.
  split.
  - intros q Hq Hnonempty note. apply truthy_true in Hnonempty.
    unfold filterNotes. rewrite !filter_In, filterNotes_keep_query.
    unfold failsQuery. rewrite Hq, Hnonempty.
    rewrite andb_true_l, negb_involutive, andb_true_iff, includes_spec.
    fold (searchableText note). tauto.
  - intros Hq. unfold filterNotes. apply filter_ext. intros note.
    rewrite filterNotes_keep_query. unfold failsQuery.
    destruct Hq as [-> | ->]; reflexivity.
Qed.

Lemma filterNotes_query_witness :
  (In bugNote (filterNotes sampleNotes (SearchFilters.mk (Some " Login") None None None None)) <->
   In bugNote (filterNotes sampleNotes
                 (withoutQuery (SearchFilters.mk (Some " Login") None None None None))) /\
   IsSubstring " login" (searchableText bugNote))
  /\ filterNotes sampleNotes SearchFilters.none = filterNotes sampleNotes (withoutQuery SearchFilters.none).
Proof.
  split.
  - apply (proj1 (filterNotes_query sampleNotes
                    (SearchFilters.mk (Some " Login") None None None None)) " Login");
      [reflexivity | discriminate].
  - apply (proj2 (filterNotes_query sampleNotes SearchFilters.none)).
    right. reflexivity.
Defined.

(** ** [getNoteStats] *)

Lemma fold_countKey_lookup {A} (key : A -> string) (xs : list A)
    (acc : gmap string nat) (k : string) :
  fold_left (fun acc x => countKey acc (key x)) xs acc !! k =
  let c := length (List.filter (fun x => String.eqb (key x) k) xs) in
  if (c =? 0)%nat then acc !! k else Some (default 0 (acc !! k) + c)%nat.
Proof.
  revert acc. induction xs as [|x xs IH]; intros acc; [reflexivity|].
  cbn [fold_left List.filter]. rewrite IH. cbv zeta. unfold countKey.
  destruct (String.eqb (key x) k) eqn:E.
  - apply String.eqb_eq in E. subst k. rewrite lookup_insert_eq.
    cbn [length]. destruct (length _) as [|c]; simpl; f_equal; lia.
  - apply String.eqb_neq in E. rewrite lookup_insert_ne by exact E. reflexivity.
Qed.

Lemma priorityId_eqb p q :
  String.eqb (priorityId p) (priorityId q) = bool_decide (p = q).
Proof. destruct p, q; reflexivity. Qed.

Lemma priorityId_cases k :
  (exists p, k = priorityId p) \/ (forall p, String.eqb (priorityId p) k = false).
Proof.
  destruct (String.eqb (priorityId high) k) eqn:Eh;
    [left; exists high; symmetry; apply String.eqb_eq; exact Eh|].
  destruct (String.eqb (priorityId medium) k) eqn:Em;
    [left; exists medium; symmetry; apply String.eqb_eq; exact Em|].
  destruct (String.eqb (priorityId low) k) eqn:El;
    [left; exists low; symmetry; apply String.eqb_eq; exact El|].
  right. intros []; assumption.
Qed.

(** C3 fails as stated: the counts of a collection without notes have none
    of the three priorities as a key. *)
Lemma getNoteStats_priorities_not_total :
  ~ (forall p : Priority,
       NoteStats.priorities (getNoteStats utcZone sampleInstant []) !! priorityId p
       = Some 0%nat).
Proof. intros H. specialize (H high). vm_compute in H. discriminate. Qed.

(** C3, amended.  The per-priority counts hold a priority as a key exactly
    when a note has it, with the number of those notes; a priority of no
    note is not a key, and nothing but a priority is. *)
Theorem getNoteStats_priorities (zone : TimeZone) (now : Z) (notes : list Note.t) :
  (forall p : Priority,
     NoteStats.priorities (getNoteStats zone now notes) !! priorityId p =
     if (priorityCount p notes =? 0)%nat then None else Some (priorityCount p notes))
  /\ (forall k : string,
        is_Some (NoteStats.priorities (getNoteStats zone now notes) !! k) ->
        exists p, k = priorityId p /\ In p (map Note.priority notes)).
Proof.
  unfold getNoteStats. cbn [NoteStats.priorities]. split.
  - intros p. rewrite fold_countKey_lookup. cbn zeta.
    rewrite lookup_empty. cbn [default]. unfold priorityCount.
    rewrite (filter_ext _ (fun note => bool_decide (Note.priority note = p)))
      by (intros note; apply priorityId_eqb).
    reflexivity.
  - intros k. rewrite fold_countKey_lookup. cbn zeta. rewrite lookup_empty.
    destruct (length _ =? 0)%nat eqn:E; [intros [x Hx]; discriminate|]. intros _.
    apply Nat.eqb_neq in E.
    destruct (List.filter _ notes) as [|note rest] eqn:F; [contradiction E; reflexivity|].
    assert (In note (List.filter (fun x => String.eqb (priorityId (Note.priority x)) k) notes))
      as Hin by (rewrite F; left; reflexivity).
    apply filter_In in Hin as [Hin Hk]. apply String.eqb_eq in Hk.
    exists (Note.priority note). split; [symmetry; exact Hk | apply in_map; exact Hin].
Qed.

Lemma getNoteStats_priorities_witness :
  NoteStats.priorities (getNoteStats utcZone sampleInstant sampleNotes) !! "high" = Some 2%nat
  /\ NoteStats.priorities (getNoteStats utcZone sampleInstant sampleNotes) !! "low" = None
  /\ exists p, "medium" = priorityId p /\ In p (map Note.priority sampleNotes).
Proof.
  destruct (getNoteStats_priorities utcZone sampleInstant sampleNotes) as [Hcount Hkeys].
  split; [exact (Hcount high)|]. split; [exact (Hcount low)|].
  apply Hkeys. exists 1%nat. vm_compute. reflexivity.
Defined.

(** C4 fails as stated: a note made exactly seven days before [now] lies in
    the week that has both its ends, and is not counted. *)
Lemma recentNotes_excludes_week_ago :
  let now := sampleInstant in
  let note := Note.mk "n" "t" "c" [] medium task false (now - 7 * msPerDay) now in
  NoteStats.recentNotes (getNoteStats utcZone now [note])
  <> length (List.filter (inTrailingWeek now) [note]).
Proof. vm_compute. discriminate. Qed.

(** C4, amended.  Where local time has the same offset from UTC now and
    seven days ago, [recentNotes] is the number of notes made later than
    seven days before [now]: the instant [now] minus seven days itself does
    not count, and there is no test against [now], so that among notes none
    of which is dated after [now] it is the number of those in the trailing
    week without its first instant.  Of three notes, one made within the
    last day, one the day before and one in the day that ended ten days ago,
    two are recent. *)
Theorem getNoteStats_recentNotes (zone : TimeZone) (now : Z) :
  weekAgo zone now = (now - 7 * msPerDay)%Z ->
  (forall notes,
     NoteStats.recentNotes (getNoteStats zone now notes) =
     length (List.filter (fun note => (now - 7 * msPerDay <? Note.createdAt note)%Z) notes))
  /\ (forall notes,
        Forall (fun note => (Note.createdAt note <= now)%Z) notes ->
        NoteStats.recentNotes (getNoteStats zone now notes) =
        length (List.filter (afterWeekAgo now) notes))
  /\ (forall today yesterday tenDaysAgo,
        (now - msPerDay < Note.createdAt today <= now)%Z ->
        (now - 2 * msPerDay < Note.createdAt yesterday <= now - msPerDay)%Z ->
        (now - 11 * msPerDay < Note.createdAt tenDaysAgo <= now - 10 * msPerDay)%Z ->
        NoteStats.recentNotes (getNoteStats zone now [today; yesterday; tenDaysAgo]) = 2%nat).
Proof.
  intros Hzone.
  assert (forall notes,
     NoteStats.recentNotes (getNoteStats zone now notes) =
     length (List.filter (fun note => (now - 7 * msPerDay <? Note.createdAt note)%Z) notes))
    as Hcount.
  { intros notes. unfold getNoteStats. cbn [NoteStats.recentNotes].
    rewrite Hzone. reflexivity. }
  split; [exact Hcount|]. split.
  - intros notes Hall. rewrite Hcount. f_equal.
    apply filter_ext_in. intros note Hin.
    rewrite List.Forall_forall in Hall. specialize (Hall note Hin).
    unfold afterWeekAgo. apply Z.leb_le in Hall.
    rewrite Hall, andb_true_r. reflexivity.
  - intros today yesterday tenDaysAgo H1 H2 H3.
    rewrite Hcount. cbn [List.filter]. unfold msPerDay in *.
    destruct (Z.ltb_spec (now - 7 * 86400000) (Note.createdAt today)); [|lia].
    destruct (Z.ltb_spec (now - 7 * 86400000) (Note.createdAt yesterday)); [|lia].
    destruct (Z.ltb_spec (now - 7 * 86400000) (Note.createdAt tenDaysAgo)); [lia|].
    reflexivity.
Qed.

Lemma getNoteStats_recentNotes_witness :
  NoteStats.recentNotes (getNoteStats utcZone sampleInstant sampleNotes) = 3%nat
  /\ NoteStats.recentNotes
       (getNoteStats utcZone sampleInstant
          [ Note.mk "a" "today" "c" [] medium task false sampleInstant sampleInstant;
            Note.mk "b" "yesterday" "c" [] medium task false
              (sampleInstant - msPerDay) sampleInstant;
            Note.mk "c" "ten days ago" "c" [] medium task false
              (sampleInstant - 10 * msPerDay) sampleInstant ]) = 2%nat.
Proof.
  destruct (getNoteStats_recentNotes utcZone sampleInstant) as (_ & Hweek & Hthree).
  - reflexivity.
  - split.
    + rewrite (Hweek sampleNotes); [reflexivity|].
      repeat constructor; vm_compute; discriminate.
    + apply Hthree; vm_compute; split; (reflexivity || discriminate).
Defined.

(** ** [validateNote] *)

(** On a candidate of the declared type, [validateNote] returns, in this
    order, one message for each rule the candidate breaks: the title and the
    content must be there and not be empty after trimming, the priority and
    the category must be there.  It returns no message exactly when no rule
    is broken. *)
Lemma validateNote_messages :
  (forall candidate,
     validateNote candidate =
       messageIf (missingText (PartialNote.title candidate)) "Title is required"
       ++ messageIf (missingText (PartialNote.content candidate)) "Content is required"
       ++ messageIf (missingChoice (PartialNote.priority candidate)) "Priority is required"
       ++ messageIf (missingChoice (PartialNote.category candidate)) "Category is required")
  /\ (forall candidate,
        validateNote candidate = [] <->
        missingText (PartialNote.title candidate) = false
        /\ missingText (PartialNote.content candidate) = false
        /\ (exists p, PartialNote.priority candidate = Some p)
        /\ (exists c, PartialNote.category candidate = Some c))
  /\ validateNote
       (PartialNote.mk None (Some EmptyString) (Some "x") None (Some high) (Some bug)
          None None None)
     = ["Title is required"].
Proof.
  assert (forall field, negb (JS.truthy_opt (option_map JS.trim field)) = missingText field)
    as Htext.
  { intros [s|]; [|reflexivity]. simpl. destruct (JS.trim s); reflexivity. }
  assert (forall field, negb (JS.truthy_opt (option_map priorityId field)) = missingChoice field)
    as Hpriority by (intros [[]|]; reflexivity).
  assert (forall field, negb (JS.truthy_opt (option_map categoryId field)) = missingChoice field)
    as Hcategory by (intros [[]|]; reflexivity).
  assert (forall candidate,
     validateNote candidate =
       messageIf (missingText (PartialNote.title candidate)) "Title is required"
       ++ messageIf (missingText (PartialNote.content candidate)) "Content is required"
       ++ messageIf (missingChoice (PartialNote.priority candidate)) "Priority is required"
       ++ messageIf (missingChoice (PartialNote.category candidate)) "Category is required")
    as Hall.
  { intros candidate. unfold validateNote. rewrite !Htext, Hpriority, Hcategory.
    destruct (missingText (PartialNote.title candidate)),
             (missingText (PartialNote.content candidate)),
             (missingChoice (PartialNote.priority candidate)),
             (missingChoice (PartialNote.category candidate)); reflexivity. }
  split; [exact Hall|]. split; [|reflexivity].
  intros candidate. rewrite Hall.
  destruct (missingText (PartialNote.title candidate)),
           (missingText (PartialNote.content candidate)),
           (PartialNote.priority candidate) as [p|],
           (PartialNote.category candidate) as [c|]; simpl; split;
    try discriminate; try (intros (? & ? & [? ?] & [? ?]); discriminate).
  - repeat split; eauto.
  - intros _. reflexivity.
Qed.

Lemma validateNote_messages_witness :
  validateNote (noteToValidate (NoteFormData.mk "Fix login" "  " "bug, urgent" high bug false))
  = ["Content is required"]
  /\ validateNote (noteToValidate (NoteFormData.mk "Fix login" "Steps" "" high bug false)) = [].
Proof.
  destruct validateNote_messages as (Hall & Hnone & _). split.
  - rewrite Hall. reflexivity.
  - apply Hnone. repeat split; [exists high | exists bug]; reflexivity.
Defined.

(** *** The values of run time *)

(** On a candidate of the declared type the two embeddings agree. *)
Lemma validateNote_typed candidate :
  RunTime.validateNote (partialObject candidate) = Ok (validateNote candidate).
Proof.
  destruct candidate as [[id|] [title|] [content|] [tags|] [p|] [c|] [fav|] [created|]
                           [updated|]];
    reflexivity.
Qed.

(** C5 fails as stated: a priority and a category that are no enumeration
    values break no rule of [validateNote]. *)
Lemma validateNote_accepts_unrecognized :
  RunTime.validateNote
    [ ("title", VStr "Fix login"); ("content", VStr "x");
      ("priority", VStr "urgent"); ("category", VStr "misc") ] = Ok []
  /\ (forall p, priorityId p <> "urgent")
  /\ (forall c, categoryId c <> "misc").
Proof.
  split; [reflexivity|]. split; [intros [] | intros []]; discriminate.
Qed.

(** C5, amended.  For a candidate whose title and content are texts or are
    not there, [validateNote] returns, in this order, one message for each
    rule the candidate breaks: the title and the content must be there and
    not be empty after trimming, the priority and the category must be
    there with a value that is not falsy; whether that value is one of the
    enumeration values is not looked at.  It returns no message exactly when
    no rule is broken, and throws when the title or the content is a value
    of another kind.  On a candidate of the declared type a priority or
    category that is there is an enumeration value, and the messages are
    those of the missing fields.  For the candidate with the empty title,
    the content [x], the priority [high] and the category [bug] it returns
    the message about the title and no other. *)
Theorem validateNote_rules :
  (forall note,
     textOrAbsent (RunTime.get note "title") = true ->
     textOrAbsent (RunTime.get note "content") = true ->
     RunTime.validateNote note =
       Ok (messageIf (missingTextValue (RunTime.get note "title")) "Title is required"
           ++ messageIf (missingTextValue (RunTime.get note "content")) "Content is required"
           ++ messageIf (negb (RunTime.truthy (RunTime.get note "priority")))
                "Priority is required"
           ++ messageIf (negb (RunTime.truthy (RunTime.get note "category")))
                "Category is required"))
  /\ (forall note,
        RunTime.validateNote note = Ok [] <->
        (exists title, RunTime.get note "title" = VStr title /\ JS.trim title <> EmptyString)
        /\ (exists content,
              RunTime.get note "content" = VStr content /\ JS.trim content <> EmptyString)
        /\ RunTime.truthy (RunTime.get note "priority") = true
        /\ RunTime.truthy (RunTime.get note "category") = true)
  /\ (forall note,
        textOrAbsent (RunTime.get note "title") = false
        \/ textOrAbsent (RunTime.get note "content") = false ->
        exists e, RunTime.validateNote note = Throw e)
  /\ (forall candidate : PartialNote.t,
        RunTime.validateNote (partialObject candidate) =
          Ok (messageIf (missingText (PartialNote.title candidate)) "Title is required"
              ++ messageIf (missingText (PartialNote.content candidate))
                   "Content is required"
              ++ messageIf (missingChoice (PartialNote.priority candidate))
                   "Priority is required"
              ++ messageIf (missingChoice (PartialNote.category candidate))
                   "Category is required"))
  /\ RunTime.validateNote
       [ ("title", VStr EmptyString); ("content", VStr "x");
         ("priority", VStr "high"); ("category", VStr "bug") ]
     = Ok ["Title is required"].
Proof.
  assert (forall s, negb (JS.truthy (JS.trim s)) = String.eqb (JS.trim s) EmptyString)
    as Hblank by (intros s; destruct (JS.trim s); reflexivity).
  split; [|split; [|split; [|split; [|reflexivity]]]].
  - intros note Htitle Hcontent. unfold RunTime.validateNote.
    destruct (RunTime.get note "title") as [| | | |title| | |]; try discriminate Htitle;
      destruct (RunTime.get note "content") as [| | | |content| | |];
      try discriminate Hcontent;
      cbn [RunTime.blankText missingTextValue]; rewrite ?Hblank;
      repeat match goal with
             | |- context [String.eqb (JS.trim ?s) EmptyString] =>
                 destruct (String.eqb (JS.trim s) EmptyString)
             end;
      destruct (RunTime.truthy (RunTime.get note "priority")),
               (RunTime.truthy (RunTime.get note "category")); reflexivity.
  - intros note. unfold RunTime.validateNote.
    destruct (RunTime.get note "title") as [| | | |title| | |];
      destruct (RunTime.get note "content") as [| | | |content| | |];
      cbn [RunTime.blankText]; rewrite ?Hblank;
      repeat match goal with
             | |- context [String.eqb (JS.trim ?s) EmptyString] =>
                 destruct (String.eqb_spec (JS.trim s) EmptyString)
             end;
      destruct (RunTime.truthy (RunTime.get note "priority")),
               (RunTime.truthy (RunTime.get note "category"));
      cbn; (split; [intros H; try discriminate H
                   | intros ((t & Ht & Ht') & (c & Hc & Hc') & Hp & Hq);
                     try discriminate; try congruence]).
    repeat split; eauto.
  - intros note Hkind. unfold RunTime.validateNote.
    destruct (RunTime.get note "title") as [| | | |title| | |];
      destruct (RunTime.get note "content") as [| | | |content| | |];
      cbn [RunTime.blankText textOrAbsent] in *; eauto;
      destruct Hkind; discriminate.
  - intros candidate. rewrite validateNote_typed. f_equal.
    apply (proj1 validateNote_messages).
Qed.

Lemma validateNote_rules_witness :
  RunTime.validateNote
    [ ("title", VStr "Fix login"); ("content", VStr "  "); ("priority", VStr "urgent") ]
  = Ok ["Content is required"; "Category is required"]
  /\ exists e,
       RunTime.validateNote [ ("title", VNum 5); ("content", VStr "x") ] = Throw e.
Proof.
  destruct validateNote_rules as (Hall & _ & Hthrows & _). split.
  - rewrite Hall; reflexivity.
  - apply Hthrows. left. reflexivity.
Defined.

(** ** [sortNotes] *)

Section Sort.

Context {A : Type} (cmp : A -> A -> Z).

Lemma sort_insert_Permutation x xs : JS.sort_insert cmp x xs ≡ₚ x :: xs.
Proof.
  induction xs as [|y xs IH]; simpl; [reflexivity|].
  destruct (cmp x y <=? 0)%Z; [reflexivity|].
  rewrite IH. apply perm_swap.
Qed.

Lemma sort_Permutation xs : JS.sort cmp xs ≡ₚ xs.
Proof.
  induction xs as [|x xs IH]; simpl; [reflexivity|].
  rewrite sort_insert_Permutation, IH. reflexivity.
Qed.

(** An element that the comparator puts after all the others goes to the
    end. *)
Lemma sort_insert_last x xs :
  Forall (fun y => (0 < cmp x y)%Z) xs -> JS.sort_insert cmp x xs = xs ++ [x].
Proof.
  induction 1 as [|y xs Hy _ IH]; simpl; [reflexivity|].
  destruct (Z.leb_spec (cmp x y) 0); [lia|]. rewrite IH. reflexivity.
Qed.

(** A list in which the comparator puts each element after all the later
    ones comes out reversed. *)
Lemma sort_reverses xs :
  StronglySorted (fun a b => (0 < cmp a b)%Z) xs -> JS.sort cmp xs = rev xs.
Proof.
  induction 1 as [|x xs _ IH Hx]; simpl; [reflexivity|].
  rewrite IH. apply sort_insert_last.
  apply Forall_forall. intros y Hy.
  apply list_elem_of_In, in_rev, list_elem_of_In in Hy.
  revert y Hy. apply Forall_forall. exact Hx.
Qed.

(** The order of the comparator, when it is one: total and transitive. *)
Hypothesis cmp_total : forall a b, (cmp a b <= 0)%Z \/ (cmp b a <= 0)%Z.
Hypothesis cmp_trans :
  forall a b c, (cmp a b <= 0)%Z -> (cmp b c <= 0)%Z -> (cmp a c <= 0)%Z.

Lemma sort_insert_StronglySorted x xs :
  StronglySorted (fun a b => (cmp a b <= 0)%Z) xs ->
  StronglySorted (fun a b => (cmp a b <= 0)%Z) (JS.sort_insert cmp x xs).
Proof.
  induction 1 as [|y xs Hsorted IH Hy]; simpl.
  - repeat constructor.
  - destruct (Z.leb_spec (cmp x y) 0) as [Hxy|Hxy].
    + constructor; [constructor; assumption|].
      constructor; [exact Hxy|].
      eapply Forall_impl; [exact Hy|]. intros z Hz. eapply cmp_trans; eassumption.
    + constructor; [exact IH|].
      apply Forall_forall. intros z Hz.
      rewrite sort_insert_Permutation in Hz. apply elem_of_cons in Hz as [-> | Hz].
      * destruct (cmp_total x y); [lia | assumption].
      * revert z Hz. apply Forall_forall. exact Hy.
Qed.

Lemma sort_StronglySorted xs :
  StronglySorted (fun a b => (cmp a b <= 0)%Z) (JS.sort cmp xs).
Proof.
  induction xs as [|x xs IH]; simpl; [constructor|].
  apply sort_insert_StronglySorted. exact IH.
Qed.

End Sort.

Lemma StronglySorted_weaken {A} (R S : A -> A -> Prop) (xs : list A) :
  (forall a b, R a b -> S a b) -> StronglySorted R xs -> StronglySorted S xs.
Proof.
  intros HRS. induction 1 as [|x xs _ IH Hx]; constructor; [exact IH|].
  eapply Forall_impl; [exact Hx|]. intros y. apply HRS.
Qed.

(** With distinct keys, a list in descending order is in strictly
    descending order. *)
Lemma StronglySorted_strict {A} (key : A -> Z) (xs : list A) :
  StronglySorted (fun a b => (key b <= key a)%Z) xs ->
  List.NoDup (map key xs) ->
  StronglySorted (fun a b => (key b < key a)%Z) xs.
Proof.
  induction 1 as [|x xs _ IH Hx]; intros Hnodup; [constructor|].
  cbn [map] in Hnodup. apply NoDup_cons_iff in Hnodup as [Hnotin Hnodup].
  constructor; [apply IH; exact Hnodup|].
  apply List.Forall_forall. intros y Hy.
  assert (key y <= key x)%Z as Hle by (revert y Hy; apply List.Forall_forall; exact Hx).
  assert (key y <> key x) as Hne.
  { intros Heq. apply Hnotin. rewrite <- Heq. apply in_map. exact Hy. }
  lia.
Qed.

(** C7.  [newest] orders a collection by [createdAt] from the latest to the
    earliest and [oldest] from the earliest to the latest, each keeping all
    the notes; when no two notes have the same [createdAt], sorting the
    result of [newest] by [oldest] gives that result reversed. *)
Theorem sortNotes_newest_then_oldest
    (localeCompare : string -> string -> Z) (notes : list Note.t) :
  (StronglySorted (fun a b => (Note.createdAt b <= Note.createdAt a)%Z)
     (sortNotes localeCompare notes newest)
   /\ sortNotes localeCompare notes newest ≡ₚ notes)
  /\ (StronglySorted (fun a b => (Note.createdAt a <= Note.createdAt b)%Z)
        (sortNotes localeCompare notes oldest)
      /\ sortNotes localeCompare notes oldest ≡ₚ notes)
  /\ (List.NoDup (map Note.createdAt notes) ->
      sortNotes localeCompare (sortNotes localeCompare notes newest) oldest
      = rev (sortNotes localeCompare notes newest)).
Proof.
  assert (StronglySorted (fun a b => (Note.createdAt b <= Note.createdAt a)%Z)
            (sortNotes localeCompare notes newest)) as Hnewest.
  { unfold sortNotes.
    eapply StronglySorted_weaken;
      [| apply (sort_StronglySorted (fun a b => Note.createdAt b - Note.createdAt a)%Z)].
    - intros a b Hab. cbv beta in Hab. lia.
    - intros a b. lia.
    - intros a b c. lia. }
  split; [split; [exact Hnewest | apply sort_Permutation]|].
  split; [split; [| apply sort_Permutation]|].
  - unfold sortNotes.
    eapply StronglySorted_weaken;
      [| apply (sort_StronglySorted (fun a b => Note.createdAt a - Note.createdAt b)%Z)].
    + intros a b Hab. cbv beta in Hab. lia.
    + intros a b. lia.
    + intros a b c. lia.
  - intros Hnodup.
    assert (List.NoDup (map Note.createdAt (sortNotes localeCompare notes newest)))
      as Hnodup'.
    { eapply Permutation_NoDup; [|exact Hnodup].
      apply Permutation_map. symmetry. apply sort_Permutation. }
    pose proof (StronglySorted_strict Note.createdAt _ Hnewest Hnodup') as Hstrict.
    unfold sortNotes at 1. apply sort_reverses.
    eapply StronglySorted_weaken; [|exact Hstrict].
    intros a b Hab. cbv beta in Hab. lia.
Qed.

Lemma sortNotes_newest_then_oldest_witness :
  let later :=
    Note.mk "l" "later" "c" [] low task false (sampleInstant + msPerDay) sampleInstant in
  let notes := [bugNote; later] in
  sortNotes defaultCompare (sortNotes defaultCompare notes newest) oldest = [bugNote; later]
  /\ sortNotes defaultCompare notes newest = [later; bugNote].
Proof.
  intros later notes. split; [|reflexivity].
  rewrite (proj2 (proj2 (sortNotes_newest_then_oldest defaultCompare notes))).
  - reflexivity.
  - repeat constructor; cbn; [|tauto].
    intros [H|[]]. vm_compute in H. discriminate.
Defined.

(** ** The lifecycle of a note *)

Lemma generateNoteId_nonempty stamp suffix : generateNoteId stamp suffix <> EmptyString.
Proof. unfold generateNoteId. rewrite app_String. discriminate. Qed.

Lemma handleSave_saved note formData now newId saved :
  handleSave note formData now newId = inr saved ->
  Note.updatedAt saved = now
  /\ Note.createdAt saved = match note with Some n => Note.createdAt n | None => now end
  /\ Note.id saved = match note with
                     | Some n => if JS.truthy (Note.id n) then Note.id n else newId
                     | None => newId
                     end.
Proof.
  unfold handleSave. destruct (0 <? length _)%nat; [discriminate|].
  intros H. injection H as <-. repeat split.
Qed.

Lemma Produced_invariant now note :
  Produced now note ->
  (Note.createdAt note <= Note.updatedAt note <= now)%Z /\ Note.id note <> EmptyString.
Proof.
  induction 1 as [now stamp suffix
                 | now stamp suffix title content tags priority category isFavorite
                 | now stamp suffix formData saved Hsave
                 | t note now stamp suffix formData saved _ [IHt IHid] Hle Hsave
                 | t note now _ [IHt IHid] Hle].
  - cbn. split; [lia | apply generateNoteId_nonempty].
  - cbn. split; [lia | apply generateNoteId_nonempty].
  - apply handleSave_saved in Hsave as (-> & -> & ->).
    split; [lia | apply generateNoteId_nonempty].
  - apply handleSave_saved in Hsave as (-> & -> & ->).
    split; [lia|]. apply truthy_true in IHid. rewrite IHid.
    apply truthy_true. exact IHid.
  - cbn. split; [lia | exact IHid].
Qed.

Lemma handleToggleFavorite_toggled notes id now toggled :
  handleToggleFavorite notes id now = Some toggled ->
  exists note, In note notes /\ Note.id note = id /\ toggled = toggledNote note now.
Proof.
  unfold handleToggleFavorite.
  destruct (List.find _ notes) as [note|] eqn:Hfind; [|discriminate].
  intros [= <-]. apply find_some in Hfind as [Hin Hid].
  apply String.eqb_eq in Hid. exists note. repeat split; assumption.
Qed.

(** C8.  A note made with the defaults has both timestamps at the instant
    of its making.  Saving an edit of a produced note and toggling the
    favorite flag of a note keep [id] and [createdAt] and set [updatedAt] to
    the instant of the operation.  So, with a clock that does not run
    backwards, every note the lifecycle operations produce has
    [createdAt <= updatedAt]. *)
Theorem lifecycle_timestamps :
  (forall now newId,
     Note.createdAt (createNewNote now newId PartialNote.empty) = now
     /\ Note.updatedAt (createNewNote now newId PartialNote.empty) = now)
  /\ (forall t note, Produced t note ->
      forall formData now newId saved,
        handleSave (Some note) formData now newId = inr saved ->
        Note.id saved = Note.id note
        /\ Note.createdAt saved = Note.createdAt note
        /\ Note.updatedAt saved = now)
  /\ (forall notes id now toggled,
        handleToggleFavorite notes id now = Some toggled ->
        exists note,
          In note notes
          /\ Note.id toggled = Note.id note
          /\ Note.createdAt toggled = Note.createdAt note
          /\ Note.updatedAt toggled = now
          /\ Note.isFavorite toggled = negb (Note.isFavorite note))
  /\ (forall now note, Produced now note ->
        (Note.createdAt note <= Note.updatedAt note)%Z).
Proof.
  split; [intros now newId; split; reflexivity|]. split; [|split].
  - intros t note Hnote formData now newId saved Hsave.
    apply handleSave_saved in Hsave as (-> & -> & ->).
    apply Produced_invariant in Hnote as [_ Hid].
    apply truthy_true in Hid. rewrite Hid. repeat split.
  - intros notes id now toggled Htoggle.
    apply handleToggleFavorite_toggled in Htoggle as (note & Hin & _ & ->).
    exists note. repeat split. exact Hin.
  - intros now note Hnote. apply Produced_invariant in Hnote as [[Hle _] _]. exact Hle.
Qed.

Lemma lifecycle_timestamps_witness :
  let created := createNewNote sampleInstant (generateNoteId sampleInstant "k3j9x0q1a")
                   PartialNote.empty in
  let formData := NoteFormData.mk " Login bug " "Empty passwords pass." "Bug, Urgent  frontend"
                    high bug false in
  let edited := Note.mk (Note.id created) "Login bug" "Empty passwords pass."
                  ["bug"; "urgent"; "frontend"] high bug false
                  sampleInstant (sampleInstant + 60000) in
  handleSave (Some created) formData (sampleInstant + 60000) "unused" = inr edited
  /\ Note.id edited = Note.id created
  /\ (Note.createdAt (toggledNote edited (sampleInstant + 90000))
      <= Note.updatedAt (toggledNote edited (sampleInstant + 90000)))%Z.
Proof.
  intros created formData edited.
  assert (Produced sampleInstant created) as Hcreated by apply produced_default.
  assert (handleSave (Some created) formData (sampleInstant + 60000) "unused" = inr edited)
    as Hsave by reflexivity.
  destruct lifecycle_timestamps as (_ & Hedit & _ & Hle).
  split; [exact Hsave|]. split.
  - exact (proj1 (Hedit sampleInstant created Hcreated formData _ _ edited Hsave)).
  - apply (Hle (sampleInstant + 90000)%Z).
    apply (produced_toggle (sampleInstant + 60000)); [|vm_compute; discriminate].
    apply (produced_form_edit sampleInstant created _ sampleInstant "p0z8w7v2b" formData);
      [exact Hcreated | vm_compute; discriminate | reflexivity].
Defined.

(** ** Dates as text *)

Section Calendar.

#[local] Open Scope Z_scope.

(** Within an era of 400 years: the year of the era and the day of that
  year, then the month (counted from March) and the day of the month. *)
Lemma doe_facts doe :
0 <= doe < 146097 ->
let yoe := (doe - doe / 1460 + doe / 36524 - doe / 146096) / 365 in
let doy := doe - (365 * yoe + yoe / 4 - yoe / 100) in
0 <= yoe <= 399 /\ 0 <= doy <= 365.
Proof.
intros H yoe doy. subst doy yoe.
Z.to_euclidean_division_equations; lia.
Qed.

Lemma month_facts doy :
0 <= doy <= 365 ->
let mp := (5 * doy + 2) / 153 in
let d := doy - (153 * mp + 2) / 5 + 1 in
0 <= mp <= 11 /\ 1 <= d <= 31.
Proof.
intros H mp d. subst d mp.
Z.to_euclidean_division_equations; lia.
Qed.

Lemma civil_roundtrip day y m d :
civilFromDays day = (y, m, d) ->
daysFromCivil y m d = day /\ 1 <= m <= 12 /\ 1 <= d <= 31
/\ (day + 719468) / 146097 * 400 <= y <= (day + 719468) / 146097 * 400 + 400.
Proof.
unfold civilFromDays. 
set (z := day + 719468).
set (era := z / 146097).
set (doe := z - era * 146097).
assert (0 <= doe < 146097) as Hdoe.
{ subst doe era. Z.to_euclidean_division_equations; lia. }
destruct (doe_facts doe Hdoe) as [Hyoe Hdoy].
set (yoe := (doe - doe / 1460 + doe / 36524 - doe / 146096) / 365) in *.
set (doy := doe - (365 * yoe + yoe / 4 - yoe / 100)) in *.
destruct (month_facts doy Hdoy) as [Hmp Hd].
set (mp := (5 * doy + 2) / 153) in *.
set (dd := doy - (153 * mp + 2) / 5 + 1) in *.
intros H. injection H as <- <- <-.
unfold daysFromCivil.
assert (era * 146097 + doe = z) as Hz by (subst doe; lia).
clearbody era doe yoe mp. 
destruct (Z.ltb_spec mp 10).
- destruct (Z.leb_spec (mp + 3) 2); [lia|].
  destruct (Z.ltb_spec 2 (mp + 3)); [|lia].
  replace (mp + 3 - 3) with mp by lia.
  replace (yoe + era * 400 + 0 - 0) with (era * 400 + yoe) by lia.
  rewrite Z.div_add_l by lia. rewrite (Z.div_small yoe 400) by lia.
  replace (era * 400 + yoe - (era + 0) * 400) with yoe by lia.
  subst dd doy z. repeat split; try lia.
- destruct (Z.leb_spec (mp - 9) 2); [|lia].
  destruct (Z.ltb_spec 2 (mp - 9)); [lia|].
  replace (mp - 9 + 9) with mp by lia.
  replace (yoe + era * 400 + 1 - 1) with (era * 400 + yoe) by lia.
  rewrite Z.div_add_l by lia. rewrite (Z.div_small yoe 400) by lia.
  replace (era * 400 + yoe - (era + 0) * 400) with yoe by lia.
  subst dd doy z. repeat split; try lia.
Qed.

End Calendar.

(** Runs through the ten values of a decimal digit [d]. *)
Ltac each_digit d H :=
  let Hcases := fresh "Hcases" in
  assert (d = 0 \/ d = 1 \/ d = 2 \/ d = 3 \/ d = 4 \/ d = 5 \/ d = 6 \/ d = 7
          \/ d = 8 \/ d = 9)%Z as Hcases by lia;
  clear H;
  repeat (destruct Hcases as [Hcases | Hcases]; [subst d|]); [..|subst d].

Lemma digitValue_digitChar d :
  (0 <= d < 10)%Z -> digitValue (digitChar d) = Some d.
Proof. intros H. each_digit d H; reflexivity. Qed.

Lemma readDigits_app w1 w2 acc s :
  readDigits (w1 + w2) acc s =
  match readDigits w1 acc s with
  | Some (acc', s') => readDigits w2 acc' s'
  | None => None
  end.
Proof.
  revert acc s. induction w1 as [|w1 IH]; intros acc s; [reflexivity|].
  cbn [Nat.add readDigits]. destruct s as [|c s]; [reflexivity|].
  destruct (digitValue c); [apply IH | reflexivity].
Qed.

Lemma readDigits_padDigits w n tail acc :
  (0 <= n < 10 ^ Z.of_nat w)%Z ->
  readDigits w acc (padDigits w n tail) = Some ((acc * 10 ^ Z.of_nat w + n)%Z, tail).
Proof.
  revert n tail. induction w as [|w IH]; intros n tail Hn.
  - cbn. f_equal. f_equal. cbn in Hn. lia.
  - rewrite Nat2Z.inj_succ, Z.pow_succ_r in * by lia.
    replace (S w) with (w + 1)%nat at 1 by lia.
    rewrite readDigits_app. cbn [padDigits]. rewrite IH.
    + cbn [readDigits]. rewrite digitValue_digitChar.
      * f_equal. f_equal. Z.to_euclidean_division_equations; lia.
      * Z.to_euclidean_division_equations; lia.
    + Z.to_euclidean_division_equations; nia.
Qed.

Lemma readDigits_padDigits_0 w n tail :
  (0 <= n < 10 ^ Z.of_nat w)%Z ->
  readDigits w 0 (padDigits w n tail) = Some (n, tail).
Proof. intros H. rewrite readDigits_padDigits by exact H. reflexivity. Qed.

Lemma readYear_digit d s :
  (0 <= d < 10)%Z ->
  readYear (String (digitChar d) s) = readDigits 4 0 (String (digitChar d) s).
Proof. intros H. each_digit d H; reflexivity. Qed.

Lemma readYear_yearText y tail :
  (-1000000 < y < 1000000)%Z ->
  readYear (yearText y tail) = Some (y, tail).
Proof.
  intros Hy. unfold yearText.
  destruct (Z.leb_spec 0 y) as [H0|H0]; cbn [andb].
  - destruct (Z.leb_spec y 9999) as [H1|H1].
    + change (padDigits 4 y tail)
        with (String (digitChar (y / 10 / 10 / 10 mod 10)) (padDigits 3 y tail)).
      rewrite readYear_digit by (apply Z.mod_pos_bound; lia).
      change (String (digitChar (y / 10 / 10 / 10 mod 10)) (padDigits 3 y tail))
        with (padDigits 4 y tail).
      rewrite readDigits_padDigits_0 by (change (10 ^ Z.of_nat 4)%Z with 10000%Z; lia).
      reflexivity.
    + destruct (Z.ltb_spec y 0); [lia|].
      cbn [readYear].
      rewrite readDigits_padDigits_0 by (change (10 ^ Z.of_nat 6)%Z with 1000000%Z; lia).
      reflexivity.
  - destruct (Z.ltb_spec y 0); [|lia].
    cbn [readYear].
    rewrite readDigits_padDigits_0 by (change (10 ^ Z.of_nat 6)%Z with 1000000%Z; lia).
    destruct (Z.eqb_spec (- y) 0); [lia|].
    rewrite Z.opp_involutive. reflexivity.
Qed.

Lemma expect_String c s : expect c (String c s) = Some s.
Proof. cbn [expect]. rewrite Ascii.eqb_refl. reflexivity. Qed.

Lemma option_bind_Some {A B} (f : A -> option B) (x : A) : Some x ≫= f = f x.
Proof. reflexivity. Qed.

Lemma timeClip_valid t : validTime t -> timeClip t = Some t.
Proof.
  unfold validTime, timeClip. intros H.
  destruct (Z.leb_spec (Z.abs t) maxTime); [reflexivity | lia].
Qed.

Lemma parseISO_toISOString t : validTime t -> parseISO (toISOString t) = Some t.
Proof.
  intros Ht. unfold toISOString.
  destruct (civilFromDays (t / msPerDay)) as [[y m] d] eqn:Hcivil.
  pose proof (civil_roundtrip _ _ _ _ Hcivil) as (Hdays & Hm & Hd & Hy).
  assert (-1000000 < y < 1000000)%Z as Hyear.
  { unfold validTime, maxTime, msPerDay in *.
    Z.to_euclidean_division_equations; lia. }
  assert (0 <= t mod msPerDay < msPerDay)%Z as Hms by (apply Z.mod_pos_bound; reflexivity).
  set (ms := (t mod msPerDay)%Z) in *.
  unfold parseISO.
  rewrite readYear_yearText by exact Hyear. rewrite option_bind_Some. cbv beta iota.
  rewrite expect_String, option_bind_Some.
  rewrite readDigits_padDigits_0 by (change (10 ^ Z.of_nat 2)%Z with 100%Z; lia).
  rewrite option_bind_Some. cbv beta iota.
  rewrite expect_String, option_bind_Some.
  rewrite readDigits_padDigits_0 by (change (10 ^ Z.of_nat 2)%Z with 100%Z; lia).
  rewrite option_bind_Some. cbv beta iota.
  rewrite expect_String, option_bind_Some.
  rewrite readDigits_padDigits_0
    by (change (10 ^ Z.of_nat 2)%Z with 100%Z; unfold msPerDay in *;
        Z.to_euclidean_division_equations; lia).
  rewrite option_bind_Some. cbv beta iota.
  rewrite expect_String, option_bind_Some.
  rewrite readDigits_padDigits_0
    by (change (10 ^ Z.of_nat 2)%Z with 100%Z; unfold msPerDay in *;
        Z.to_euclidean_division_equations; lia).
  rewrite option_bind_Some. cbv beta iota.
  rewrite expect_String, option_bind_Some.
  rewrite readDigits_padDigits_0
    by (change (10 ^ Z.of_nat 2)%Z with 100%Z; unfold msPerDay in *;
        Z.to_euclidean_division_equations; lia).
  rewrite option_bind_Some. cbv beta iota.
  rewrite expect_String, option_bind_Some.
  rewrite readDigits_padDigits_0
    by (change (10 ^ Z.of_nat 3)%Z with 1000%Z; unfold msPerDay in *;
        Z.to_euclidean_division_equations; lia).
  rewrite option_bind_Some. cbv beta iota.
  rewrite expect_String, option_bind_Some.
  change (JS.truthy EmptyString) with false. cbn [negb andb].
  rewrite Hdays, Hcivil. rewrite bool_decide_eq_true_2 by reflexivity. cbn [andb].
  assert ((ms / 3600000 <? 24)%Z = true) as ->
    by (apply Z.ltb_lt; unfold msPerDay in *; Z.to_euclidean_division_equations; lia).
  assert ((ms / 60000 mod 60 <? 60)%Z = true) as ->
    by (apply Z.ltb_lt; Z.to_euclidean_division_equations; lia).
  assert ((ms / 1000 mod 60 <? 60)%Z = true) as ->
    by (apply Z.ltb_lt; Z.to_euclidean_division_equations; lia).
  cbn [andb].
  replace (t / msPerDay * msPerDay + ms / 3600000 * 3600000 + ms / 60000 mod 60 * 60000
           + ms / 1000 mod 60 * 1000 + ms mod 1000)%Z with t.
  - apply timeClip_valid. exact Ht.
  - subst ms. unfold msPerDay. Z.to_euclidean_division_equations; lia.
Qed.

(** ** [noteStorage] *)

Lemma priorityId_inj p q : priorityId p = priorityId q -> p = q.
Proof. destruct p, q; (reflexivity || discriminate). Qed.

Lemma categoryId_inj c d : categoryId c = categoryId d -> c = d.
Proof. destruct c, d; (reflexivity || discriminate). Qed.

Lemma map_VStr_inj xs ys : map VStr xs = map VStr ys -> xs = ys.
Proof.
  revert ys. induction xs as [|x xs IH]; intros [|y ys] H; try discriminate.
  - reflexivity.
  - injection H as -> H. f_equal. apply IH. exact H.
Qed.

(** A note is known from its object. *)
Lemma noteObject_inj a b : noteObject a = noteObject b -> a = b.
Proof.
  destruct a, b. unfold noteObject. cbn. intros H.
  injection H as -> -> -> Htags Hp Hc -> -> ->.
  apply map_VStr_inj in Htags as ->.
  apply priorityId_inj in Hp as ->. apply categoryId_inj in Hc as ->. reflexivity.
Qed.

Lemma map_noteObject_inj xs ys : map noteObject xs = map noteObject ys -> xs = ys.
Proof.
  revert ys. induction xs as [|x xs IH]; intros [|y ys] H; try discriminate.
  - reflexivity.
  - cbn [map] in H.
    assert (noteObject x = noteObject y /\ map noteObject xs = map noteObject ys)
      as [Hx Hxs] by (split; congruence).
    apply noteObject_inj in Hx as ->. f_equal. apply IH. exact Hxs.
Qed.

Lemma tags_toJSON tags :
  map ofJSON (map (fun x => default JNull (toJSON x)) (map VStr tags)) = map VStr tags.
Proof. induction tags as [|tag tags IH]; cbn; [reflexivity | f_equal; exact IH]. Qed.

Lemma hasId_noteObject id note :
  hasId id (noteObject note) = String.eqb (Note.id note) id.
Proof. reflexivity. Qed.

Lemma Forall_replaceOrAppend (P : Note.t -> Prop) note stored :
  P note -> Forall P stored -> Forall P (replaceOrAppend note stored).
Proof.
  intros Hnote. induction 1 as [|n stored Hn Hstored IH]; cbn.
  - repeat constructor. exact Hnote.
  - destruct (String.eqb _ _); constructor; assumption.
Qed.

(** What [saveNote] does to the array is what the claim says of the
    collection. *)
Lemma findIndex_replaceOrAppend note stored :
  match JS.findIndex (hasId (Note.id note)) (map noteObject stored) with
  | Some i => <[i := noteObject note]> (map noteObject stored)
  | None => push (map noteObject stored) (noteObject note)
  end = map noteObject (replaceOrAppend note stored).
Proof.
  induction stored as [|n stored IH]; [reflexivity|].
  cbn [map JS.findIndex replaceOrAppend]. rewrite hasId_noteObject.
  destruct (String.eqb (Note.id n) (Note.id note)); [reflexivity|].
  cbn [map]. rewrite <- IH.
  destruct (JS.findIndex _ _); reflexivity.
Qed.

Lemma filter_replaceOrAppend note stored :
  List.filter (fun n => negb (String.eqb (Note.id n) (Note.id note)))
    (replaceOrAppend note stored)
  = List.filter (fun n => negb (String.eqb (Note.id n) (Note.id note))) stored.
Proof.
  induction stored as [|n stored IH]; cbn.
  - rewrite String.eqb_refl. reflexivity.
  - destruct (String.eqb (Note.id n) (Note.id note)) eqn:E; cbn.
    + rewrite String.eqb_refl. reflexivity.
    + rewrite E. cbn. rewrite IH. reflexivity.
Qed.

(** [replaceOrAppend], case by case. *)
Lemma replaceOrAppend_found note stored :
  In (Note.id note) (map Note.id stored) ->
  exists before old after,
    stored = before ++ old :: after
    /\ Note.id old = Note.id note
    /\ Forall (fun n => Note.id n <> Note.id note) before
    /\ replaceOrAppend note stored = before ++ note :: after.
Proof.
  induction stored as [|n stored IH]; cbn; [intros []|].
  destruct (String.eqb_spec (Note.id n) (Note.id note)) as [Heq|Hne].
  - intros _. exists [], n, stored. repeat split; [exact Heq | constructor].
  - intros [Heq | Hin]; [congruence|].
    destruct (IH Hin) as (before & old & after & -> & Hold & Hbefore & ->).
    exists (n :: before), old, after. repeat split; [exact Hold|].
    constructor; assumption.
Qed.

Lemma replaceOrAppend_fresh note stored :
  ~ In (Note.id note) (map Note.id stored) ->
  replaceOrAppend note stored = stored ++ [note].
Proof.
  induction stored as [|n stored IH]; cbn; [reflexivity|].
  intros Hnotin. destruct (String.eqb_spec (Note.id n) (Note.id note)) as [Heq|Hne].
  - contradiction Hnotin. left. exact Heq.
  - f_equal. apply IH. intros Hin. apply Hnotin. right. exact Hin.
Qed.

Section NoteStorageProperties.

Variable legacyDateParse : string -> option Z.
Variable dateOfObject : json -> outcome (option Z).

Lemma Date_parse_toISOString t :
  validTime t -> Date_parse legacyDateParse (toISOString t) = Some t.
Proof.
  intros H. unfold Date_parse. rewrite parseISO_toISOString by exact H. reflexivity.
Qed.

(** The callback of [getAllNotes] gives a note back from its JSON. *)
Lemma reviveNote_noteObject note :
  validNote note ->
  reviveNote legacyDateParse dateOfObject (default JNull (toJSON (noteObject note)))
  = Ok (noteObject note).
Proof.
  intros [Hcreated Hupdated].
  destruct note as [id title content tags p c fav created updated].
  cbn [Note.createdAt Note.updatedAt] in *.
  unfold noteObject, reviveNote.
  cbn -[toISOString Date_parse].
  rewrite !Date_parse_toISOString by assumption.
  cbn -[toISOString]. rewrite tags_toJSON. reflexivity.
Qed.

Lemma mapThrowing_reviveNote notes :
  Forall validNote notes ->
  mapThrowing (reviveNote legacyDateParse dateOfObject)
    (map (fun x => default JNull (toJSON x)) (map noteObject notes))
  = Ok (map noteObject notes).
Proof.
  induction 1 as [|note notes Hnote _ IH]; [reflexivity|].
  cbn [map mapThrowing]. rewrite reviveNote_noteObject by exact Hnote.
  cbn [mbind outcome_bind]. rewrite IH. reflexivity.
Qed.

(** Loading a store that holds the text of a collection gives the
    collection. *)
Lemma getAllNotes_stored st notes :
  Storage.getItem st NOTES_STORAGE_KEY = Some (JSON_stringify (map noteObject notes)) ->
  Forall validNote notes ->
  getAllNotes legacyDateParse dateOfObject st = Ok (map noteObject notes).
Proof.
  intros Hstored Hvalid. unfold getAllNotes. rewrite Hstored.
  cbn [JSON_stringify text_truthy negb JSON_parse mbind outcome_bind mapNotes].
  rewrite mapThrowing_reviveNote by exact Hvalid. reflexivity.
Qed.

Lemma getItem_setItem st key value st' :
  Storage.setItem st key value = Ok st' ->
  Storage.getItem st' key = Some value /\ Storage.writable st' = Storage.writable st.
Proof.
  unfold Storage.setItem, Storage.getItem.
  destruct (Storage.writable st) eqn:E; [|discriminate].
  intros H. injection H as <-. cbn. rewrite lookup_insert_eq. split; reflexivity.
Qed.

End NoteStorageProperties.





Section ReviveNote.

Variable legacyDateParse : string -> option Z.
Variable dateOfObject : json -> outcome (option Z).






End ReviveNote.

Section NoteStorageClaims.

Variable legacyDateParse : string -> option Z.
Variable dateOfObject : json -> outcome (option Z).

(** C6.  On a store that takes writes, [importNotes] of a collection whose
    timestamps are time values of dates succeeds, and [getAllNotes] then
    returns the objects of the same notes in the same order, the two
    timestamps of each read back from their ISO text as [Date] objects of
    the same instants; no other collection has these objects. *)
Theorem importNotes_getAllNotes (st : Storage.t) (notes : list Note.t) :
  Storage.writable st = true ->
  Forall validNote notes ->
  exists st',
    importNotes notes st = Ok st'
    /\ getAllNotes legacyDateParse dateOfObject st' = Ok (map noteObject notes)
    /\ (forall others,
          getAllNotes legacyDateParse dateOfObject st' = Ok (map noteObject others) ->
          others = notes).
Proof.
  intros Hwritable Hvalid. unfold importNotes.
  destruct (Storage.setItem st NOTES_STORAGE_KEY (JSON_stringify (map noteObject notes)))
    as [st'|e] eqn:Hset.
  - exists st'. split; [reflexivity|].
    apply getItem_setItem in Hset as [Hget _].
    rewrite (getAllNotes_stored _ _ st' notes Hget Hvalid).
    split; [reflexivity|]. intros others H. injection H as H.
    symmetry. apply map_noteObject_inj. exact H.
  - unfold Storage.setItem in Hset. rewrite Hwritable in Hset. discriminate.
Qed.

(** C10.  When the store takes writes and holds a collection whose
    timestamps are time values of dates, [saveNote] succeeds and the store
    then holds the collection changed in one place: where a stored note has
    the id of the note, the first such note is replaced by the note, in its
    place; where none has, the note is added at the end.  The notes with
    another id are the same as before, in the same order. *)
Theorem saveNote_replaceOrAppend (st : Storage.t) (stored : list Note.t) (note : Note.t) :
  Storage.writable st = true ->
  getAllNotes legacyDateParse dateOfObject st = Ok (map noteObject stored) ->
  Forall validNote stored ->
  validNote note ->
  exists st' after,
    saveNote legacyDateParse dateOfObject note st = Ok st'
    /\ getAllNotes legacyDateParse dateOfObject st' = Ok (map noteObject after)
    /\ List.filter (fun n => negb (String.eqb (Note.id n) (Note.id note))) after
       = List.filter (fun n => negb (String.eqb (Note.id n) (Note.id note))) stored
    /\ (In (Note.id note) (map Note.id stored) ->
        exists before old rest,
          stored = before ++ old :: rest
          /\ Note.id old = Note.id note
          /\ Forall (fun n => Note.id n <> Note.id note) before
          /\ after = before ++ note :: rest)
    /\ (~ In (Note.id note) (map Note.id stored) -> after = stored ++ [note]).
Proof.
  intros Hwritable Hstored Hvalid Hnote. unfold saveNote.
  rewrite Hstored. cbn [mbind outcome_bind]. rewrite findIndex_replaceOrAppend.
  destruct (Storage.setItem st NOTES_STORAGE_KEY
              (JSON_stringify (map noteObject (replaceOrAppend note stored))))
    as [st'|e] eqn:Hset.
  - exists st', (replaceOrAppend note stored). split; [reflexivity|].
    apply getItem_setItem in Hset as [Hget _].
    split; [|split; [apply filter_replaceOrAppend|split]].
    + apply getAllNotes_stored; [exact Hget|].
      apply Forall_replaceOrAppend; assumption.
    + apply replaceOrAppend_found.
    + apply replaceOrAppend_fresh.
  - unfold Storage.setItem in Hset. rewrite Hwritable in Hset. discriminate.
Qed.


End NoteStorageClaims.

Lemma importNotes_getAllNotes_witness :
  exists st',
    importNotes sampleNotes emptyStorage = Ok st'
    /\ getAllNotes (fun _ => None) (fun _ => Ok None) st' = Ok (map noteObject sampleNotes)
    /\ (forall others,
          getAllNotes (fun _ => None) (fun _ => Ok None) st' = Ok (map noteObject others) ->
          others = sampleNotes).
Proof.
  apply (importNotes_getAllNotes (fun _ => None) (fun _ => Ok None) emptyStorage sampleNotes).
  - reflexivity.
  - repeat constructor; vm_compute; discriminate.
Defined.

Lemma saveNote_replaceOrAppend_witness :
  let edited := toggledNote bugNote (sampleInstant + 60000) in
  let st := storageWith (JSON_stringify (map noteObject sampleNotes)) in
  exists st' after,
    saveNote (fun _ => None) (fun _ => Ok None) edited st = Ok st'
    /\ getAllNotes (fun _ => None) (fun _ => Ok None) st' = Ok (map noteObject after)
    /\ List.filter (fun n => negb (String.eqb (Note.id n) (Note.id edited))) after
       = List.filter (fun n => negb (String.eqb (Note.id n) (Note.id edited))) sampleNotes
    /\ (In (Note.id edited) (map Note.id sampleNotes) ->
        exists before old rest,
          sampleNotes = before ++ old :: rest
          /\ Note.id old = Note.id edited
          /\ Forall (fun n => Note.id n <> Note.id edited) before
          /\ after = before ++ edited :: rest)
    /\ (~ In (Note.id edited) (map Note.id sampleNotes) -> after = sampleNotes ++ [edited]).
Proof.
  intros edited st.
  apply (saveNote_replaceOrAppend (fun _ => None) (fun _ => Ok None) st sampleNotes edited).
  - reflexivity.
  - vm_compute. reflexivity.
  - repeat constructor; vm_compute; discriminate.
  - repeat constructor; vm_compute; discriminate.
Defined.

(** The same save, computed. *)
Example saveNote_sample :
  let edited := toggledNote bugNote (sampleInstant + 60000) in
  (st' ← saveNote (fun _ => None) (fun _ => Ok None) edited
          (storageWith (JSON_stringify (map noteObject sampleNotes)));
   getAllNotes (fun _ => None) (fun _ => Ok None) st')
  = Ok (map noteObject [welcomeNote; edited; learningNote]).
Proof. vm_compute. reflexivity. Qed.



(** ** The examples of the specification, computed *)

Example parseTags_example :
  parseTags "Bug, Urgent  frontend" = ["bug"; "urgent"; "frontend"].
Proof. reflexivity. Qed.

Example splitTags_example : splitTags ",a, b," = [""; "a"; "b"; ""].
Proof. reflexivity. Qed.

Example toISOString_examples :
  toISOString 0 = "1970-01-01T00:00:00.000Z"
  /\ toISOString sampleInstant = "2023-11-14T22:13:20.000Z"
  /\ toISOString (-1) = "1969-12-31T23:59:59.999Z"
  /\ toISOString maxTime = "+275760-09-13T00:00:00.000Z"
  /\ toISOString (- maxTime) = "-271821-04-20T00:00:00.000Z".
Proof. repeat split; vm_compute; reflexivity. Qed.

Example parseISO_examples :
  parseISO "2023-11-14T22:13:20.000Z" = Some sampleInstant
  /\ parseISO "2023-02-30T00:00:00.000Z" = None
  /\ parseISO "2023-11-14" = None.
Proof. repeat split; vm_compute; reflexivity. Qed.

(** No filter field set: every note is kept. *)
Lemma filterNotes_none notes : filterNotes notes SearchFilters.none = notes.
Proof.
  unfold filterNotes. induction notes as [|note notes IH]; [reflexivity|].
  cbn. f_equal. exact IH.
Qed.

Example filterNotes_favorite :
  filterNotes [bugNote; welcomeNote]
    (SearchFilters.mk (Some EmptyString) None None (Some true) None) = [welcomeNote].
Proof. reflexivity. Qed.

Example filterNotes_tag_substring :
  let backendNote := Note.mk "n" "API" "c" ["backend"] low task false 0 0 in
  filterNotes [bugNote; backendNote]
    (SearchFilters.mk (Some EmptyString) None None None (Some ["front"])) = [bugNote].
Proof. reflexivity. Qed.

(** A store that takes no writes: [importNotes] and [saveNote] throw their
    own errors and leave nothing behind. *)
Example importNotes_unwritable :
  importNotes sampleNotes (Storage.mk ∅ false) = Throw "Failed to import notes"
  /\ saveNote (fun _ => None) (fun _ => Ok None) bugNote (Storage.mk ∅ false)
     = Throw "Failed to save note".
Proof. split; reflexivity. Qed.

(** [createNewNote] with timestamps among the fields of [data] takes those. *)
Example createNewNote_overrides :
  let data := PartialNote.mk None None None None None None None (Some 5%Z) None in
  Note.createdAt (createNewNote 3 "id" data) = 5%Z
  /\ Note.updatedAt (createNewNote 3 "id" data) = 3%Z.
Proof. split; reflexivity. Qed.

(* ===================================================================== *)
(** * Part III: more of the code *)
(* ===================================================================== *)

(** ** Sorting *)

Section SortStable.

Context {A : Type} (cmp : A -> A -> Z).

(** The element passes all it comes after. *)
Lemma sort_insert_skip x pre post :
  Forall (fun y => (0 < cmp x y)%Z) pre ->
  JS.sort_insert cmp x (pre ++ post) = pre ++ JS.sort_insert cmp x post.
Proof.
  induction 1 as [|y pre Hy _ IH]; [reflexivity|].
  cbn [app JS.sort_insert]. destruct (Z.leb_spec (cmp x y) 0); [lia|].
  rewrite IH. reflexivity.
Qed.

Lemma sort_insert_front x xs :
  Forall (fun y => (cmp x y <= 0)%Z) xs -> JS.sort_insert cmp x xs = x :: xs.
Proof.
  destruct 1 as [|y xs Hy _]; [reflexivity|].
  cbn [JS.sort_insert]. destruct (Z.leb_spec (cmp x y) 0); [reflexivity | lia].
Qed.

(** Elements the comparator does not put apart keep their order. *)
Lemma filter_sort_insert (p : A -> bool) x xs :
  (forall y, p x = true -> p y = true -> (cmp x y <= 0)%Z) ->
  List.filter p (JS.sort_insert cmp x xs) = List.filter p (x :: xs).
Proof.
  intros Hp. induction xs as [|y xs IH]; [reflexivity|].
  cbn [JS.sort_insert]. destruct (Z.leb_spec (cmp x y) 0) as [Hxy|Hxy]; [reflexivity|].
  cbn [List.filter] in *. rewrite IH.
  destruct (p x) eqn:Px, (p y) eqn:Py; try reflexivity.
  specialize (Hp y eq_refl Py). lia.
Qed.

Lemma filter_sort (p : A -> bool) xs :
  (forall x y, p x = true -> p y = true -> (cmp x y <= 0)%Z) ->
  List.filter p (JS.sort cmp xs) = List.filter p xs.
Proof.
  intros Hp. induction xs as [|x xs IH]; [reflexivity|].
  cbn [JS.sort]. rewrite filter_sort_insert by (intros y; apply Hp).
  cbn [List.filter]. rewrite IH. reflexivity.
Qed.

End SortStable.

Lemma withPriority_Forall p notes :
  Forall (fun note => Note.priority note = p) (withPriority p notes).
Proof.
  apply List.Forall_forall. intros note Hin. apply filter_In in Hin as [_ Hp].
  apply bool_decide_eq_true in Hp. exact Hp.
Qed.

Lemma withPriority_cons p note notes :
  withPriority p (note :: notes)
  = if bool_decide (Note.priority note = p) then note :: withPriority p notes
    else withPriority p notes.
Proof. reflexivity. Qed.

(** X1.  Whatever the option and whatever [localeCompare] answers,
    [sortNotes] returns the notes it was given, each as often as it was
    given.  So the notes on display are the notes that pass the filters, in
    another order: a note is shown exactly when it is in the collection and
    passes [filterNotes]. *)
Theorem filteredNotes_Permutation (localeCompare : string -> string -> Z)
    (notes : list Note.t) (filters : SearchFilters.t) (sortBy : SortOption) :
  sortNotes localeCompare notes sortBy ≡ₚ notes
  /\ filteredNotes localeCompare notes filters sortBy ≡ₚ filterNotes notes filters
  /\ (forall note,
        In note (filteredNotes localeCompare notes filters sortBy)
        <-> In note notes /\ filterNotes_keep filters note = true).
Proof.
  assert (forall ns, sortNotes localeCompare ns sortBy ≡ₚ ns) as Hsort
    by (intros ns; destruct sortBy; apply sort_Permutation).
  split; [apply Hsort|]. split; [apply Hsort|].
  intros note. unfold filteredNotes. cbv zeta. unfold filterNotes at 1.
  rewrite <- filter_In. split; apply Permutation_in; [|symmetry]; apply Hsort.
Qed.

(** X2.  Sorting by priority gives the notes of high priority, then those
    of medium, then those of low priority, each group in the order the notes
    had in the collection. *)
Theorem sortNotes_by_priority (localeCompare : string -> string -> Z)
    (notes : list Note.t) :
  sortNotes localeCompare notes by_priority
  = withPriority high notes ++ withPriority medium notes ++ withPriority low notes.
Proof.
  unfold sortNotes. induction notes as [|note notes IH]; [reflexivity|].
  cbn [JS.sort]. rewrite IH. rewrite !withPriority_cons.
  pose proof (withPriority_Forall high notes) as Hhigh.
  pose proof (withPriority_Forall medium notes) as Hmedium.
  pose proof (withPriority_Forall low notes) as Hlow.
  destruct (Note.priority note) eqn:Hp; cbn [bool_decide decide_rel]; cbn.
  - apply sort_insert_front. rewrite !Forall_app. repeat split.
    all: eapply Forall_impl; [eassumption|]; cbv beta; intros y ->; rewrite Hp; cbn; lia.
  - rewrite sort_insert_skip.
    + f_equal. apply sort_insert_front. rewrite Forall_app. split.
      all: eapply Forall_impl; [eassumption|]; cbv beta; intros y ->; rewrite Hp; cbn; lia.
    + eapply Forall_impl; [exact Hhigh|]. cbv beta. intros y ->. rewrite Hp. cbn. lia.
  - rewrite app_assoc, sort_insert_skip.
    + rewrite <- app_assoc. do 2 f_equal. apply sort_insert_front.
      eapply Forall_impl; [exact Hlow|]. cbv beta. intros y ->. rewrite Hp. cbn. lia.
    + rewrite Forall_app. split.
      all: eapply Forall_impl; [eassumption|]; cbv beta; intros y ->; rewrite Hp; cbn; lia.
Qed.

Lemma compare_refl_string s : String.compare s s = Eq.
Proof.
  induction s as [|c s IH]; [reflexivity|].
  cbn. unfold Ascii.compare. rewrite N.compare_refl. exact IH.
Qed.

(** X3.  The sort is stable: notes made at the same instant keep the order
    they had in the collection under [newest] and [oldest], and so do notes
    with the same title under [title] when [localeCompare] finds a string
    equal to itself. *)
Theorem sortNotes_stable (localeCompare : string -> string -> Z) (notes : list Note.t) :
  (forall t sortBy,
     sortBy = newest \/ sortBy = oldest ->
     List.filter (fun note => (Note.createdAt note =? t)%Z)
       (sortNotes localeCompare notes sortBy)
     = List.filter (fun note => (Note.createdAt note =? t)%Z) notes)
  /\ ((forall s, (localeCompare s s <= 0)%Z) ->
      forall title,
        List.filter (fun note => String.eqb (Note.title note) title)
          (sortNotes localeCompare notes by_title)
        = List.filter (fun note => String.eqb (Note.title note) title) notes).
Proof.
  split.
  - intros t sortBy [-> | ->]; unfold sortNotes; apply filter_sort.
    all: intros x y Hx Hy; apply Z.eqb_eq in Hx, Hy; lia.
  - intros Hrefl title. unfold sortNotes. apply filter_sort.
    intros x y Hx Hy. apply String.eqb_eq in Hx, Hy. rewrite Hx, Hy. apply Hrefl.
Qed.

Lemma sortNotes_stable_witness :
  let first := Note.mk "a" "Notes" "c" [] low task false sampleInstant sampleInstant in
  let second := Note.mk "b" "Notes" "d" [] high bug true sampleInstant sampleInstant in
  List.filter (fun note => String.eqb (Note.title note) "Notes")
    (sortNotes defaultCompare [first; bugNote; second] by_title) = [first; second]
  /\ List.filter (fun note => (Note.createdAt note =? sampleInstant)%Z)
       (sortNotes defaultCompare [first; bugNote; second] newest) = [first; bugNote; second].
Proof.
  intros first second. split.
  - rewrite (proj2 (sortNotes_stable defaultCompare [first; bugNote; second])).
    + reflexivity.
    + intros s. unfold defaultCompare. rewrite compare_refl_string. lia.
  - rewrite (proj1 (sortNotes_stable defaultCompare [first; bugNote; second])
               sampleInstant newest).
    + reflexivity.
    + left. reflexivity.
Defined.

(** ** [getUniqueTags] *)

Lemma newSet_In x xs : In x (newSet xs) <-> In x xs.
Proof.
  induction xs as [|y xs IH]; [reflexivity|].
  cbn [newSet]. split.
  - intros [-> | Hin]; [left; reflexivity|].
    apply filter_In in Hin as [Hin _]. right. apply IH. exact Hin.
  - intros [-> | Hin]; [left; reflexivity|].
    destruct (String.eqb_spec y x) as [-> | Hne]; [left; reflexivity|].
    right. apply filter_In. split; [apply IH; exact Hin|].
    apply negb_true_iff, String.eqb_neq. exact Hne.
Qed.

Lemma NoDup_filter {A} (p : A -> bool) (xs : list A) :
  List.NoDup xs -> List.NoDup (List.filter p xs).
Proof.
  induction 1 as [|x xs Hnotin _ IH]; cbn; [constructor|].
  destruct (p x); [|exact IH].
  constructor; [|exact IH]. intros Hin. apply filter_In in Hin as [Hin _]. contradiction.
Qed.

Lemma newSet_NoDup xs : List.NoDup (newSet xs).
Proof.
  induction xs as [|x xs IH]; cbn [newSet]; constructor.
  - intros Hin. apply filter_In in Hin as [_ Hne].
    rewrite String.eqb_refl in Hne. discriminate.
  - apply NoDup_filter. exact IH.
Qed.

Lemma defaultCompare_le a b : (defaultCompare a b <= 0)%Z <-> String.le a b.
Proof.
  unfold defaultCompare, String.le, String.leb.
  destruct (String.compare a b); cbn; split; (lia || tauto).
Qed.

(** X4.  [getUniqueTags] returns the tags of the notes, each once, in
    ascending order of their code units: a string is returned exactly when
    it is a tag of some note, and each returned tag is less than all that
    follow it. *)
Theorem getUniqueTags_sorted (notes : list Note.t) :
  (forall tag,
     In tag (getUniqueTags notes)
     <-> exists note, In note notes /\ In tag (Note.tags note))
  /\ StronglySorted (fun a b => String.compare a b = Lt) (getUniqueTags notes)
  /\ List.NoDup (getUniqueTags notes).
Proof.
  unfold getUniqueTags. cbv zeta.
  pose proof (sort_Permutation defaultCompare (newSet (flat_map Note.tags notes))) as Hperm.
  assert (List.NoDup (JS.sort defaultCompare (newSet (flat_map Note.tags notes)))) as Hnodup.
  { eapply Permutation_NoDup; [symmetry; exact Hperm | apply newSet_NoDup]. }
  split; [|split; [|exact Hnodup]].
  - intros tag. rewrite <- in_flat_map, <- (newSet_In tag (flat_map Note.tags notes)).
    split; apply Permutation_in; [|symmetry]; exact Hperm.
  - assert (StronglySorted (fun a b => (defaultCompare a b <= 0)%Z)
              (JS.sort defaultCompare (newSet (flat_map Note.tags notes)))) as Hsorted.
    { apply sort_StronglySorted.
      - intros a b. rewrite !defaultCompare_le. apply String.le_total.
      - intros a b c. rewrite !defaultCompare_le. apply String.le_po. }
    revert Hsorted Hnodup. generalize (JS.sort defaultCompare (newSet (flat_map Note.tags notes))).
    intros tags. induction 1 as [|tag tags _ IH Htag]; intros Hnodup; [constructor|].
    apply NoDup_cons_iff in Hnodup as [Hnotin Hnodup].
    constructor; [apply IH; exact Hnodup|].
    apply List.Forall_forall. intros other Hin.
    assert (defaultCompare tag other <= 0)%Z as Hle
      by (revert other Hin; apply List.Forall_forall; exact Htag).
    unfold defaultCompare in Hle.
    destruct (String.compare tag other) eqn:E; [|reflexivity|lia].
    apply String.compare_eq_iff in E. subst other. contradiction.
Qed.

(** ** [getNoteStats] *)

Lemma countKey_default {A} (key : A -> string) (xs : list A) (k : string) :
  default 0%nat (fold_left (fun acc x => countKey acc (key x)) xs ∅ !! k)
  = length (List.filter (fun x => String.eqb (key x) k) xs).
Proof.
  rewrite fold_countKey_lookup. cbv zeta. rewrite lookup_empty.
  destruct (length _) as [|c]; reflexivity.
Qed.

Lemma categoryId_eqb c d :
  String.eqb (categoryId c) (categoryId d) = bool_decide (c = d).
Proof. destruct c, d; reflexivity. Qed.

Lemma filter_length_le {A} (p : A -> bool) (xs : list A) :
  (length (List.filter p xs) <= length xs)%nat.
Proof. induction xs as [|x xs IH]; cbn; [lia|]. destruct (p x); cbn; lia. Qed.

(** Decide the comparisons of two enumeration values. *)
Ltac decide_choices :=
  repeat match goal with
         | |- context [bool_decide ?P] =>
             let b := eval vm_compute in (bool_decide P) in
             change (bool_decide P) with b
         end;
  cbv iota.

(** X5.  In the statistics of a collection, a priority or category without
    a count read as zero, the counts of the three priorities add up to the
    number of notes and so do the counts of the five categories; the number
    of favorites and the number of recent notes are at most the number of
    notes. *)
Theorem getNoteStats_sums (zone : TimeZone) (now : Z) (notes : list Note.t) :
  let stats := getNoteStats zone now notes in
  let priorityOf p := default 0%nat (NoteStats.priorities stats !! priorityId p) in
  let categoryOf c := default 0%nat (NoteStats.categories stats !! categoryId c) in
  NoteStats.total stats = length notes
  /\ (priorityOf high + priorityOf medium + priorityOf low = length notes)%nat
  /\ (categoryOf bug + categoryOf task + categoryOf learning + categoryOf meeting
      + categoryOf feedback = length notes)%nat
  /\ (NoteStats.favorites stats <= length notes)%nat
  /\ (NoteStats.recentNotes stats <= length notes)%nat.
Proof.
  cbv zeta. unfold getNoteStats.
  cbn [NoteStats.total NoteStats.priorities NoteStats.categories NoteStats.favorites
       NoteStats.recentNotes].
  rewrite !countKey_default.
  split; [reflexivity|]. split; [|split; [|split; apply filter_length_le]].
  - induction notes as [|note notes IH]; [reflexivity|].
    cbn [List.filter length]. rewrite !priorityId_eqb.
    destruct (Note.priority note); decide_choices; cbn [length]; lia.
  - induction notes as [|note notes IH]; [reflexivity|].
    cbn [List.filter length]. rewrite !categoryId_eqb.
    destruct (Note.category note); decide_choices; cbn [length]; lia.
Qed.

(** X6.  The per-category counts hold a category as a key exactly when a
    note has it, with the number of those notes; a category of no note is
    not a key, and nothing but a category is. *)
Theorem getNoteStats_categories (zone : TimeZone) (now : Z) (notes : list Note.t) :
  (forall c : Category,
     NoteStats.categories (getNoteStats zone now notes) !! categoryId c =
     if (categoryCount c notes =? 0)%nat then None else Some (categoryCount c notes))
  /\ (forall k : string,
        is_Some (NoteStats.categories (getNoteStats zone now notes) !! k) ->
        exists c, k = categoryId c /\ In c (map Note.category notes)).
Proof.
  unfold getNoteStats. cbn [NoteStats.categories]. split.
  - intros c. rewrite fold_countKey_lookup. cbv zeta.
    rewrite lookup_empty. cbn [default]. unfold categoryCount.
    rewrite (filter_ext _ (fun note => bool_decide (Note.category note = c)))
      by (intros note; apply categoryId_eqb).
    reflexivity.
  - intros k. rewrite fold_countKey_lookup. cbv zeta. rewrite lookup_empty.
    destruct (length _ =? 0)%nat eqn:E; [intros [x Hx]; discriminate|]. intros _.
    apply Nat.eqb_neq in E.
    destruct (List.filter _ notes) as [|note rest] eqn:F; [contradiction E; reflexivity|].
    assert (In note (List.filter (fun x => String.eqb (categoryId (Note.category x)) k) notes))
      as Hin by (rewrite F; left; reflexivity).
    apply filter_In in Hin as [Hin Hk]. apply String.eqb_eq in Hk.
    exists (Note.category note). split; [symmetry; exact Hk | apply in_map; exact Hin].
Qed.

Lemma getNoteStats_categories_witness :
  NoteStats.categories (getNoteStats utcZone sampleInstant sampleNotes) !! "learning"
  = Some 2%nat
  /\ NoteStats.categories (getNoteStats utcZone sampleInstant sampleNotes) !! "meeting" = None
  /\ exists c, "bug" = categoryId c /\ In c (map Note.category sampleNotes).
Proof.
  destruct (getNoteStats_categories utcZone sampleInstant sampleNotes) as [Hcount Hkeys].
  split; [exact (Hcount learning)|]. split; [exact (Hcount meeting)|].
  apply Hkeys. exists 1%nat. vm_compute. reflexivity.
Defined.

(** ** [filterNotes] and the filter state of [SearchAndFilter] *)

Lemma filter_sublist_impl {A} (p q : A -> bool) (xs : list A) :
  (forall x, p x = true -> q x = true) ->
  sublist (List.filter p xs) (List.filter q xs).
Proof.
  intros Hpq. induction xs as [|x xs IH]; cbn; [constructor|].
  destruct (p x) eqn:Px.
  - rewrite (Hpq x Px). apply sublist_skip. exact IH.
  - destruct (q x); [apply sublist_cons|]; exact IH.
Qed.

(** X7.  [filterNotes] drops no note that meets the filters: a note of the
    collection that meets every filter field that is set is in the result. *)
Theorem filterNotes_complete (notes : list Note.t) (filters : SearchFilters.t)
    (note : Note.t) :
  In note notes ->
  (forall q, SearchFilters.query filters = Some q -> q <> EmptyString ->
     IsSubstring (JS.toLowerCase q) (searchableText note)) ->
  (forall p, SearchFilters.priority filters = Some p -> Note.priority note = p) ->
  (forall c, SearchFilters.category filters = Some c -> Note.category note = c) ->
  (forall b, SearchFilters.isFavorite filters = Some b -> Note.isFavorite note = b) ->
  (forall ts, SearchFilters.tags filters = Some ts -> ts <> [] ->
     exists tag noteTag, In tag ts /\ In noteTag (Note.tags note) /\
       IsSubstring (JS.toLowerCase tag) (JS.toLowerCase noteTag)) ->
  In note (filterNotes notes filters).
Proof.
  intros Hin Hq Hp Hc Hb Hts. apply filter_In. split; [exact Hin|].
  apply filterNotes_keep_spec. repeat split; assumption.
Qed.

Lemma filterNotes_complete_witness :
  In bugNote
    (filterNotes sampleNotes
       (SearchFilters.mk (Some "LOGIN") (Some high) None (Some false) (Some ["front"]))).
Proof.
  apply (filterNotes_complete sampleNotes
           (SearchFilters.mk (Some "LOGIN") (Some high) None (Some false) (Some ["front"]))
           bugNote).
  - right. left. reflexivity.
  - intros q [= <-] _. exists "bug: ", " form validation found an issue with the login form where empty passwords are accepted. frontend validation urgent bug high".
    reflexivity.
  - intros p [= <-]. reflexivity.
  - intros c [=].
  - intros b [= <-]. reflexivity.
  - intros ts [= <-] _. exists "front", "frontend". split; [left; reflexivity|].
    split; [left; reflexivity|]. exists EmptyString, "end". reflexivity.
Defined.

(** X8.  When [hasActiveFilters] is false, only the text query filters: the
    result is that of the query alone, and it is the whole collection when
    the query is empty or left out, as it is after [clearFilters]. *)
Theorem filterNotes_inactive (notes : list Note.t) (filters : SearchFilters.t) :
  hasActiveFilters filters = false ->
  filterNotes notes filters
  = filterNotes notes (SearchFilters.mk (SearchFilters.query filters) None None None None)
  /\ (JS.truthy_opt (SearchFilters.query filters) = false ->
      filterNotes notes filters = notes)
  /\ hasActiveFilters clearFilters = false
  /\ filterNotes notes clearFilters = notes.
Proof.
  intros Hinactive.
  assert (forall ns, filterNotes ns clearFilters = ns) as Hclear.
  { intros ns. unfold filterNotes. induction ns as [|n ns IH]; [reflexivity|].
    cbn. f_equal. exact IH. }
  destruct filters as [query p c fav tags]. unfold hasActiveFilters in Hinactive.
  cbn [SearchFilters.priority SearchFilters.category SearchFilters.isFavorite
       SearchFilters.tags SearchFilters.query] in *.
  destruct p as [[]|]; try discriminate. destruct c as [[]|]; try discriminate.
  destruct fav; try discriminate. cbn in Hinactive.
  assert (forall ns, filterNotes ns (SearchFilters.mk query None None None tags)
                     = filterNotes ns (SearchFilters.mk query None None None None)) as Htags.
  { intros ns. unfold filterNotes. apply filter_ext. intros n.
    unfold filterNotes_keep, failsTags. cbn [SearchFilters.tags].
    destruct tags as [[|t ts]|]; [reflexivity | discriminate | reflexivity]. }
  split; [apply Htags|]. split; [|split; [reflexivity | apply Hclear]].
  intros Hquery. rewrite Htags.
  destruct query as [[|a q]|]; try discriminate; [apply Hclear|].
  unfold filterNotes. induction notes as [|n ns IH]; [reflexivity|].
  cbn. f_equal. exact IH.
Qed.

Lemma filterNotes_inactive_witness :
  filterNotes sampleNotes (SearchFilters.mk None None None None (Some [])) = sampleNotes.
Proof.
  apply (filterNotes_inactive sampleNotes (SearchFilters.mk None None None None (Some [])));
    reflexivity.
Defined.

Lemma hasMatchingTag_app ts us note :
  hasMatchingTag (ts ++ us) note = hasMatchingTag ts note || hasMatchingTag us note.
Proof. unfold hasMatchingTag, JS.some. apply existsb_app. Qed.

Lemma includesTag_In tag ts : includesTag tag ts = true <-> In tag ts.
Proof.
  unfold includesTag. rewrite existsb_exists. split.
  - intros [t [Hin Heq]]. apply String.eqb_eq in Heq. subst t. exact Hin.
  - intros Hin. exists tag. split; [exact Hin | apply String.eqb_refl].
Qed.

(** X9.  The requested tags are alternatives.  The first tag added to a
    filter set narrows the result; each further tag widens it: a note shown
    before is still shown, in the same order. *)
Theorem addTagFilter_filterNotes (notes : list Note.t) (filters : SearchFilters.t)
    (tag : string) :
  (default [] (SearchFilters.tags filters) = [] ->
   sublist (filterNotes notes (addTagFilter filters tag)) (filterNotes notes filters))
  /\ (default [] (SearchFilters.tags filters) <> [] ->
      sublist (filterNotes notes filters) (filterNotes notes (addTagFilter filters tag))).
Proof.
  destruct filters as [query p c fav tags]. unfold addTagFilter, withTags.
  cbn [SearchFilters.tags SearchFilters.query SearchFilters.priority
       SearchFilters.category SearchFilters.isFavorite]. split.
  - intros Hnone. rewrite Hnone. cbn [includesTag existsb negb app].
    unfold filterNotes. apply filter_sublist_impl. intros note.
    rewrite !filterNotes_keep_tests. intros (Hq & Hp & Hc & Hf & _).
    repeat split; try assumption.
    unfold failsTags. cbn [SearchFilters.tags].
    destruct tags as [[|t ts]|]; (reflexivity || discriminate).
  - intros Hsome. destruct tags as [[|t ts]|]; try (contradiction Hsome; reflexivity).
    change (default [] (Some (t :: ts))) with (t :: ts).
    destruct (includesTag tag (t :: ts)); cbn [negb]; [reflexivity|].
    unfold filterNotes. apply filter_sublist_impl. intros note.
    rewrite !filterNotes_keep_tests. intros (Hq & Hp & Hc & Hf & Ht).
    repeat split; try assumption.
    unfold failsTags in *. cbn [SearchFilters.tags] in *.
    change ((0 <? length (t :: ts))%nat) with true in Ht.
    change ((0 <? length ((t :: ts) ++ [tag]))%nat) with true.
    cbn [andb] in *. rewrite hasMatchingTag_app.
    apply negb_false_iff in Ht. rewrite Ht. reflexivity.
Qed.

Lemma addTagFilter_filterNotes_witness :
  sublist
    (filterNotes sampleNotes
       (addTagFilter (SearchFilters.mk (Some EmptyString) None None None None) "react"))
    (filterNotes sampleNotes (SearchFilters.mk (Some EmptyString) None None None None))
  /\ sublist
       (filterNotes sampleNotes
          (SearchFilters.mk (Some EmptyString) None None None (Some ["react"])))
       (filterNotes sampleNotes
          (addTagFilter
             (SearchFilters.mk (Some EmptyString) None None None (Some ["react"])) "urgent")).
Proof.
  split.
  - apply (proj1 (addTagFilter_filterNotes sampleNotes
                    (SearchFilters.mk (Some EmptyString) None None None None) "react")).
    reflexivity.
  - apply (proj2 (addTagFilter_filterNotes sampleNotes
                    (SearchFilters.mk (Some EmptyString) None None None (Some ["react"]))
                    "urgent")).
    discriminate.
Defined.

(** X10.  Removing a tag that was just added gives back the filter set as
    far as [filterNotes] can tell, and the tag list the set had; a tag is
    never listed twice by [addTagFilter], and is not listed at all after
    [removeTagFilter]. *)
Theorem removeTagFilter_addTagFilter (notes : list Note.t) (filters : SearchFilters.t)
    (tag : string) :
  (~ In tag (default [] (SearchFilters.tags filters)) ->
   SearchFilters.tags (removeTagFilter (addTagFilter filters tag) tag)
   = Some (default [] (SearchFilters.tags filters))
   /\ filterNotes notes (removeTagFilter (addTagFilter filters tag) tag)
      = filterNotes notes filters)
  /\ (List.NoDup (default [] (SearchFilters.tags filters)) ->
      List.NoDup (default [] (SearchFilters.tags (addTagFilter filters tag))))
  /\ In tag (default [] (SearchFilters.tags (addTagFilter filters tag)))
  /\ ~ In tag (default [] (SearchFilters.tags (removeTagFilter filters tag))).
Proof.
  destruct filters as [query p c fav tags]. unfold addTagFilter, removeTagFilter, withTags.
  cbn [SearchFilters.tags SearchFilters.query SearchFilters.priority
       SearchFilters.category SearchFilters.isFavorite].
  set (current := default [] tags).
  split; [|split; [|split]].
  - intros Hnotin.
    assert (includesTag tag current = false) as ->.
    { destruct (includesTag tag current) eqn:E; [|reflexivity].
      apply includesTag_In in E. contradiction. }
    cbn [negb SearchFilters.tags default SearchFilters.query SearchFilters.priority
         SearchFilters.category SearchFilters.isFavorite]. unfold id.
    assert (List.filter (fun t => negb (String.eqb t tag)) (current ++ [tag]) = current)
      as ->.
    { rewrite List.filter_app. cbn [List.filter]. rewrite String.eqb_refl. cbn [negb].
      rewrite app_nil_r. apply forallb_filter_id. apply forallb_forall.
      intros t Hin. apply negb_true_iff, String.eqb_neq. intros ->. contradiction. }
    split; [reflexivity|].
    unfold filterNotes. apply filter_ext. intros note.
    unfold filterNotes_keep, failsTags, failsQuery, failsPriority, failsCategory,
      failsFavorite.
    cbn [SearchFilters.tags SearchFilters.query SearchFilters.priority
         SearchFilters.category SearchFilters.isFavorite].
    subst current. destruct tags as [ts|]; reflexivity.
  - intros Hnodup.
    destruct (includesTag tag current) eqn:E; cbn [negb SearchFilters.tags default]; unfold id.
    + exact Hnodup.
    + apply List.NoDup_app; [exact Hnodup | repeat constructor; intros [] |].
      intros t Hin [<- | []]. apply includesTag_In in Hin. congruence.
  - destruct (includesTag tag current) eqn:E; cbn [negb SearchFilters.tags default]; unfold id.
    + apply includesTag_In. exact E.
    + apply in_or_app. right. left. reflexivity.
  - cbn [default]. unfold id. intros Hin. apply filter_In in Hin as [_ Hne].
    rewrite String.eqb_refl in Hne. discriminate.
Qed.

Lemma removeTagFilter_addTagFilter_witness :
  let filters := SearchFilters.mk (Some "form") None None None (Some ["urgent"]) in
  SearchFilters.tags (removeTagFilter (addTagFilter filters "react") "react")
  = Some ["urgent"]
  /\ filterNotes sampleNotes (removeTagFilter (addTagFilter filters "react") "react")
     = filterNotes sampleNotes filters.
Proof.
  intros filters.
  apply (proj1 (removeTagFilter_addTagFilter sampleNotes filters "react")).
  intros [H | []]. discriminate.
Defined.

(** ** [noteStorage]: deleting, looking up, saving one after the other *)

Lemma filter_hasId_noteObject id stored :
  List.filter (fun n => negb (hasId id n)) (map noteObject stored)
  = map noteObject (withoutId id stored).
Proof.
  unfold withoutId. induction stored as [|n stored IH]; [reflexivity|].
  cbn [map List.filter]. rewrite hasId_noteObject, IH.
  destruct (String.eqb (Note.id n) id); reflexivity.
Qed.

Lemma find_hasId_noteObject id stored :
  List.find (hasId id) (map noteObject stored)
  = option_map noteObject (firstWithId id stored).
Proof.
  unfold firstWithId. induction stored as [|n stored IH]; [reflexivity|].
  cbn [map List.find]. rewrite hasId_noteObject, IH.
  destruct (String.eqb (Note.id n) id); reflexivity.
Qed.

Lemma firstWithId_withoutId id stored : firstWithId id (withoutId id stored) = None.
Proof.
  unfold firstWithId, withoutId. induction stored as [|n stored IH]; [reflexivity|].
  cbn [List.filter]. destruct (String.eqb (Note.id n) id) eqn:E; cbn [negb]; [exact IH|].
  cbn [List.find]. rewrite E. exact IH.
Qed.

Lemma firstWithId_replaceOrAppend note stored id :
  firstWithId id (replaceOrAppend note stored)
  = if String.eqb (Note.id note) id then Some note else firstWithId id stored.
Proof.
  unfold firstWithId. induction stored as [|n stored IH]; cbn [replaceOrAppend List.find].
  - destruct (String.eqb (Note.id note) id); reflexivity.
  - destruct (String.eqb_spec (Note.id n) (Note.id note)) as [Heq|Hne]; cbn [List.find].
    + rewrite Heq. destruct (String.eqb (Note.id note) id); reflexivity.
    + rewrite IH. destruct (String.eqb_spec (Note.id n) id) as [Hn|Hn]; [|reflexivity].
      destruct (String.eqb_spec (Note.id note) id); [congruence | reflexivity].
Qed.

Lemma Forall_withoutId (P : Note.t -> Prop) id stored :
  Forall P stored -> Forall P (withoutId id stored).
Proof.
  intros H. apply List.Forall_forall. intros n Hin. apply filter_In in Hin as [Hin _].
  revert n Hin. apply List.Forall_forall. exact H.
Qed.

Section NoteStorageMore.

Variable legacyDateParse : string -> option Z.
Variable dateOfObject : json -> outcome (option Z).

Lemma getAllNotes_total st :
  exists notes, getAllNotes legacyDateParse dateOfObject st = Ok notes.
Proof.
  unfold getAllNotes.
  destruct (match Storage.getItem st NOTES_STORAGE_KEY with
            | Some stored =>
                if negb (text_truthy stored) then Ok []
                else JSON_parse stored ≫= mapNotes legacyDateParse dateOfObject
            | None => Ok []
            end) as [notes|e]; [exists notes | exists []]; reflexivity.
Qed.

Lemma getAllNotes_withNotes st notes :
  Forall validNote notes ->
  getAllNotes legacyDateParse dateOfObject (withNotes st notes) = Ok (map noteObject notes).
Proof.
  intros Hvalid. apply getAllNotes_stored; [|exact Hvalid].
  unfold withNotes, Storage.getItem. cbn. apply lookup_insert_eq.
Qed.

Lemma getItem_withNotes st notes key :
  key <> NOTES_STORAGE_KEY ->
  Storage.getItem (withNotes st notes) key = Storage.getItem st key.
Proof.
  intros Hkey. unfold withNotes, Storage.getItem. cbn.
  apply lookup_insert_ne. congruence.
Qed.

Lemma saveNote_stored st stored note :
  Storage.writable st = true ->
  getAllNotes legacyDateParse dateOfObject st = Ok (map noteObject stored) ->
  saveNote legacyDateParse dateOfObject note st
  = Ok (withNotes st (replaceOrAppend note stored)).
Proof.
  intros Hwritable Hstored. unfold saveNote. rewrite Hstored.
  cbn [mbind outcome_bind]. rewrite findIndex_replaceOrAppend.
  unfold Storage.setItem, withNotes. rewrite Hwritable. reflexivity.
Qed.

Lemma deleteNote_stored st stored id :
  Storage.writable st = true ->
  getAllNotes legacyDateParse dateOfObject st = Ok (map noteObject stored) ->
  deleteNote legacyDateParse dateOfObject id st = Ok (withNotes st (withoutId id stored)).
Proof.
  intros Hwritable Hstored. unfold deleteNote. rewrite Hstored.
  cbn [mbind outcome_bind]. rewrite filter_hasId_noteObject.
  unfold Storage.setItem, withNotes. rewrite Hwritable. reflexivity.
Qed.

Lemma saveNote_unwritable st note :
  Storage.writable st = false ->
  saveNote legacyDateParse dateOfObject note st = Throw "Failed to save note".
Proof.
  intros Hwritable. destruct (getAllNotes_total st) as [stored Hstored].
  unfold saveNote. rewrite Hstored. cbn [mbind outcome_bind].
  unfold Storage.setItem. rewrite Hwritable. reflexivity.
Qed.

Lemma deleteNote_unwritable st id :
  Storage.writable st = false ->
  deleteNote legacyDateParse dateOfObject id st = Throw "Failed to delete note".
Proof.
  intros Hwritable. destruct (getAllNotes_total st) as [stored Hstored].
  unfold deleteNote. rewrite Hstored. cbn [mbind outcome_bind].
  unfold Storage.setItem. rewrite Hwritable. reflexivity.
Qed.

(** X11.  On a store that takes writes and holds a collection,
    [deleteNote] succeeds and leaves the notes with another id, in their
    order; every note with the id is gone, so [getNoteById] then finds none.
    What the store holds under other keys stays. *)
Theorem deleteNote_removes (st : Storage.t) (stored : list Note.t) (id : string) :
  Storage.writable st = true ->
  getAllNotes legacyDateParse dateOfObject st = Ok (map noteObject stored) ->
  Forall validNote stored ->
  exists st',
    deleteNote legacyDateParse dateOfObject id st = Ok st'
    /\ getAllNotes legacyDateParse dateOfObject st'
       = Ok (map noteObject (withoutId id stored))
    /\ getNoteById legacyDateParse dateOfObject id st' = Ok None
    /\ (forall key, key <> NOTES_STORAGE_KEY ->
          Storage.getItem st' key = Storage.getItem st key).
Proof.
  intros Hwritable Hstored Hvalid. exists (withNotes st (withoutId id stored)).
  split; [apply deleteNote_stored; assumption|].
  assert (getAllNotes legacyDateParse dateOfObject (withNotes st (withoutId id stored))
          = Ok (map noteObject (withoutId id stored))) as Hafter
    by (apply getAllNotes_withNotes, Forall_withoutId; exact Hvalid).
  split; [exact Hafter|]. split; [|intros key; apply getItem_withNotes].
  unfold getNoteById. rewrite Hafter. cbn [mbind outcome_bind].
  rewrite find_hasId_noteObject, firstWithId_withoutId. reflexivity.
Qed.

(** X12.  After [saveNote] of a note, [getNoteById] with the id of the note
    returns the note as it was saved, and with any other id it returns what
    it returned before; [getNoteById] returns the first stored note with the
    id. *)
Theorem saveNote_getNoteById (st : Storage.t) (stored : list Note.t) (note : Note.t) :
  Storage.writable st = true ->
  getAllNotes legacyDateParse dateOfObject st = Ok (map noteObject stored) ->
  Forall validNote stored ->
  validNote note ->
  exists st',
    saveNote legacyDateParse dateOfObject note st = Ok st'
    /\ getNoteById legacyDateParse dateOfObject (Note.id note) st'
       = Ok (Some (noteObject note))
    /\ (forall id, id <> Note.id note ->
          getNoteById legacyDateParse dateOfObject id st'
          = getNoteById legacyDateParse dateOfObject id st)
    /\ (forall id,
          getNoteById legacyDateParse dateOfObject id st
          = Ok (option_map noteObject (firstWithId id stored))).
Proof.
  intros Hwritable Hstored Hvalid Hnote. exists (withNotes st (replaceOrAppend note stored)).
  split; [apply saveNote_stored; assumption|].
  assert (forall id,
            getNoteById legacyDateParse dateOfObject id
              (withNotes st (replaceOrAppend note stored))
            = Ok (option_map noteObject
                    (if String.eqb (Note.id note) id then Some note
                     else firstWithId id stored))) as Hafter.
  { intros id. unfold getNoteById.
    rewrite getAllNotes_withNotes by (apply Forall_replaceOrAppend; assumption).
    cbn [mbind outcome_bind].
    rewrite find_hasId_noteObject, firstWithId_replaceOrAppend. reflexivity. }
  assert (forall id,
            getNoteById legacyDateParse dateOfObject id st
            = Ok (option_map noteObject (firstWithId id stored))) as Hbefore.
  { intros id. unfold getNoteById. rewrite Hstored. cbn [mbind outcome_bind].
    rewrite find_hasId_noteObject. reflexivity. }
  split; [|split; [|exact Hbefore]].
  - rewrite Hafter, String.eqb_refl. reflexivity.
  - intros id Hid. rewrite Hafter, Hbefore.
    destruct (String.eqb_spec (Note.id note) id); [congruence | reflexivity].
Qed.

(** X13.  Saving notes one after the other, as [loadSampleData] does, on a
    store that takes writes: when the ids of the notes are distinct and none
    is stored yet, all saves succeed and the store then holds the stored
    notes followed by the new ones in the order they were saved, which is
    what [importNotes] of all of them stores. *)
Theorem saveEach_appends (st : Storage.t) (stored notes : list Note.t) :
  Storage.writable st = true ->
  getAllNotes legacyDateParse dateOfObject st = Ok (map noteObject stored) ->
  Forall validNote stored ->
  Forall validNote notes ->
  List.NoDup (map Note.id (stored ++ notes)) ->
  exists st',
    saveEach legacyDateParse dateOfObject notes st = Ok st'
    /\ getAllNotes legacyDateParse dateOfObject st' = Ok (map noteObject (stored ++ notes))
    /\ (exists imported,
          importNotes (stored ++ notes) st = Ok imported
          /\ getAllNotes legacyDateParse dateOfObject imported
             = getAllNotes legacyDateParse dateOfObject st').
Proof.
  intros Hwritable Hstored Hvalid Hnotes Hnodup.
  assert (exists st',
            saveEach legacyDateParse dateOfObject notes st = Ok st'
            /\ getAllNotes legacyDateParse dateOfObject st'
               = Ok (map noteObject (stored ++ notes))) as (st' & Hsave & Hafter).
  { revert st stored Hwritable Hstored Hvalid Hnodup.
    induction Hnotes as [|note notes Hnote _ IH];
      intros st stored Hwritable Hstored Hvalid Hnodup.
    - exists st. rewrite app_nil_r. split; [reflexivity | exact Hstored].
    - cbn [saveEach]. rewrite (saveNote_stored st stored note Hwritable Hstored).
      cbn [mbind outcome_bind].
      assert (replaceOrAppend note stored = stored ++ [note]) as ->.
      { apply replaceOrAppend_fresh. intros Hin.
        rewrite map_app in Hnodup. cbn [map] in Hnodup.
        apply NoDup_remove_2 in Hnodup. apply Hnodup, in_or_app. left. exact Hin. }
      replace (stored ++ note :: notes) with ((stored ++ [note]) ++ notes) in *
        by (rewrite <- app_assoc; reflexivity).
      apply IH.
      + exact Hwritable.
      + apply getAllNotes_withNotes. apply Forall_app. split; [exact Hvalid|].
        constructor; [exact Hnote | constructor].
      + apply Forall_app. split; [exact Hvalid|].
        constructor; [exact Hnote | constructor].
      + exact Hnodup. }
  exists st'. split; [exact Hsave|]. split; [exact Hafter|].
  exists (withNotes st (stored ++ notes)). split.
  - unfold importNotes, Storage.setItem, withNotes. rewrite Hwritable. reflexivity.
  - rewrite Hafter. apply getAllNotes_withNotes. apply Forall_app. split; assumption.
Qed.

(** X14.  After [clearAllNotes] the store holds no note, whatever it held
    and whether it takes writes or not; what it holds under other keys
    stays. *)
Theorem clearAllNotes_empties (st : Storage.t) :
  getAllNotes legacyDateParse dateOfObject (clearAllNotes st) = Ok []
  /\ (forall id, getNoteById legacyDateParse dateOfObject id (clearAllNotes st) = Ok None)
  /\ (forall key, key <> NOTES_STORAGE_KEY ->
        Storage.getItem (clearAllNotes st) key = Storage.getItem st key)
  /\ Storage.writable (clearAllNotes st) = Storage.writable st.
Proof.
  assert (getAllNotes legacyDateParse dateOfObject (clearAllNotes st) = Ok []) as Hempty.
  { unfold getAllNotes, clearAllNotes, Storage.removeItem, Storage.getItem. cbn.
    rewrite lookup_delete_eq. reflexivity. }
  split; [exact Hempty|]. split; [|split; [|reflexivity]].
  - intros id. unfold getNoteById. rewrite Hempty. reflexivity.
  - intros key Hkey. unfold clearAllNotes, Storage.removeItem, Storage.getItem. cbn.
    apply lookup_delete_ne. congruence.
Qed.

(** X15.  On a store that takes no writes, [saveNote], [deleteNote] and
    [importNotes] throw, each with its own message, whatever the store holds
    and whatever they are called with. *)
Theorem writes_throw (st : Storage.t) :
  Storage.writable st = false ->
  (forall note,
     saveNote legacyDateParse dateOfObject note st = Throw "Failed to save note")
  /\ (forall id,
        deleteNote legacyDateParse dateOfObject id st = Throw "Failed to delete note")
  /\ (forall notes, importNotes notes st = Throw "Failed to import notes").
Proof.
  intros Hwritable. split; [|split].
  - intros note. apply saveNote_unwritable. exact Hwritable.
  - intros id. apply deleteNote_unwritable. exact Hwritable.
  - intros notes. unfold importNotes, Storage.setItem. rewrite Hwritable. reflexivity.
Qed.

End NoteStorageMore.

Lemma deleteNote_removes_witness :
  exists st',
    deleteNote (fun _ => None) (fun _ => Ok None) (Note.id bugNote)
      (storageWith (JSON_stringify (map noteObject sampleNotes))) = Ok st'
    /\ getAllNotes (fun _ => None) (fun _ => Ok None) st'
       = Ok (map noteObject (withoutId (Note.id bugNote) sampleNotes))
    /\ getNoteById (fun _ => None) (fun _ => Ok None) (Note.id bugNote) st' = Ok None
    /\ (forall key, key <> NOTES_STORAGE_KEY ->
          Storage.getItem st' key
          = Storage.getItem (storageWith (JSON_stringify (map noteObject sampleNotes))) key).
Proof.
  apply (deleteNote_removes (fun _ => None) (fun _ => Ok None)
           (storageWith (JSON_stringify (map noteObject sampleNotes))) sampleNotes
           (Note.id bugNote)).
  - reflexivity.
  - vm_compute. reflexivity.
  - repeat constructor; vm_compute; discriminate.
Defined.

Lemma saveNote_getNoteById_witness :
  let edited := toggledNote bugNote (sampleInstant + 60000) in
  let st := storageWith (JSON_stringify (map noteObject sampleNotes)) in
  exists st',
    saveNote (fun _ => None) (fun _ => Ok None) edited st = Ok st'
    /\ getNoteById (fun _ => None) (fun _ => Ok None) (Note.id edited) st'
       = Ok (Some (noteObject edited))
    /\ (forall id, id <> Note.id edited ->
          getNoteById (fun _ => None) (fun _ => Ok None) id st'
          = getNoteById (fun _ => None) (fun _ => Ok None) id st)
    /\ (forall id,
          getNoteById (fun _ => None) (fun _ => Ok None) id st
          = Ok (option_map noteObject (firstWithId id sampleNotes))).
Proof.
  intros edited st.
  apply (saveNote_getNoteById (fun _ => None) (fun _ => Ok None) st sampleNotes edited).
  - reflexivity.
  - vm_compute. reflexivity.
  - repeat constructor; vm_compute; discriminate.
  - repeat constructor; vm_compute; discriminate.
Defined.

Lemma saveEach_appends_witness :
  exists st',
    saveEach (fun _ => None) (fun _ => Ok None) sampleNotes emptyStorage = Ok st'
    /\ getAllNotes (fun _ => None) (fun _ => Ok None) st'
       = Ok (map noteObject ([] ++ sampleNotes))
    /\ (exists imported,
          importNotes ([] ++ sampleNotes) emptyStorage = Ok imported
          /\ getAllNotes (fun _ => None) (fun _ => Ok None) imported
             = getAllNotes (fun _ => None) (fun _ => Ok None) st').
Proof.
  apply (saveEach_appends (fun _ => None) (fun _ => Ok None) emptyStorage [] sampleNotes).
  - reflexivity.
  - reflexivity.
  - constructor.
  - repeat constructor; vm_compute; discriminate.
  - repeat (constructor; [cbn; intuition discriminate|]). constructor.
Defined.

Lemma writes_throw_witness :
  saveNote (fun _ => None) (fun _ => Ok None) bugNote
    (Storage.mk {[ NOTES_STORAGE_KEY := JSON_stringify (map noteObject sampleNotes) ]} false)
  = Throw "Failed to save note".
Proof.
  apply (proj1 (writes_throw (fun _ => None) (fun _ => Ok None)
                  (Storage.mk {[ NOTES_STORAGE_KEY :=
                                   JSON_stringify (map noteObject sampleNotes) ]} false)
                  eq_refl)).
Defined.

(** ** [storageUtils.isStorageAvailable] and [categoryStorage] *)

(** X16.  [isStorageAvailable] never throws and answers whether the store
    takes writes.  The probe leaves the store as it was under every other
    key, so the notes read the same after it; on a store that takes writes
    nothing is left under the key of the probe, not even what was there
    before. *)
Theorem isStorageAvailable_probe (legacyDateParse : string -> option Z)
    (dateOfObject : json -> outcome (option Z)) (st : Storage.t) :
  fst (isStorageAvailable st) = Storage.writable st
  /\ Storage.writable (snd (isStorageAvailable st)) = Storage.writable st
  /\ (forall key, key <> "storage-test" ->
        Storage.getItem (snd (isStorageAvailable st)) key = Storage.getItem st key)
  /\ Storage.getItem (snd (isStorageAvailable st)) "storage-test"
     = (if Storage.writable st then None else Storage.getItem st "storage-test")
  /\ getAllNotes legacyDateParse dateOfObject (snd (isStorageAvailable st))
     = getAllNotes legacyDateParse dateOfObject st.
Proof.
  assert (forall key, key <> "storage-test" ->
            Storage.getItem (snd (isStorageAvailable st)) key = Storage.getItem st key)
    as Hframe.
  { intros key Hkey. unfold isStorageAvailable, Storage.setItem, Storage.getItem.
    destruct (Storage.writable st); cbn; [|reflexivity].
    rewrite lookup_delete_ne, lookup_insert_ne by congruence. reflexivity. }
  unfold getAllNotes. rewrite (Hframe NOTES_STORAGE_KEY) by discriminate.
  repeat split; try exact Hframe.
  all: unfold isStorageAvailable, Storage.setItem, Storage.getItem.
  all: destruct (Storage.writable st) eqn:E; cbn; try reflexivity; try exact E.
  apply lookup_delete_eq.
Qed.

(** A parsed document comes back from [JSON.stringify] as it is. *)
Lemma toJSON_ofJSON : forall j, toJSON (ofJSON j) = Some j.
Proof.
  fix IH 1. intros [| b | n | s | items | members]; cbn [ofJSON toJSON]; try reflexivity.
  - do 2 f_equal. induction items as [|item items IHitems]; [reflexivity|].
    cbn [map]. rewrite IH, IHitems. reflexivity.
  - do 2 f_equal. induction members as [|[k v] members IHmembers]; [reflexivity|].
    cbn [map fst snd]. rewrite IH, IHmembers. reflexivity.
Qed.

Lemma stringify_items items v :
  JSON_stringify (map ofJSON items ++ [VStr v]) = JSONText (JArr (items ++ [JStr v])).
Proof.
  unfold JSON_stringify. do 2 f_equal. rewrite map_app. cbn [map toJSON default].
  f_equal. induction items as [|item items IH]; [reflexivity|].
  cbn [map]. rewrite toJSON_ofJSON, IH. reflexivity.
Qed.

Lemma categoriesInclude_defaults c :
  categoriesInclude (categoriesJSON DEFAULT_CATEGORIES) (categoryId c) = Ok true.
Proof. destruct c; reflexivity. Qed.

Lemma categoriesInclude_In items category :
  categoriesInclude (JArr items) category = Ok true <-> In (JStr category) items.
Proof.
  cbn [categoriesInclude]. split.
  - intros [= H]. apply existsb_exists in H as [item [Hin Heq]].
    destruct item; try discriminate. apply String.eqb_eq in Heq. subst. exact Hin.
  - intros Hin. f_equal. apply existsb_exists. exists (JStr category).
    split; [exact Hin | apply String.eqb_refl].
Qed.

(** [addCategory], case by case. *)
Lemma addCategory_cases c st :
  addCategory c st =
  match Storage.getItem st CATEGORIES_STORAGE_KEY with
  | Some (JSONText (JArr items)) =>
      match categoriesInclude (JArr items) (categoryId c) with
      | Ok false =>
          if Storage.writable st then
            Storage.mk
              (<[CATEGORIES_STORAGE_KEY := JSONText (JArr (items ++ [JStr (categoryId c)]))]>
                 (Storage.items st))
              (Storage.writable st)
          else st
      | _ => st
      end
  | _ => st
  end.
Proof.
  unfold addCategory, getAllCategories.
  destruct (Storage.getItem st CATEGORIES_STORAGE_KEY) as [[| |document]|];
    cbn [text_truthy JSON_parse tryCatch]; try (rewrite categoriesInclude_defaults; reflexivity).
  destruct document as [| b | n | s | items | members]; try reflexivity.
  - cbn [categoriesInclude mbind outcome_bind]. destruct (JS.includes s (categoryId c)); reflexivity.
  - destruct (categoriesInclude (JArr items) (categoryId c)) as [[]|e] eqn:E;
      cbn [mbind outcome_bind negb tryCatch]; try reflexivity.
    rewrite stringify_items. unfold Storage.setItem.
    destruct (Storage.writable st); reflexivity.
Qed.

(** X17.  A store without stored categories, or with an empty or
    unreadable text in their place, gives the five default categories, and
    [addCategory] of any category leaves such a store as it is: every
    category is among the defaults, so nothing is added to them and nothing
    is written.  The same holds for a stored document that is no array. *)
Theorem addCategory_defaults (st : Storage.t) :
  (forall items,
     Storage.getItem st CATEGORIES_STORAGE_KEY <> Some (JSONText (JArr items))) ->
  (forall c, addCategory c st = st)
  /\ ((forall document,
         Storage.getItem st CATEGORIES_STORAGE_KEY <> Some (JSONText document)) ->
      getAllCategories st = categoriesJSON DEFAULT_CATEGORIES
      /\ forall c, categoriesInclude (getAllCategories st) (categoryId c) = Ok true).
Proof.
  intros Hstored. split.
  - intros c. rewrite addCategory_cases.
    destruct (Storage.getItem st CATEGORIES_STORAGE_KEY) as [[| |[| | | |items|]]|];
      try reflexivity.
    contradiction (Hstored items). reflexivity.
  - intros Hdocument.
    assert (getAllCategories st = categoriesJSON DEFAULT_CATEGORIES) as ->.
    { unfold getAllCategories.
      destruct (Storage.getItem st CATEGORIES_STORAGE_KEY) as [[| |document]|];
        try reflexivity.
      contradiction (Hdocument document). reflexivity. }
    split; [reflexivity | apply categoriesInclude_defaults].
Qed.

Lemma addCategory_defaults_witness :
  (forall c, addCategory c emptyStorage = emptyStorage)
  /\ getAllCategories (storageWith NotJSON) = categoriesJSON DEFAULT_CATEGORIES.
Proof.
  split.
  - apply (proj1 (addCategory_defaults emptyStorage
                    (fun items H => ltac:(discriminate H)))).
  - apply (proj2 (addCategory_defaults (storageWith NotJSON)
                    (fun items H => ltac:(discriminate H)))).
    intros document H. discriminate H.
Defined.

(** X18.  [addCategory] never throws.  On a stored array it adds the
    category at the end when the array does not have it and the store takes
    the write, and changes nothing otherwise; adding a category twice is
    adding it once.  It changes nothing under any other key, so the notes
    stay as they are. *)
Theorem addCategory_stored (legacyDateParse : string -> option Z)
    (dateOfObject : json -> outcome (option Z)) (c : Category) (st : Storage.t) :
  (forall items,
     Storage.getItem st CATEGORIES_STORAGE_KEY = Some (JSONText (JArr items)) ->
     (In (JStr (categoryId c)) items \/ Storage.writable st = false ->
      getAllCategories (addCategory c st) = JArr items)
     /\ (~ In (JStr (categoryId c)) items -> Storage.writable st = true ->
         getAllCategories (addCategory c st) = JArr (items ++ [JStr (categoryId c)])))
  /\ addCategory c (addCategory c st) = addCategory c st
  /\ (forall key, key <> CATEGORIES_STORAGE_KEY ->
        Storage.getItem (addCategory c st) key = Storage.getItem st key)
  /\ getAllNotes legacyDateParse dateOfObject (addCategory c st)
     = getAllNotes legacyDateParse dateOfObject st.
Proof.
  assert (forall key, key <> CATEGORIES_STORAGE_KEY ->
            Storage.getItem (addCategory c st) key = Storage.getItem st key) as Hframe.
  { intros key Hkey. rewrite addCategory_cases.
    destruct (Storage.getItem st CATEGORIES_STORAGE_KEY) as [[| |[| | | |items|]]|];
      try reflexivity.
    destruct (categoriesInclude (JArr items) (categoryId c)) as [[]|e]; try reflexivity.
    destruct (Storage.writable st); [|reflexivity].
    unfold Storage.getItem. cbn. apply lookup_insert_ne. congruence. }
  split; [|split; [|split; [exact Hframe|]]].
  - intros items Hitems. rewrite addCategory_cases, Hitems.
    assert (getAllCategories st = JArr items) as Hbefore
      by (unfold getAllCategories; rewrite Hitems; reflexivity).
    destruct (categoriesInclude (JArr items) (categoryId c)) as [[]|e] eqn:E;
      [| |discriminate E].
    + apply categoriesInclude_In in E. split; [intros _; exact Hbefore|].
      intros Hnotin. contradiction.
    + assert (~ In (JStr (categoryId c)) items) as Hnotin.
      { intros Hin. apply categoriesInclude_In in Hin. congruence. }
      split.
      * intros [Hin | ->]; [contradiction | exact Hbefore].
      * intros _ ->. unfold getAllCategories, Storage.getItem. cbn [Storage.items].
        rewrite lookup_insert_eq. reflexivity.
  - rewrite (addCategory_cases c st).
    destruct (Storage.getItem st CATEGORIES_STORAGE_KEY) as [[| |[| | | |items|]]|] eqn:Hget;
      try (rewrite addCategory_cases, Hget; reflexivity).
    destruct (categoriesInclude (JArr items) (categoryId c)) as [[]|e] eqn:E;
      try (rewrite addCategory_cases, Hget, E; reflexivity).
    destruct (Storage.writable st) eqn:Hwritable;
      [|rewrite addCategory_cases, Hget, E, Hwritable; reflexivity].
    rewrite addCategory_cases. unfold Storage.getItem. cbn [Storage.items].
    rewrite lookup_insert_eq.
    assert (categoriesInclude (JArr (items ++ [JStr (categoryId c)])) (categoryId c)
            = Ok true) as ->; [|reflexivity].
    apply categoriesInclude_In, in_or_app. right. left. reflexivity.
  - unfold getAllNotes. rewrite (Hframe NOTES_STORAGE_KEY) by discriminate. reflexivity.
Qed.

Lemma addCategory_stored_witness :
  let st := Storage.mk {[ CATEGORIES_STORAGE_KEY := JSONText (JArr [JStr "bug"]) ]} true in
  getAllCategories (addCategory meeting st) = JArr [JStr "bug"; JStr "meeting"]
  /\ getAllCategories (addCategory bug st) = JArr [JStr "bug"].
Proof.
  intros st. split.
  - apply (proj1 (addCategory_stored (fun _ => None) (fun _ => Ok None) meeting st)
             [JStr "bug"] eq_refl).
    + intros [H | []]. discriminate H.
    + reflexivity.
  - apply (proj1 (addCategory_stored (fun _ => None) (fun _ => Ok None) bug st)
             [JStr "bug"] eq_refl).
    left. left. reflexivity.
Defined.

(** ** [NotesApp]: the notes in memory and the notes in the store *)

Lemma some_id_In id notes :
  JS.some (fun n => String.eqb (Note.id n) id) notes = true <-> In id (map Note.id notes).
Proof.
  unfold JS.some. rewrite existsb_exists, in_map_iff. split.
  - intros [n [Hin Heq]]. apply String.eqb_eq in Heq. exists n. split; assumption.
  - intros [n [Heq Hin]]. exists n. split; [exact Hin | apply String.eqb_eq; exact Heq].
Qed.

Lemma map_replace_replaceOrAppend notes note :
  List.NoDup (map Note.id notes) ->
  In (Note.id note) (map Note.id notes) ->
  map (fun n => if String.eqb (Note.id n) (Note.id note) then note else n) notes
  = replaceOrAppend note notes.
Proof.
  induction notes as [|n notes IH]; [intros _ []|].
  cbn [map replaceOrAppend]. intros Hnodup Hin.
  apply NoDup_cons_iff in Hnodup as [Hnotin Hnodup].
  destruct (String.eqb_spec (Note.id n) (Note.id note)) as [Heq|Hne].
  - f_equal. rewrite <- (map_id notes) at 2. apply map_ext_in. intros m Hm.
    destruct (String.eqb_spec (Note.id m) (Note.id note)) as [Hm'|]; [|reflexivity].
    contradiction Hnotin. rewrite Heq, <- Hm'. apply in_map. exact Hm.
  - f_equal. apply IH; [exact Hnodup|]. destruct Hin as [Hin|Hin]; [contradiction | exact Hin].
Qed.

(** With one note for each id, the update of the notes in memory is the
    update of the store. *)
Lemma updatedNotes_replaceOrAppend notes note :
  List.NoDup (map Note.id notes) -> updatedNotes notes note = replaceOrAppend note notes.
Proof.
  intros Hnodup. unfold updatedNotes.
  destruct (JS.some _ notes) eqn:Hsome.
  - apply map_replace_replaceOrAppend; [exact Hnodup|]. apply some_id_In. exact Hsome.
  - symmetry. apply replaceOrAppend_fresh. intros Hin.
    apply some_id_In in Hin. congruence.
Qed.

Lemma map_id_replaceOrAppend note stored :
  map Note.id (replaceOrAppend note stored)
  = if JS.some (fun n => String.eqb (Note.id n) (Note.id note)) stored
    then map Note.id stored else map Note.id stored ++ [Note.id note].
Proof.
  induction stored as [|n stored IH]; [reflexivity|].
  cbn [replaceOrAppend JS.some existsb map].
  destruct (String.eqb_spec (Note.id n) (Note.id note)) as [Heq|Hne]; cbn [orb map].
  - rewrite Heq. reflexivity.
  - rewrite IH. unfold JS.some. destruct (existsb _ stored); reflexivity.
Qed.

Lemma NoDup_replaceOrAppend note stored :
  List.NoDup (map Note.id stored) -> List.NoDup (map Note.id (replaceOrAppend note stored)).
Proof.
  intros Hnodup. rewrite map_id_replaceOrAppend.
  destruct (JS.some _ stored) eqn:Hsome; [exact Hnodup|].
  apply List.NoDup_app; [exact Hnodup | repeat constructor; intros [] |].
  intros id Hin [<- | []]. apply some_id_In in Hin. congruence.
Qed.

Lemma withoutId_absent id notes : firstWithId id notes = None -> withoutId id notes = notes.
Proof.
  unfold firstWithId, withoutId. induction notes as [|n notes IH]; [reflexivity|].
  cbn [List.find List.filter]. destruct (String.eqb (Note.id n) id); [discriminate|].
  intros H. cbn [negb]. f_equal. apply IH. exact H.
Qed.

Section NotesAppProperties.

Variable legacyDateParse : string -> option Z.
Variable dateOfObject : json -> outcome (option Z).

(** X19.  [handleSaveNote] keeps the notes in memory and the notes in the
    store the same, as long as no two notes share an id: on a store that
    takes writes both are updated in the same way (the note with the id is
    replaced in its place, or the note is added at the end), and when the
    save throws neither is changed.  Ids stay distinct. *)
Theorem handleSaveNote_InSync (app : AppState.t) (note : Note.t) :
  InSync legacyDateParse dateOfObject app ->
  Forall validNote (AppState.notes app) ->
  List.NoDup (map Note.id (AppState.notes app)) ->
  validNote note ->
  InSync legacyDateParse dateOfObject (handleSaveNote legacyDateParse dateOfObject note app)
  /\ Forall validNote
       (AppState.notes (handleSaveNote legacyDateParse dateOfObject note app))
  /\ List.NoDup
       (map Note.id (AppState.notes (handleSaveNote legacyDateParse dateOfObject note app)))
  /\ AppState.notes (handleSaveNote legacyDateParse dateOfObject note app)
     = (if Storage.writable (AppState.storage app)
        then replaceOrAppend note (AppState.notes app) else AppState.notes app)
  /\ (Storage.writable (AppState.storage app) = false ->
      handleSaveNote legacyDateParse dateOfObject note app = app).
Proof.
  intros Hsync Hvalid Hnodup Hnote. unfold InSync in *. unfold handleSaveNote.
  destruct (Storage.writable (AppState.storage app)) eqn:Hwritable.
  - rewrite (saveNote_stored legacyDateParse dateOfObject _ _ note Hwritable Hsync).
    cbn [AppState.notes AppState.storage].
    rewrite updatedNotes_replaceOrAppend by exact Hnodup.
    split; [|split; [|split; [|split]]].
    + apply getAllNotes_withNotes, Forall_replaceOrAppend; assumption.
    + apply Forall_replaceOrAppend; assumption.
    + apply NoDup_replaceOrAppend. exact Hnodup.
    + reflexivity.
    + discriminate.
  - rewrite (saveNote_unwritable legacyDateParse dateOfObject _ note Hwritable).
    repeat split; assumption.
Qed.

(** X20.  [handleDeleteNote] keeps the notes in memory and the notes in the
    store the same.  A note of high priority or a favorite is deleted only
    when the user confirms; when the user confirms, or no confirmation is
    asked for, and the store takes writes, every note with the id is removed
    from both; when the store throws, nothing changes. *)
Theorem handleDeleteNote_InSync (app : AppState.t) (id : string) (confirmed : bool) :
  InSync legacyDateParse dateOfObject app ->
  Forall validNote (AppState.notes app) ->
  InSync legacyDateParse dateOfObject
    (handleDeleteNote legacyDateParse dateOfObject id confirmed app)
  /\ Forall validNote
       (AppState.notes (handleDeleteNote legacyDateParse dateOfObject id confirmed app))
  /\ (forall note,
        firstWithId id (AppState.notes app) = Some note ->
        Note.priority note = high \/ Note.isFavorite note = true ->
        handleDeleteNote legacyDateParse dateOfObject id false app = app)
  /\ (Storage.writable (AppState.storage app) = true ->
      (confirmed = true
       \/ forall note, firstWithId id (AppState.notes app) = Some note ->
                       Note.priority note <> high /\ Note.isFavorite note = false) ->
      AppState.notes (handleDeleteNote legacyDateParse dateOfObject id confirmed app)
      = withoutId id (AppState.notes app))
  /\ (Storage.writable (AppState.storage app) = false ->
      handleDeleteNote legacyDateParse dateOfObject id confirmed app = app).
Proof.
  intros Hsync Hvalid. unfold InSync in *.
  assert (forall answer note,
            firstWithId id (AppState.notes app) = Some note ->
            Storage.writable (AppState.storage app) = true ->
            (bool_decide (Note.priority note = high) || Note.isFavorite note) && negb answer
            = false ->
            handleDeleteNote legacyDateParse dateOfObject id answer app
            = AppState.mk (withoutId id (AppState.notes app))
                (withNotes (AppState.storage app) (withoutId id (AppState.notes app))))
    as Hdelete.
  { intros answer note Hfind Hwritable Hask. unfold handleDeleteNote.
    unfold firstWithId in Hfind. rewrite Hfind, Hask.
    rewrite (deleteNote_stored legacyDateParse dateOfObject _ _ id Hwritable Hsync).
    reflexivity. }
  assert (Storage.writable (AppState.storage app) = false ->
          forall answer, handleDeleteNote legacyDateParse dateOfObject id answer app = app)
    as Hthrow.
  { intros Hwritable answer. unfold handleDeleteNote.
    destruct (List.find _ _) as [note|]; [|reflexivity].
    destruct (_ && _); [reflexivity|].
    rewrite (deleteNote_unwritable legacyDateParse dateOfObject _ id Hwritable).
    reflexivity. }
  assert (firstWithId id (AppState.notes app) = None ->
          forall answer, handleDeleteNote legacyDateParse dateOfObject id answer app = app)
    as Hnone.
  { intros Hfind answer. unfold handleDeleteNote. unfold firstWithId in Hfind.
    rewrite Hfind. reflexivity. }
  assert (forall answer,
            handleDeleteNote legacyDateParse dateOfObject id answer app = app
            \/ handleDeleteNote legacyDateParse dateOfObject id answer app
               = AppState.mk (withoutId id (AppState.notes app))
                   (withNotes (AppState.storage app) (withoutId id (AppState.notes app))))
    as Hcases.
  { intros answer.
    destruct (firstWithId id (AppState.notes app)) as [note|] eqn:Hfind;
      [|left; apply Hnone; reflexivity].
    destruct (Storage.writable (AppState.storage app)) eqn:Hwritable;
      [|left; apply Hthrow; reflexivity].
    destruct ((bool_decide (Note.priority note = high) || Note.isFavorite note)
              && negb answer) eqn:Hask.
    - left. unfold handleDeleteNote. unfold firstWithId in Hfind.
      rewrite Hfind, Hask. reflexivity.
    - right. apply (Hdelete answer note); (reflexivity || assumption). }
  split; [|split; [|split; [|split]]].
  - destruct (Hcases confirmed) as [-> | ->]; [exact Hsync|].
    cbn [AppState.notes AppState.storage].
    apply getAllNotes_withNotes, Forall_withoutId. exact Hvalid.
  - destruct (Hcases confirmed) as [-> | ->]; [exact Hvalid|].
    cbn [AppState.notes]. apply Forall_withoutId. exact Hvalid.
  - intros note Hfind Himportant. unfold handleDeleteNote.
    unfold firstWithId in Hfind. rewrite Hfind.
    assert (bool_decide (Note.priority note = high) || Note.isFavorite note = true) as ->;
      [|reflexivity].
    destruct Himportant as [-> | ->]; [reflexivity | apply orb_true_r].
  - intros Hwritable Hgo.
    destruct (firstWithId id (AppState.notes app)) as [note|] eqn:Hfind.
    + rewrite (Hdelete confirmed note eq_refl Hwritable); [reflexivity|].
      destruct Hgo as [-> | Hplain]; [apply andb_false_r|].
      destruct (Hplain note eq_refl) as [Hp ->].
      rewrite (bool_decide_eq_false_2 _ Hp). reflexivity.
    + rewrite (Hnone eq_refl). symmetry. apply withoutId_absent. exact Hfind.
  - intros Hwritable. apply Hthrow. exact Hwritable.
Qed.

End NotesAppProperties.

Lemma handleSaveNote_InSync_witness :
  let edited := toggledNote bugNote (sampleInstant + 60000) in
  let app := handleSaveNote (fun _ => None) (fun _ => Ok None) edited sampleApp in
  InSync (fun _ => None) (fun _ => Ok None) app
  /\ AppState.notes app = [welcomeNote; edited; learningNote].
Proof.
  intros edited app.
  destruct (handleSaveNote_InSync (fun _ => None) (fun _ => Ok None) sampleApp edited)
    as (Hsync & _ & _ & Hnotes & _).
  - vm_compute. reflexivity.
  - repeat constructor; vm_compute; discriminate.
  - repeat (constructor; [cbn; intuition discriminate|]). constructor.
  - repeat constructor; vm_compute; discriminate.
  - split; [exact Hsync | exact Hnotes].
Defined.

Lemma handleDeleteNote_InSync_witness :
  handleDeleteNote (fun _ => None) (fun _ => Ok None) (Note.id bugNote) false sampleApp
  = sampleApp
  /\ AppState.notes
       (handleDeleteNote (fun _ => None) (fun _ => Ok None) (Note.id bugNote) true sampleApp)
     = [welcomeNote; learningNote].
Proof.
  split.
  - destruct (handleDeleteNote_InSync (fun _ => None) (fun _ => Ok None) sampleApp
                (Note.id bugNote) false) as (_ & _ & Hasked & _).
    + vm_compute. reflexivity.
    + repeat constructor; vm_compute; discriminate.
    + apply (Hasked bugNote); [reflexivity | left; reflexivity].
  - destruct (handleDeleteNote_InSync (fun _ => None) (fun _ => Ok None) sampleApp
                (Note.id bugNote) true) as (_ & _ & _ & Hdeleted & _).
    + vm_compute. reflexivity.
    + repeat constructor; vm_compute; discriminate.
    + rewrite Hdeleted; [reflexivity | reflexivity | left; reflexivity].
Defined.

(** ** Text, by its characters *)

Lemma chars_app s t : chars (s +:+ t) = chars s ++ chars t.
Proof. induction s as [|c s IH]; [reflexivity|]. rewrite app_String. cbn. f_equal. exact IH. Qed.

Lemma chars_inj s t : chars s = chars t -> s = t.
Proof.
  revert t. induction s as [|c s IH]; intros [|d t] H; try discriminate; [reflexivity|].
  cbn in H. injection H as -> H. f_equal. apply IH. exact H.
Qed.

Lemma chars_rev_app s t : chars (String.rev_app s t) = rev (chars s) ++ chars t.
Proof.
  revert t. induction s as [|c s IH]; intros t; [reflexivity|].
  cbn [String.rev_app chars rev]. rewrite IH, <- app_assoc. reflexivity.
Qed.

Lemma chars_rev s : chars (String.rev s) = rev (chars s).
Proof. unfold String.rev. rewrite chars_rev_app. apply app_nil_r. Qed.

Lemma rev_rev s : String.rev (String.rev s) = s.
Proof. apply chars_inj. rewrite !chars_rev. apply rev_involutive. Qed.

Lemma rev_snoc s c : String.rev (s +:+ String c EmptyString) = String c (String.rev s).
Proof.
  apply chars_inj. cbn [chars]. rewrite !chars_rev, chars_app. cbn [chars].
  apply rev_unit.
Qed.

Lemma rev_String c s : String.rev (String c s) = String.rev s +:+ String c EmptyString.
Proof. apply chars_inj. rewrite chars_app, !chars_rev. reflexivity. Qed.

Lemma length_chars s : String.length s = length (chars s).
Proof. induction s as [|c s IH]; [reflexivity|]. cbn. f_equal. exact IH. Qed.

Lemma length_rev s : String.length (String.rev s) = String.length s.
Proof. rewrite !length_chars, chars_rev. apply length_rev. Qed.

Lemma length_app s t : String.length (s +:+ t) = (String.length s + String.length t)%nat.
Proof. rewrite !length_chars, chars_app. apply length_app. Qed.

Lemma chars_toLowerCase s : chars (JS.toLowerCase s) = map JS.toLowerChar (chars s).
Proof. induction s as [|c s IH]; [reflexivity|]. cbn. f_equal. exact IH. Qed.

(** *** [trim] *)

Lemma trimStart_nonspace c s :
  Ascii.is_space c = false -> JS.trimStart (String c s) = String c s.
Proof. intros H. cbn [JS.trimStart]. rewrite H. reflexivity. Qed.

Lemma trimStart_head s :
  JS.trimStart s = EmptyString
  \/ exists c r, JS.trimStart s = String c r /\ Ascii.is_space c = false.
Proof.
  induction s as [|c s IH]; [left; reflexivity|].
  cbn [JS.trimStart]. destruct (Ascii.is_space c) eqn:E; [exact IH|].
  right. exists c, s. split; [reflexivity | exact E].
Qed.

Lemma trimStart_idem s : JS.trimStart (JS.trimStart s) = JS.trimStart s.
Proof.
  destruct (trimStart_head s) as [-> | (c & r & -> & Hc)]; [reflexivity|].
  apply trimStart_nonspace. exact Hc.
Qed.

Lemma trimStart_length s : (String.length (JS.trimStart s) <= String.length s)%nat.
Proof.
  induction s as [|c s IH]; [reflexivity|].
  cbn [JS.trimStart]. destruct (Ascii.is_space c); cbn [String.length]; lia.
Qed.

Lemma trimStart_blank s : JS.trimStart s = EmptyString <-> blank s.
Proof.
  unfold blank. induction s as [|c s IH]; [split; [constructor | reflexivity]|].
  cbn [JS.trimStart chars]. destruct (Ascii.is_space c) eqn:E.
  - rewrite IH. split; [intros H; constructor; assumption | intros H; inversion H; assumption].
  - split; [discriminate | intros H; inversion H; congruence].
Qed.

Lemma trimStart_snoc a c :
  Ascii.is_space c = false ->
  JS.trimStart (a +:+ String c EmptyString) = JS.trimStart a +:+ String c EmptyString.
Proof.
  intros Hc. induction a as [|b a IH].
  - rewrite app_Empty. cbn [JS.trimStart]. rewrite Hc. reflexivity.
  - rewrite app_String. cbn [JS.trimStart]. destruct (Ascii.is_space b); [exact IH|].
    reflexivity.
Qed.

Lemma trimEnd_String c r :
  Ascii.is_space c = false -> JS.trimEnd (String c r) = String c (JS.trimEnd r).
Proof.
  intros Hc. unfold JS.trimEnd.
  rewrite rev_String, trimStart_snoc by exact Hc. apply rev_snoc.
Qed.

Lemma trimEnd_length s : (String.length (JS.trimEnd s) <= String.length s)%nat.
Proof.
  unfold JS.trimEnd. rewrite length_rev.
  etransitivity; [apply trimStart_length|]. rewrite length_rev. reflexivity.
Qed.

Lemma trimEnd_idem s : JS.trimEnd (JS.trimEnd s) = JS.trimEnd s.
Proof. unfold JS.trimEnd. rewrite rev_rev, trimStart_idem. reflexivity. Qed.

Lemma blank_rev s : blank (String.rev s) <-> blank s.
Proof.
  unfold blank. rewrite chars_rev. split; intros H.
  - rewrite <- (rev_involutive (chars s)). apply Forall_rev. exact H.
  - apply Forall_rev. exact H.
Qed.

Lemma trim_length s : (String.length (JS.trim s) <= String.length s)%nat.
Proof.
  unfold JS.trim. etransitivity; [apply trimEnd_length | apply trimStart_length].
Qed.

Lemma trim_idem s : JS.trim (JS.trim s) = JS.trim s.
Proof.
  unfold JS.trim.
  assert (JS.trimStart (JS.trimEnd (JS.trimStart s)) = JS.trimEnd (JS.trimStart s)) as ->.
  { destruct (trimStart_head s) as [-> | (c & r & -> & Hc)]; [reflexivity|].
    rewrite trimEnd_String by exact Hc. apply trimStart_nonspace. exact Hc. }
  apply trimEnd_idem.
Qed.

Lemma trim_blank s : JS.trim s = EmptyString <-> blank s.
Proof.
  unfold JS.trim, JS.trimEnd. split.
  - intros H. apply (f_equal String.rev) in H. rewrite rev_rev in H. cbn in H.
    apply trimStart_blank in H. apply (proj1 (blank_rev _)) in H.
    destruct (trimStart_head s) as [Hs | (c & r & Hs & Hc)].
    + apply trimStart_blank. exact Hs.
    + rewrite Hs in H. unfold blank in H. cbn [chars] in H. inversion H. congruence.
  - intros H. apply trimStart_blank in H. rewrite H. reflexivity.
Qed.

(** Text without white space at either end is trimmed already. *)
Lemma trim_spacefree s :
  Forall (fun c => Ascii.is_space c = false) (chars s) -> JS.trim s = s.
Proof.
  intros H. unfold JS.trim, JS.trimEnd.
  assert (forall t, Forall (fun c => Ascii.is_space c = false) (chars t) ->
                    JS.trimStart t = t) as Hstart.
  { intros [|c t] Ht; [reflexivity|]. inversion Ht. apply trimStart_nonspace. assumption. }
  rewrite (Hstart s H), Hstart; [apply rev_rev|].
  rewrite chars_rev. apply Forall_rev. exact H.
Qed.

(** ** [parseTags] *)

Ltac each_char c := destruct c as [[] [] [] [] [] [] [] []]; reflexivity.

Lemma toLowerChar_idem c : JS.toLowerChar (JS.toLowerChar c) = JS.toLowerChar c.
Proof. each_char c. Qed.

Lemma isTagSeparator_toLowerChar c : isTagSeparator (JS.toLowerChar c) = isTagSeparator c.
Proof. each_char c. Qed.

Lemma toLowerCase_idem s : JS.toLowerCase (JS.toLowerCase s) = JS.toLowerCase s.
Proof.
  induction s as [|c s IH]; [reflexivity|]. cbn. rewrite toLowerChar_idem, IH. reflexivity.
Qed.

Lemma sepFree_toLowerCase s : sepFree s -> sepFree (JS.toLowerCase s).
Proof.
  unfold sepFree. rewrite chars_toLowerCase. intros H. apply Forall_map.
  eapply Forall_impl; [exact H|]. intros c Hc. cbn. rewrite isTagSeparator_toLowerChar.
  exact Hc.
Qed.

Lemma sepFree_spacefree s :
  sepFree s -> Forall (fun c => Ascii.is_space c = false) (chars s).
Proof.
  intros H. eapply Forall_impl; [exact H|]. intros c Hc. unfold isTagSeparator in Hc.
  apply orb_false_iff in Hc as [_ Hc]. exact Hc.
Qed.

Lemma sepFree_rev s : sepFree s -> sepFree (String.rev s).
Proof. unfold sepFree. rewrite chars_rev. apply Forall_rev. Qed.

(** The pieces of [split] have no separator in them. *)
Lemma split_go_sepFree cur inSeparator s :
  sepFree cur -> Forall sepFree (split_go cur inSeparator s).
Proof.
  revert cur inSeparator. induction s as [|c s IH]; intros cur inSeparator Hcur.
  - cbn. repeat constructor. apply sepFree_rev. exact Hcur.
  - cbn [split_go]. destruct (isTagSeparator c) eqn:Hc.
    + destruct inSeparator; [apply IH; exact Hcur|].
      constructor; [apply sepFree_rev; exact Hcur | apply IH; constructor].
    + apply IH. constructor; assumption.
Qed.

(** The pieces of a text of separators only are all empty. *)
Lemma split_go_separators inSeparator s :
  Forall (fun c => isTagSeparator c = true) (chars s) ->
  Forall (fun piece => piece = EmptyString) (split_go EmptyString inSeparator s).
Proof.
  revert inSeparator. induction s as [|c s IH]; intros inSeparator Hs.
  - repeat constructor.
  - cbn [chars] in Hs. inversion Hs as [|? ? Hc Hs']; subst.
    cbn [split_go]. rewrite Hc. destruct inSeparator; [apply IH; exact Hs'|].
    constructor; [reflexivity | apply IH; exact Hs'].
Qed.

(** The pieces put end to end are the text without its separators. *)
Lemma split_go_concat cur inSeparator s :
  concat (map chars (split_go cur inSeparator s))
  = rev (chars cur) ++ chars (removeSeparators s).
Proof.
  revert cur inSeparator. induction s as [|c s IH]; intros cur inSeparator.
  - cbn. rewrite chars_rev. reflexivity.
  - cbn [split_go removeSeparators]. destruct (isTagSeparator c).
    + destruct inSeparator; [apply IH|].
      cbn [map concat]. rewrite IH, chars_rev. reflexivity.
    + rewrite IH. cbn [chars rev]. rewrite <- app_assoc. reflexivity.
Qed.

(** The test of [parseTags] for a text that is empty after trimming is
    covered by what follows it: such a text has empty pieces only. *)
Lemma parseTags_pieces s :
  parseTags s
  = map JS.toLowerCase
      (List.filter (fun tag => (0 <? String.length tag)%nat) (splitTags s)).
Proof.
  unfold parseTags.
  assert (map JS.trim (splitTags s) = splitTags s) as ->.
  { rewrite <- (map_id (splitTags s)) at 2. apply map_ext_in. intros piece Hin.
    apply trim_spacefree, sepFree_spacefree.
    revert piece Hin. apply List.Forall_forall, split_go_sepFree. constructor. }
  destruct (JS.truthy (JS.trim s)) eqn:Htrim; [reflexivity|]. cbn [negb].
  assert (JS.trim s = EmptyString) as Hblank by (destruct (JS.trim s); [reflexivity | discriminate]).
  apply trim_blank in Hblank.
  assert (Forall (fun piece => piece = EmptyString) (splitTags s)) as Hpieces.
  { apply split_go_separators. eapply Forall_impl; [exact Hblank|].
    intros c Hc. unfold isTagSeparator. cbv beta in Hc. rewrite Hc. apply orb_true_r. }
  induction Hpieces as [|piece pieces -> _ IH]; [reflexivity | exact IH].
Qed.

Lemma parseTags_normalized s : Forall normalizedTag (parseTags s).
Proof.
  rewrite parseTags_pieces. apply List.Forall_forall. intros tag Hin.
  apply in_map_iff in Hin as (piece & <- & Hin). apply filter_In in Hin as [Hin Hlen].
  assert (sepFree piece) as Hfree.
  { clear Hlen. revert piece Hin. apply List.Forall_forall, split_go_sepFree. constructor. }
  split; [|split].
  - destruct piece; [discriminate | cbn; discriminate].
  - apply toLowerCase_idem.
  - apply sepFree_toLowerCase. exact Hfree.
Qed.

Lemma chars_join_Empty parts : chars (JS.join EmptyString parts) = concat (map chars parts).
Proof.
  induction parts as [|part parts IH]; [reflexivity|].
  destruct parts as [|next parts].
  - cbn. symmetry. apply app_nil_r.
  - change (JS.join EmptyString (part :: next :: parts))
      with (part +:+ EmptyString +:+ JS.join EmptyString (next :: parts)).
    rewrite app_Empty, chars_app, IH. reflexivity.
Qed.

Lemma concat_nonempty pieces :
  concat (map chars (List.filter (fun tag => (0 <? String.length tag)%nat) pieces))
  = concat (map chars pieces).
Proof.
  set (nonempty := fun tag : string => (0 <? String.length tag)%nat).
  induction pieces as [|piece pieces IH]; [reflexivity|].
  destruct piece as [|c piece].
  - change (List.filter nonempty (EmptyString :: pieces))
      with (List.filter nonempty pieces). exact IH.
  - change (List.filter nonempty (String c piece :: pieces))
      with (String c piece :: List.filter nonempty pieces).
    cbn [map concat]. rewrite IH. reflexivity.
Qed.

(** X21.  Every tag [parseTags] returns is not empty, is in lower case and
    has no comma and no white space in it; no tag is returned exactly when
    the text has nothing but commas and white space. *)
Theorem parseTags_tags (tagsString : string) :
  Forall normalizedTag (parseTags tagsString)
  /\ (parseTags tagsString = []
      <-> Forall (fun c => isTagSeparator c = true) (chars tagsString)).
Proof.
  split; [apply parseTags_normalized|].
  rewrite parseTags_pieces. split.
  - intros Hnone. apply map_eq_nil in Hnone.
    pose proof (split_go_concat EmptyString false tagsString) as Hconcat.
    fold (splitTags tagsString) in Hconcat.
    rewrite <- concat_nonempty, Hnone in Hconcat. cbn in Hconcat.
    clear Hnone. induction tagsString as [|c s IH]; [constructor|].
    cbn [removeSeparators chars] in *. destruct (isTagSeparator c) eqn:Hc; [|discriminate].
    constructor; [exact Hc | apply IH; exact Hconcat].
  - intros Hseparators.
    pose proof (split_go_separators false tagsString Hseparators) as Hpieces.
    fold (splitTags tagsString) in Hpieces.
    induction Hpieces as [|piece pieces -> _ IH]; [reflexivity | exact IH].
Qed.

(** X22.  For ASCII text, the tags [parseTags] returns, put end to end, are
    the text in lower case without its commas and white space: no other
    character is lost, none is added, and the order is kept. *)
Theorem parseTags_characters (tagsString : string) :
  asciiText tagsString ->
  JS.join EmptyString (parseTags tagsString)
  = JS.toLowerCase (removeSeparators tagsString).
Proof.
  intros _. apply chars_inj.
  rewrite chars_join_Empty, parseTags_pieces, chars_toLowerCase, map_map.
  rewrite (map_ext _ (fun piece => map JS.toLowerChar (chars piece)))
    by (intros piece; apply chars_toLowerCase).
  rewrite <- map_map, <- concat_map, concat_nonempty.
  unfold splitTags. rewrite (split_go_concat EmptyString false tagsString). reflexivity.
Qed.

Lemma parseTags_characters_witness :
  JS.join EmptyString (parseTags " Bug,  Urgent frontend ,") = "bugurgentfrontend".
Proof.
  rewrite (parseTags_characters " Bug,  Urgent frontend ,").
  - reflexivity.
  - repeat constructor.
Defined.

(** *** The tags of a note in the form and back *)

Lemma app_Empty_r s : s +:+ EmptyString = s.
Proof. induction s as [|c s IH]; [reflexivity|]. rewrite app_String, IH. reflexivity. Qed.

(** A piece without separators is read to its end. *)
Lemma split_go_word cur w rest :
  sepFree w ->
  split_go cur false (w +:+ rest) = split_go (String.rev_app w cur) false rest.
Proof.
  revert cur. induction w as [|c w IH]; intros cur Hw; [reflexivity|].
  unfold sepFree in Hw. cbn [chars] in Hw. inversion Hw as [|? ? Hc Hw']; subst.
  rewrite app_String. cbn [split_go String.rev_app]. rewrite Hc. apply IH. exact Hw'.
Qed.

Lemma split_go_start cur inSeparator c s :
  isTagSeparator c = false ->
  split_go cur inSeparator (String c s) = split_go cur false (String c s).
Proof. intros Hc. cbn [split_go]. rewrite Hc. reflexivity. Qed.

Lemma join_cons sep part next parts :
  JS.join sep (part :: next :: parts) = part +:+ sep +:+ JS.join sep (next :: parts).
Proof. reflexivity. Qed.

Lemma normalizedTag_head tag :
  normalizedTag tag ->
  exists c rest, tag = String c rest /\ isTagSeparator c = false /\ sepFree tag.
Proof.
  intros (Hnonempty & _ & Hfree). destruct tag as [|c rest]; [contradiction Hnonempty; reflexivity|].
  exists c, rest. split; [reflexivity|]. split; [|exact Hfree].
  cbn [chars] in Hfree. inversion Hfree. assumption.
Qed.

(** [split] takes the text of [join] apart where it was joined. *)
Lemma split_go_join tag tags inSeparator :
  Forall normalizedTag (tag :: tags) ->
  split_go EmptyString inSeparator (JS.join ", " (tag :: tags)) = tag :: tags.
Proof.
  revert tag inSeparator. induction tags as [|next tags IH]; intros tag inSeparator Htags.
  - inversion Htags as [|? ? Htag _]; subst.
    destruct (normalizedTag_head tag Htag) as (c & rest & -> & Hc & Hfree).
    cbn [JS.join]. rewrite split_go_start by exact Hc.
    rewrite <- (app_Empty_r (String c rest)) at 1.
    rewrite split_go_word by exact Hfree. cbn [split_go].
    fold (String.rev (String c rest)). rewrite rev_rev. reflexivity.
  - inversion Htags as [|? ? Htag Hrest]; subst.
    destruct (normalizedTag_head tag Htag) as (c & rest & -> & Hc & Hfree).
    rewrite join_cons.
    assert (forall text, String c rest +:+ text = String c (rest +:+ text)) as Hcons
      by reflexivity.
    rewrite Hcons, split_go_start by exact Hc. rewrite <- Hcons.
    rewrite split_go_word by exact Hfree.
    change (", " +:+ JS.join ", " (next :: tags))
      with (String "," (String " " (JS.join ", " (next :: tags)))).
    cbn [split_go]. change (isTagSeparator ",") with true. change (isTagSeparator " ") with true.
    cbv iota. fold (String.rev (String c rest)). rewrite rev_rev. f_equal. apply IH. exact Hrest.
Qed.

Lemma parseTags_join tags :
  Forall normalizedTag tags -> parseTags (JS.join ", " tags) = tags.
Proof.
  intros Htags. destruct tags as [|tag tags]; [reflexivity|].
  rewrite parseTags_pieces. unfold splitTags. rewrite split_go_join by exact Htags.
  induction Htags as [|t ts Ht _ IH]; [reflexivity|].
  destruct Ht as (Hnonempty & Hlower & _).
  destruct t as [|c t]; [contradiction Hnonempty; reflexivity|].
  change (List.filter (fun tag => (0 <? String.length tag)%nat) (String c t :: ts))
    with (String c t :: List.filter (fun tag => (0 <? String.length tag)%nat) ts).
  cbn [map]. rewrite Hlower, IH. reflexivity.
Qed.

(** X23.  The tags of a note survive the form: the text the form shows for
    tags that have no comma or white space, are in lower case and are not
    empty ([tags.join(', ')]) is parsed back into the same tags.  Tags that
    [parseTags] returned are such tags, so parsing the shown text of parsed
    tags changes nothing. *)
Theorem parseTags_join_roundtrip :
  (forall tags, Forall normalizedTag tags -> parseTags (JS.join ", " tags) = tags)
  /\ (forall tagsString,
        parseTags (JS.join ", " (parseTags tagsString)) = parseTags tagsString)
  /\ (forall note formData t newId saved,
        handleSave note formData t newId = inr saved ->
        parseTags (NoteFormData.tags (formDataOf saved)) = Note.tags saved).
Proof.
  split; [exact parseTags_join|]. split.
  - intros tagsString. apply parseTags_join, parseTags_normalized.
  - intros note formData t newId saved Hsave. unfold handleSave in Hsave.
    destruct (0 <? length _)%nat; [discriminate|]. injection Hsave as <-.
    cbn [formDataOf NoteFormData.tags Note.tags].
    apply parseTags_join, parseTags_normalized.
Qed.

Lemma parseTags_join_roundtrip_witness :
  parseTags (JS.join ", " ["frontend"; "validation"; "urgent"])
  = ["frontend"; "validation"; "urgent"].
Proof.
  apply (proj1 parseTags_join_roundtrip ["frontend"; "validation"; "urgent"]).
  repeat constructor; discriminate.
Defined.

(** ** [NoteForm.handleSave] *)

Lemma truthy_trim s : JS.truthy (JS.trim s) = negb (missingText (Some s)).
Proof. cbn [missingText]. destruct (JS.trim s); reflexivity. Qed.

Lemma missingText_blank s : missingText (Some s) = true <-> blank s.
Proof. cbn [missingText]. rewrite String.eqb_eq. apply trim_blank. Qed.

(** [handleSave], case by case. *)
Lemma handleSave_cases note formData now newId :
  handleSave note formData now newId =
  if missingText (Some (NoteFormData.title formData))
     || missingText (Some (NoteFormData.content formData))
  then inl (messageIf (missingText (Some (NoteFormData.title formData))) "Title is required"
            ++ messageIf (missingText (Some (NoteFormData.content formData)))
                 "Content is required")
  else inr (Note.mk
              (match note with
               | Some n => if JS.truthy (Note.id n) then Note.id n else newId
               | None => newId
               end)
              (JS.trim (NoteFormData.title formData))
              (JS.trim (NoteFormData.content formData))
              (parseTags (NoteFormData.tags formData))
              (NoteFormData.priority formData)
              (NoteFormData.category formData)
              (NoteFormData.isFavorite formData)
              (match note with Some n => Note.createdAt n | None => now end)
              now).
Proof.
  unfold handleSave, validateNote, noteToValidate.
  cbn [PartialNote.title PartialNote.content PartialNote.priority PartialNote.category
       option_map JS.truthy_opt].
  rewrite !truthy_trim, !negb_involutive.
  destruct (missingText (Some (NoteFormData.title formData))),
           (missingText (Some (NoteFormData.content formData))),
           (NoteFormData.priority formData), (NoteFormData.category formData);
    reflexivity.
Qed.

(** X24.  [handleSave] shows errors exactly when the title or the content
    of the form is empty or white space only, and then the errors are the
    messages about the title and the content, in this order; a form never
    gives a message about the priority or the category.  Otherwise it saves
    a note whose title and content are the trimmed texts of the form, not
    empty and without white space at either end, and whose tags have no
    comma or white space, are in lower case and are not empty. *)
Theorem handleSave_outcome (note : option Note.t) (formData : NoteFormData.t)
    (now : Z) (newId : string) :
  (forall errors,
     handleSave note formData now newId = inl errors ->
     (blank (NoteFormData.title formData) \/ blank (NoteFormData.content formData))
     /\ errors
        = messageIf (missingText (Some (NoteFormData.title formData))) "Title is required"
          ++ messageIf (missingText (Some (NoteFormData.content formData)))
               "Content is required")
  /\ (forall saved,
        handleSave note formData now newId = inr saved ->
        ~ blank (NoteFormData.title formData)
        /\ ~ blank (NoteFormData.content formData)
        /\ Note.title saved = JS.trim (NoteFormData.title formData)
        /\ Note.content saved = JS.trim (NoteFormData.content formData)
        /\ Note.title saved <> EmptyString
        /\ Note.content saved <> EmptyString
        /\ JS.trim (Note.title saved) = Note.title saved
        /\ JS.trim (Note.content saved) = Note.content saved
        /\ Forall normalizedTag (Note.tags saved))
  /\ (~ blank (NoteFormData.title formData) ->
      ~ blank (NoteFormData.content formData) ->
      exists saved, handleSave note formData now newId = inr saved).
Proof.
  rewrite handleSave_cases.
  destruct (missingText (Some (NoteFormData.title formData))) eqn:Htitle;
    destruct (missingText (Some (NoteFormData.content formData))) eqn:Hcontent;
    cbn [orb].
  1-3: split; [|split]; [intros errors [= <-]; split; [|reflexivity] | intros saved [=] |].
  1,3: left; apply missingText_blank; exact Htitle.
  1,2: intros Hnot; contradiction Hnot; apply missingText_blank; exact Htitle.
  - right. apply missingText_blank. exact Hcontent.
  - intros _ Hnot. contradiction Hnot. apply missingText_blank. exact Hcontent.
  - assert (~ blank (NoteFormData.title formData)) as Htitle'
      by (rewrite <- missingText_blank; congruence).
    assert (~ blank (NoteFormData.content formData)) as Hcontent'
      by (rewrite <- missingText_blank; congruence).
    split; [intros errors [=]|]. split; [|intros _ _; eexists; reflexivity].
    intros saved [= <-]. cbn [Note.title Note.content Note.tags].
    repeat split; try assumption; try apply trim_idem.
    + intros H. apply Htitle', trim_blank. exact H.
    + intros H. apply Hcontent', trim_blank. exact H.
    + apply parseTags_normalized.
Qed.

Lemma handleSave_outcome_witness :
  exists saved,
    handleSave None (NoteFormData.mk " Fix login " "Steps" "Bug, urgent" high bug false)
      sampleInstant "note_1" = inr saved.
Proof.
  apply (proj2 (proj2 (handleSave_outcome None
                         (NoteFormData.mk " Fix login " "Steps" "Bug, urgent" high bug false)
                         sampleInstant "note_1"))).
  - intros H. apply (proj2 (missingText_blank _)) in H. vm_compute in H. discriminate H.
  - intros H. apply (proj2 (missingText_blank _)) in H. vm_compute in H. discriminate H.
Defined.

(** X25.  Saving the form of a note as the form shows it changes nothing
    but [updatedAt]: for a note that [handleSave] made, opening it in the
    form and saving at once gives the note back with the same title,
    content, tags, priority, category, favorite flag and [createdAt]. *)
Theorem handleSave_unchanged (source : option Note.t) (formData : NoteFormData.t)
    (made : Z) (madeId : string) (note : Note.t) (now : Z) (newId : string) :
  handleSave source formData made madeId = inr note ->
  handleSave (Some note) (formDataOf note) now newId
  = inr (Note.mk (if JS.truthy (Note.id note) then Note.id note else newId)
           (Note.title note) (Note.content note) (Note.tags note)
           (Note.priority note) (Note.category note) (Note.isFavorite note)
           (Note.createdAt note) now).
Proof.
  intros Hmade. rewrite handleSave_cases in Hmade.
  destruct (missingText (Some (NoteFormData.title formData))) eqn:Htitle;
    [discriminate|].
  destruct (missingText (Some (NoteFormData.content formData))) eqn:Hcontent;
    [discriminate|].
  cbn [orb] in Hmade. injection Hmade as <-.
  rewrite handleSave_cases.
  cbn [formDataOf NoteFormData.title NoteFormData.content NoteFormData.tags
       NoteFormData.priority NoteFormData.category NoteFormData.isFavorite
       Note.title Note.content Note.tags Note.priority Note.category Note.isFavorite
       Note.createdAt Note.id].
  assert (forall s, missingText (Some s) = false -> missingText (Some (JS.trim s)) = false)
    as Htrimmed.
  { intros s Hs. cbn [missingText] in *. rewrite trim_idem. exact Hs. }
  rewrite (Htrimmed _ Htitle), (Htrimmed _ Hcontent). cbn [orb].
  rewrite !trim_idem, parseTags_join by apply parseTags_normalized. reflexivity.
Qed.

Lemma handleSave_unchanged_witness :
  let formData := NoteFormData.mk " Fix login " "Steps" "Bug, urgent" high bug false in
  let note := Note.mk "note_1" "Fix login" "Steps" ["bug"; "urgent"] high bug false
                sampleInstant sampleInstant in
  handleSave (Some note) (formDataOf note) (sampleInstant + 1) "note_2"
  = inr (Note.mk "note_1" "Fix login" "Steps" ["bug"; "urgent"] high bug false
           sampleInstant (sampleInstant + 1)).
Proof.
  intros formData note.
  apply (handleSave_unchanged None formData sampleInstant "note_1" note
           (sampleInstant + 1) "note_2").
  reflexivity.
Defined.

(** ** [truncateText] and [formatTagsForDisplay] *)

Lemma take_length n s : (String.length (JSString.take n s) <= n)%nat.
Proof.
  revert s. induction n as [|n IH]; intros [|c s]; cbn; try lia.
  specialize (IH s). lia.
Qed.

(** X26.  [truncateText] returns a text of at most [maxLength] characters
    as it is.  A longer text is cut to its first [maxLength] characters,
    trimmed, and three dots are added: the result has no white space before
    the dots and is at most [maxLength] + 3 characters long (three for a
    [maxLength] below zero), so it can be longer than [maxLength] and even
    longer than the text. *)
Theorem truncateText_length (text : string) (maxLength : Z) :
  ((Z.of_nat (String.length text) <= maxLength)%Z -> truncateText text maxLength = text)
  /\ ((maxLength < Z.of_nat (String.length text))%Z ->
      exists kept,
        truncateText text maxLength = kept +:+ "..."
        /\ kept = JS.trim (JSString.substring0 maxLength text)
        /\ JS.trim kept = kept
        /\ (Z.of_nat (String.length kept) <= Z.max 0 maxLength)%Z
        /\ (Z.of_nat (String.length (truncateText text maxLength))
            <= Z.max 0 maxLength + 3)%Z).
Proof.
  unfold truncateText. split.
  - intros Hshort. destruct (Z.leb_spec (Z.of_nat (String.length text)) maxLength); [reflexivity | lia].
  - intros Hlong. destruct (Z.leb_spec (Z.of_nat (String.length text)) maxLength); [lia|].
    exists (JS.trim (JSString.substring0 maxLength text)).
    assert (Z.of_nat (String.length (JS.trim (JSString.substring0 maxLength text)))
            <= Z.max 0 maxLength)%Z as Hkept.
    { pose proof (trim_length (JSString.substring0 maxLength text)) as Htrim.
      pose proof (take_length (Z.to_nat maxLength) text) as Htake.
      unfold JSString.substring0 in *. lia. }
    split; [reflexivity|]. split; [reflexivity|]. split; [apply trim_idem|].
    split; [exact Hkept|]. rewrite length_app. cbn [String.length]. lia.
Qed.

Lemma truncateText_length_witness :
  truncateText "Fix login" 120 = "Fix login"
  /\ exists kept,
       truncateText "Check the login form" 10 = kept +:+ "..."
       /\ kept = JS.trim (JSString.substring0 10 "Check the login form")
       /\ JS.trim kept = kept
       /\ (Z.of_nat (String.length kept) <= Z.max 0 10)%Z
       /\ (Z.of_nat (String.length (truncateText "Check the login form" 10))
           <= Z.max 0 10 + 3)%Z.
Proof.
  split.
  - apply (proj1 (truncateText_length "Fix login" 120)). vm_compute. discriminate.
  - apply (proj2 (truncateText_length "Check the login form" 10)). reflexivity.
Defined.

Lemma toUpperChar_idem c : JSString.toUpperChar (JSString.toUpperChar c) = JSString.toUpperChar c.
Proof. each_char c. Qed.

Lemma toLowerChar_toUpperChar c : JS.toLowerChar (JSString.toUpperChar c) = JS.toLowerChar c.
Proof. each_char c. Qed.

Lemma formatTag_String c rest :
  JSString.toUpperCase (JSString.charAt0 (String c rest))
  +:+ JS.toLowerCase (JSString.slice1 (String c rest))
  = String (JSString.toUpperChar c) (JS.toLowerCase rest).
Proof. reflexivity. Qed.

(** X27.  For ASCII tags, [formatTagsForDisplay] changes the case of
    letters and nothing else: each tag shown is the tag with its first
    character in upper case and the others in lower case, so the tags shown
    and the tags are the same in lower case, and tags that are in lower case
    already, as the tags [parseTags] returns, are read back from the tags
    shown by [toLowerCase].  Formatting twice is formatting once. *)
Theorem formatTagsForDisplay_case (tags : list string) :
  Forall asciiText tags ->
  length (formatTagsForDisplay tags) = length tags
  /\ map JS.toLowerCase (formatTagsForDisplay tags) = map JS.toLowerCase tags
  /\ formatTagsForDisplay (formatTagsForDisplay tags) = formatTagsForDisplay tags
  /\ (Forall normalizedTag tags ->
      map JS.toLowerCase (formatTagsForDisplay tags) = tags).
Proof.
  intros _.
  assert (map JS.toLowerCase (formatTagsForDisplay tags) = map JS.toLowerCase tags)
    as Hlower.
  { unfold formatTagsForDisplay. rewrite map_map. apply map_ext. intros [|c rest];
      [reflexivity|].
    rewrite formatTag_String. cbn [JS.toLowerCase].
    rewrite toLowerChar_toUpperChar, toLowerCase_idem. reflexivity. }
  split; [apply length_map|]. split; [exact Hlower|]. split.
  - unfold formatTagsForDisplay. rewrite map_map. apply map_ext. intros [|c rest];
      [reflexivity|].
    rewrite !formatTag_String, toUpperChar_idem, toLowerCase_idem. reflexivity.
  - intros Htags. rewrite Hlower. rewrite <- (map_id tags) at 2.
    apply map_ext_in. intros tag Hin.
    rewrite List.Forall_forall in Htags. apply (Htags tag Hin).
Qed.

Lemma formatTagsForDisplay_case_witness :
  map JS.toLowerCase (formatTagsForDisplay ["frontend"; "best-practices"])
  = ["frontend"; "best-practices"]
  /\ formatTagsForDisplay ["frontend"; "best-practices"] = ["Frontend"; "Best-practices"].
Proof.
  split; [|reflexivity].
  apply (proj2 (proj2 (proj2 (formatTagsForDisplay_case ["frontend"; "best-practices"]
                                ltac:(repeat constructor))))).
  repeat constructor; discriminate.
Defined.

(** ** Toggling the favorite flag *)

Lemma NoDup_id_unique notes a b :
  List.NoDup (map Note.id notes) ->
  In a notes -> In b notes -> Note.id a = Note.id b -> a = b.
Proof.
  induction notes as [|n notes IH]; [intros _ []|].
  cbn [map]. intros Hnodup Ha Hb Hid. apply NoDup_cons_iff in Hnodup as [Hnotin Hnodup].
  destruct Ha as [-> | Ha], Hb as [-> | Hb].
  - reflexivity.
  - contradiction Hnotin. rewrite Hid. apply in_map. exact Hb.
  - contradiction Hnotin. rewrite <- Hid. apply in_map. exact Ha.
  - apply IH; assumption.
Qed.

(** X28.  [handleToggleFavorite] on a store that takes writes, with one
    note for each id: the note with the id has its favorite flag turned and
    its [updatedAt] set to the instant of the call, every other note and the
    order of the notes stay, and the store holds the same notes as the
    memory afterwards.  With an id of no note nothing changes. *)
Theorem toggleFavorite_InSync (legacyDateParse : string -> option Z)
    (dateOfObject : json -> outcome (option Z))
    (app : AppState.t) (id : string) (now : Z) :
  InSync legacyDateParse dateOfObject app ->
  Forall validNote (AppState.notes app) ->
  List.NoDup (map Note.id (AppState.notes app)) ->
  validTime now ->
  Storage.writable (AppState.storage app) = true ->
  InSync legacyDateParse dateOfObject
    (toggleFavorite legacyDateParse dateOfObject id now app)
  /\ AppState.notes (toggleFavorite legacyDateParse dateOfObject id now app)
     = map (fun n => if String.eqb (Note.id n) id then toggledNote n now else n)
         (AppState.notes app)
  /\ (~ In id (map Note.id (AppState.notes app)) ->
      toggleFavorite legacyDateParse dateOfObject id now app = app).
Proof.
  intros Hsync Hvalid Hnodup Hnow Hwritable. unfold InSync in *.
  unfold toggleFavorite, handleToggleFavorite.
  destruct (List.find _ (AppState.notes app)) as [note|] eqn:Hfind.
  - apply find_some in Hfind as [Hin Hid]. apply String.eqb_eq in Hid.
    assert (validNote (toggledNote note now)) as Htoggled.
    { rewrite List.Forall_forall in Hvalid. destruct (Hvalid note Hin) as [Hcreated _].
      split; [exact Hcreated | exact Hnow]. }
    unfold handleSaveNote.
    rewrite (saveNote_stored legacyDateParse dateOfObject _ _ _ Hwritable Hsync).
    cbn [AppState.notes AppState.storage].
    rewrite updatedNotes_replaceOrAppend by exact Hnodup.
    split; [|split].
    + apply getAllNotes_withNotes, Forall_replaceOrAppend; assumption.
    + rewrite <- map_replace_replaceOrAppend.
      * apply map_ext_in. intros n Hn. cbn [toggledNote Note.id]. rewrite Hid.
        destruct (String.eqb_spec (Note.id n) id) as [Hn'|]; [|reflexivity].
        f_equal. apply (NoDup_id_unique (AppState.notes app)); congruence.
      * exact Hnodup.
      * cbn [toggledNote Note.id]. apply in_map. exact Hin.
    + intros Hnotin. contradiction Hnotin. rewrite <- Hid. apply in_map. exact Hin.
  - split; [exact Hsync|]. split; [|reflexivity].
    rewrite <- (map_id (AppState.notes app)) at 1. apply map_ext_in. intros n Hn.
    apply (find_none _ _ Hfind) in Hn. rewrite Hn. reflexivity.
Qed.

Lemma toggleFavorite_InSync_witness :
  let app := toggleFavorite (fun _ => None) (fun _ => Ok None) (Note.id bugNote)
               (sampleInstant + 60000) sampleApp in
  InSync (fun _ => None) (fun _ => Ok None) app
  /\ AppState.notes app
     = [welcomeNote; toggledNote bugNote (sampleInstant + 60000); learningNote].
Proof.
  intros app.
  destruct (toggleFavorite_InSync (fun _ => None) (fun _ => Ok None) sampleApp
              (Note.id bugNote) (sampleInstant + 60000)) as (Hsync & Hnotes & _).
  - vm_compute. reflexivity.
  - repeat constructor; vm_compute; discriminate.
  - repeat (constructor; [cbn; intuition discriminate|]). constructor.
  - split; vm_compute; discriminate.
  - reflexivity.
  - split; [exact Hsync | exact Hnotes].
Defined.

(** ** Filtering and sorting *)

Section SortFilter.

Context {A : Type} (cmp : A -> A -> Z) (p : A -> bool).

Hypothesis cmp_trans :
  forall a b c, (cmp a b <= 0)%Z -> (cmp b c <= 0)%Z -> (cmp a c <= 0)%Z.

Lemma filter_sort_insert_out x xs :
  p x = false -> List.filter p (JS.sort_insert cmp x xs) = List.filter p xs.
Proof.
  intros Hx. induction xs as [|y xs IH]; cbn [JS.sort_insert List.filter].
  - rewrite Hx. reflexivity.
  - destruct (cmp x y <=? 0)%Z; cbn [List.filter]; [rewrite Hx; reflexivity|].
    rewrite IH. reflexivity.
Qed.

Lemma filter_sort_insert_in x xs :
  p x = true ->
  StronglySorted (fun a b => (cmp a b <= 0)%Z) xs ->
  List.filter p (JS.sort_insert cmp x xs) = JS.sort_insert cmp x (List.filter p xs).
Proof.
  intros Hx. induction 1 as [|y xs Hsorted IH Hy]; cbn [JS.sort_insert List.filter].
  - rewrite Hx. reflexivity.
  - destruct (Z.leb_spec (cmp x y) 0) as [Hxy|Hxy].
    + cbn [List.filter]. rewrite Hx. symmetry. apply sort_insert_front.
      apply List.Forall_forall. intros z Hz.
      assert (In z (y :: xs)) as Hz'.
      { destruct (p y); [|right; apply filter_In in Hz; tauto].
        destruct Hz as [-> | Hz]; [left; reflexivity | right; apply filter_In in Hz; tauto]. }
      clear Hz. destruct Hz' as [<- | Hz']; [exact Hxy|].
      apply (cmp_trans x y z Hxy). revert z Hz'. apply List.Forall_forall. exact Hy.
    + cbn [List.filter]. rewrite IH. destruct (p y); [|reflexivity].
      cbn [JS.sort_insert]. destruct (Z.leb_spec (cmp x y) 0); [lia | reflexivity].
Qed.

Hypothesis cmp_total : forall a b, (cmp a b <= 0)%Z \/ (cmp b a <= 0)%Z.

Lemma filter_sort_commute xs :
  List.filter p (JS.sort cmp xs) = JS.sort cmp (List.filter p xs).
Proof.
  induction xs as [|x xs IH]; [reflexivity|].
  cbn [JS.sort List.filter]. destruct (p x) eqn:Hx.
  - cbn [JS.sort]. rewrite <- IH. apply filter_sort_insert_in; [exact Hx|].
    apply sort_StronglySorted; assumption.
  - rewrite filter_sort_insert_out by exact Hx. exact IH.
Qed.

End SortFilter.

(** X29.  Filtering and sorting can be done in either order: the notes on
    display, filtered and then sorted, are the sorted collection filtered.
    This holds for [newest], [oldest] and [priority], and for [title] when
    [localeCompare] is a total and transitive order. *)
Theorem filterNotes_sortNotes (localeCompare : string -> string -> Z)
    (notes : list Note.t) (filters : SearchFilters.t) (sortBy : SortOption) :
  (sortBy = by_title ->
   (forall a b, (localeCompare a b <= 0)%Z \/ (localeCompare b a <= 0)%Z)
   /\ (forall a b c, (localeCompare a b <= 0)%Z -> (localeCompare b c <= 0)%Z ->
                     (localeCompare a c <= 0)%Z)) ->
  filterNotes (sortNotes localeCompare notes sortBy) filters
  = filteredNotes localeCompare notes filters sortBy.
Proof.
  intros Horder. unfold filteredNotes, filterNotes, sortNotes. cbv zeta.
  destruct sortBy; apply filter_sort_commute; try (intros; lia).
  - intros a b c. apply Horder. reflexivity.
  - intros a b. apply Horder. reflexivity.
Qed.

Lemma filterNotes_sortNotes_witness :
  filterNotes (sortNotes defaultCompare sampleNotes by_title)
    (SearchFilters.mk (Some EmptyString) (Some high) None None None)
  = filteredNotes defaultCompare sampleNotes
      (SearchFilters.mk (Some EmptyString) (Some high) None None None) by_title.
Proof.
  apply (filterNotes_sortNotes defaultCompare sampleNotes
           (SearchFilters.mk (Some EmptyString) (Some high) None None None) by_title).
  intros _. split.
  - intros a b. rewrite !defaultCompare_le. apply String.le_total.
  - intros a b c. rewrite !defaultCompare_le. apply String.le_po.
Defined.

(** ** [generateNoteId] *)

Lemma pretty_N_char_digit n : pretty_N_char n <> "_"%char.
Proof. unfold pretty_N_char. repeat case_match; discriminate. Qed.

(** The decimal digits of a number come before what was there, and none of
    them is an underscore. *)
Lemma pretty_N_go_digits x s :
  exists digits,
    pretty_N_go x s = digits +:+ s
    /\ Forall (fun c => c <> "_"%char) (chars digits).
Proof.
  revert s. induction (N.lt_wf_0 x) as [x _ IH]. intros s.
  destruct (decide (x = 0%N)) as [-> | Hx].
  - exists EmptyString. rewrite pretty_N_go_0. split; [reflexivity | constructor].
  - rewrite pretty_N_go_step by lia.
    destruct (IH (x `div` 10)%N) with (s := String (pretty_N_char (x `mod` 10)) s)
      as (digits & -> & Hdigits); [apply N.div_lt; lia|].
    exists (digits +:+ String (pretty_N_char (x `mod` 10)) EmptyString). split.
    + apply chars_inj. rewrite !chars_app. cbn [chars]. rewrite <- app_assoc. reflexivity.
    + rewrite chars_app. apply Forall_app. split; [exact Hdigits|].
      constructor; [apply pretty_N_char_digit | constructor].
Qed.

Lemma pretty_Z_digits (stamp : Z) : Forall (fun c => c <> "_"%char) (chars (pretty stamp)).
Proof.
  assert (forall p : positive, Forall (fun c => c <> "_"%char) (chars (pretty p))) as Hpos.
  { intros p. unfold pretty, pretty_positive, pretty, pretty_N.
    destruct (decide (N.pos p = 0%N)); [repeat constructor; discriminate|].
    destruct (pretty_N_go_digits (N.pos p) EmptyString) as (digits & -> & Hdigits).
    rewrite app_Empty_r. exact Hdigits. }
  destruct stamp as [|p|p]; unfold pretty, pretty_Z.
  - repeat constructor. discriminate.
  - apply Hpos.
  - rewrite chars_app. apply Forall_app. split; [|apply Hpos].
    repeat constructor. discriminate.
Qed.

Lemma split_at_underscore d1 d2 x1 x2 :
  Forall (fun c => c <> "_"%char) (chars d1) ->
  Forall (fun c => c <> "_"%char) (chars d2) ->
  d1 +:+ String "_" x1 = d2 +:+ String "_" x2 ->
  d1 = d2 /\ x1 = x2.
Proof.
  revert d2. induction d1 as [|c d1 IH]; intros [|c' d2] H1 H2 Heq.
  - rewrite !app_Empty in Heq. injection Heq as ->. split; reflexivity.
  - rewrite app_Empty, app_String in Heq. injection Heq as <- _.
    cbn [chars] in H2. inversion H2. congruence.
  - rewrite app_Empty, app_String in Heq. injection Heq as -> _.
    cbn [chars] in H1. inversion H1. congruence.
  - rewrite !app_String in Heq. injection Heq as -> Heq.
    cbn [chars] in H1, H2. inversion H1; inversion H2; subst.
    destruct (IH d2) as [-> ->]; try assumption. split; reflexivity.
Qed.

(** X30.  Two ids of [generateNoteId] made from different readings of the
    clock or with different random parts are different: an id tells the
    millisecond and the random part it was made from. *)
Theorem generateNoteId_distinct (stamp1 stamp2 : Z) (suffix1 suffix2 : string) :
  stamp1 <> stamp2 \/ suffix1 <> suffix2 ->
  generateNoteId stamp1 suffix1 <> generateNoteId stamp2 suffix2.
Proof.
  unfold generateNoteId. intros Hdistinct Heq.
  assert (pretty stamp1 +:+ String "_" suffix1 = pretty stamp2 +:+ String "_" suffix2)
    as Hrest.
  { change ("note_" +:+ (pretty stamp1 +:+ String "_" suffix1)
            = "note_" +:+ (pretty stamp2 +:+ String "_" suffix2)) in Heq.
    rewrite !app_String, !app_Empty in Heq. injection Heq as Heq. exact Heq. }
  apply split_at_underscore in Hrest as [Hstamp Hsuffix]; try apply pretty_Z_digits.
  apply (inj pretty) in Hstamp. destruct Hdistinct; contradiction.
Qed.

Lemma generateNoteId_distinct_witness :
  generateNoteId sampleInstant "k3j9x0q1a" <> generateNoteId sampleInstant "p0z8w7v2b"
  /\ generateNoteId sampleInstant "k3j9x0q1a" <> generateNoteId (sampleInstant + 1) "k3j9x0q1a".
Proof.
  split.
  - apply (generateNoteId_distinct sampleInstant sampleInstant "k3j9x0q1a" "p0z8w7v2b").
    right. discriminate.
  - apply (generateNoteId_distinct sampleInstant (sampleInstant + 1) "k3j9x0q1a" "k3j9x0q1a").
    left. discriminate.
Defined.
